(** * zot-dga: the on-demand image derivative pipeline

    A shallow embedding of [src/controllers/processController.js] (the five
    request handlers), of [File.findById] and [File.delete] from
    [src/models/File.js], of [FileController.deleteFile] and of
    [UploadController.uploadImage]; further down, of
    [UploadController.uploadVideo] and [uploadMultiple], of
    [Folder.generatePath] and of [sanitizeFolderName] from
    [src/utils/fileUtils.js].

    JavaScript numbers are embedded as [num]: [NaN] or an integer.  The
    handlers only ever produce numbers with [parseInt], so no fraction occurs;
    the embedding is exact for integers of magnitude below 2^53 (beyond that
    JavaScript rounds to a double, which is not modelled).  Strings are
    sequences of 8-bit characters, code points below 256.

    The tables [files] and [folders] are SQLite's.  Of [files] the rows are
    kept; the id of a new row is SQLite's choice ([AUTOINCREMENT]) and an
    argument of the upload handlers, as is what their step on [folders]
    comes to.

    Node's [path] module, the [sharp] image engine and the bytes of files
    are collaborators of the code, not part of it: they are the fields of the
    class [Host], the handlers are written over any host, and what a theorem
    assumes of the engine is the hypothesis [sharp_geometry] in its
    statement.  The module [Ref] is one host, on which the handlers run. *)

From Stdlib Require Import ZArith String Ascii List Bool Lia.
From Stdlib Require Import DecimalString DecimalZ DecimalPos.
From stdpp Require Import gmap strings.

Local Open Scope string_scope.
Local Open Scope Z_scope.
Local Open Scope list_scope.

#[local] Arguments String.append !s1 s2 : simpl nomatch.

(** ** JavaScript values used by the handlers *)

Module JS.

(** A JavaScript number as [parseInt] can return it. *)
Inductive num : Type :=
| NaN
| Num (z : Z).

(** Truthiness of a number: [0] and [NaN] are falsy. *)
Definition truthy (n : num) : bool :=
  match n with
  | NaN => false
  | Num z => negb (z =? 0)
  end.

(** Truthiness of a value that is a number or [null]. *)
Definition truthy_opt (n : option num) : bool :=
  match n with
  | None => false
  | Some v => truthy v
  end.

(** Truthiness of a query string that may be [undefined]. *)
Definition truthy_str (s : option string) : bool :=
  match s with
  | None | Some EmptyString => false
  | Some _ => true
  end.

(** [a < k] and [a > k] against an integer literal: false on [NaN]. *)
Definition lt (a : num) (k : Z) : bool :=
  match a with
  | NaN => false
  | Num z => z <? k
  end.

Definition gt (a : num) (k : Z) : bool :=
  match a with
  | NaN => false
  | Num z => k <? z
  end.

(** [a === k] against an integer literal. *)
Definition strict_eq (a : num) (k : Z) : bool :=
  match a with
  | NaN => false
  | Num z => z =? k
  end.

(** *** [parseInt] with no radix argument *)

(** The white space [parseInt] skips before the number: the characters
    [StrWhiteSpaceChar] of the language below 256, which are tab, line feed,
    vertical tab, form feed, carriage return, the space and the no-break
    space U+00A0. *)
Definition is_ws (c : ascii) : bool :=
  let n := N_of_ascii c in
  ((9 <=? n) && (n <=? 13))%N || (n =? 32)%N || (n =? 160)%N.

Fixpoint skip_ws (s : string) : string :=
  match s with
  | String c r => if is_ws c then skip_ws r else s
  | EmptyString => s
  end.

(** The value of a character as a digit, up to radix 36. *)
Definition digit_val (c : ascii) : option Z :=
  let n := Z.of_N (N_of_ascii c) in
  if (48 <=? n) && (n <=? 57) then Some (n - 48)
  else if (97 <=? n) && (n <=? 122) then Some (n - 87)
  else if (65 <=? n) && (n <=? 90) then Some (n - 55)
  else None.

(** The longest prefix of digits of the radix, read as a number;
    [acc] is [None] as long as no digit was read. *)
Fixpoint digits_prefix (radix : Z) (s : string) (acc : option Z) : option Z :=
  match s with
  | EmptyString => acc
  | String c r =>
      match digit_val c with
      | Some d =>
          if d <? radix
          then digits_prefix radix r
                 (Some (match acc with None => d | Some a => a * radix + d end))
          else acc
      | None => acc
      end
  end.

Definition strip_sign (s : string) : bool * string :=
  match s with
  | String "-" r => (true, r)
  | String "+" r => (false, r)
  | _ => (false, s)
  end.

Definition strip_radix (s : string) : Z * string :=
  match s with
  | String "0" (String "x" r) => (16, r)
  | String "0" (String "X" r) => (16, r)
  | _ => (10, s)
  end.

Definition parseInt (s : string) : num :=
  let '(neg, s1) := strip_sign (skip_ws s) in
  let '(radix, s2) := strip_radix s1 in
  match digits_prefix radix s2 None with
  | None => NaN
  | Some v => Num (if neg then - v else v)
  end.

(** *** Number to string, as a template literal does it *)

Definition toString (n : num) : string :=
  match n with
  | NaN => "NaN"
  | Num z => NilZero.string_of_int (Z.to_int z)
  end.

(** [String.prototype.toLowerCase] on the ASCII letters. *)
Definition lower_char (c : ascii) : ascii :=
  let n := N_of_ascii c in
  if ((65 <=? n) && (n <=? 90))%N then ascii_of_N (n + 32) else c.

Fixpoint toLowerCase (s : string) : string :=
  match s with
  | EmptyString => EmptyString
  | String c r => String (lower_char c) (toLowerCase r)
  end.

End JS.

Import JS.

(** ** The collaborators: [path], [sharp], and the data they exchange *)

(** What [sharp(...).metadata()] reports and [getImageInfo] passes on. *)
Record Metadata : Type := {
  md_width : Z;
  md_height : Z;
  md_format : string;
  md_space : string;
  md_channels : Z;
  md_depth : string;
  md_density : option Z;
  md_hasProfile : bool;
  md_hasAlpha : bool;
  md_orientation : option Z
}.

(** The [fit] option of [sharp.resize]. *)
Inductive Fit : Type :=
| FitInside
| FitCover.

(** The geometric step a handler asks of the engine:
    nothing, [.resize(w, h, {fit, position, withoutEnlargement})], or
    [.extract({left, top, width, height})]. *)
Inductive Geometry : Type :=
| GNone
| GResize (w h : option num) (fit : Fit) (position : option string)
    (withoutEnlargement : bool)
| GExtract (left top width height : num).

(** The output step: [.jpeg({quality})], [.png({quality})],
    [.webp({quality})] or [.gif()]. *)
Inductive Encoder : Type :=
| EJpeg (quality : num)
| EPng (quality : num)
| EWebp (quality : num)
| EGif.

(** The quality an encoder is given; [.gif()] takes none. *)
Definition encoder_quality (e : Encoder) : option num :=
  match e with
  | EJpeg q | EPng q | EWebp q => Some q
  | EGif => None
  end.

(** One engine call chain, [sharp(src).<geometry>.<encoder>.toFile(dst)]. *)
Record Pipeline : Type := {
  pl_geometry : Geometry;
  pl_encoder : Encoder
}.

(** The environment of the handlers.  [sharp pl b] is the outcome of the
    call chain [pl] on a file whose content is [b]: the message of the error
    it throws, or the bytes it writes. *)
Class Host : Type := {
  Bytes : Type;
  path_parse_name : string -> string;
  path_dirname : string -> string;
  path_extname : string -> string;
  path_join : string -> string -> string;
  sharp : Pipeline -> Bytes -> string + Bytes;
  sharp_metadata : Bytes -> string + Metadata
}.

(** ** The cache file names (lines 61, 164, 261 and 409) *)

(** [${w || 'auto'}] *)
Definition or_auto (w : option num) : string :=
  match w with
  | Some n => if truthy n then toString n else "auto"
  | None => "auto"
  end.

(** [format || 'jpeg'] *)
Definition or_jpeg (format : option string) : string :=
  match format with
  | Some f => if truthy_str format then f else "jpeg"
  | None => "jpeg"
  end.

Definition resize_cacheFilename (stem : string) (w h : option num) (q : num)
  (format : option string) : string :=
  stem +:+ "_" +:+ or_auto w +:+ "x" +:+ or_auto h +:+ "_q" +:+ toString q
       +:+ "." +:+ or_jpeg format.

Definition convert_cacheFilename (stem : string) (q : num) (format : string)
  : string :=
  stem +:+ "_converted_q" +:+ toString q +:+ "." +:+ format.

Definition thumbnail_cacheFilename (stem : string) (s q : num) : string :=
  stem +:+ "_thumb_" +:+ toString s +:+ "x" +:+ toString s +:+ "_q"
       +:+ toString q +:+ ".jpg".

Definition crop_cacheFilename (stem : string) (cropX cropY cropWidth cropHeight q : num)
  : string :=
  stem +:+ "_crop_" +:+ toString cropX +:+ "_" +:+ toString cropY +:+ "_"
       +:+ toString cropWidth +:+ "_" +:+ toString cropHeight +:+ "_q"
       +:+ toString q +:+ ".jpg".

(** The parsed parameters of a transform request, one constructor per
    caching handler, and the file name its handler derives. *)
Inductive Transform : Type :=
| TResize (w h : option num) (q : num) (format : option string)
| TConvert (q : num) (format : string)
| TThumbnail (s q : num)
| TCrop (cropX cropY cropWidth cropHeight q : num).

Definition cacheFilename (stem : string) (t : Transform) : string :=
  match t with
  | TResize w h q format => resize_cacheFilename stem w h q format
  | TConvert q format => convert_cacheFilename stem q format
  | TThumbnail s q => thumbnail_cacheFilename stem s q
  | TCrop x y w h q => crop_cacheFilename stem x y w h q
  end.

(** What of a [Transform] reaches the file name: a falsy width or height
    reads ['auto'] like an absent one, a falsy format reads ['jpeg']. *)
Definition named_dim (w : option num) : option num :=
  match w with
  | Some n => if truthy n then Some n else None
  | None => None
  end.

Definition named (t : Transform) : Transform :=
  match t with
  | TResize w h q format =>
      TResize (named_dim w) (named_dim h) q (Some (or_jpeg format))
  | _ => t
  end.

(** ** The world the handlers run in *)

(** A row of the [files] table; the columns no handler below reads
    (folder, tags, description, timestamps) are left out. *)
Record FileRow : Type := {
  row_id : Z;
  row_user_id : Z;
  row_filename : string;
  row_original_name : string;
  row_path : string;
  row_size : Z;
  row_mime_type : string;
  row_file_type : string;
  row_thumbnail_path : option string
}.

(** The query string of a request: every parameter is a string or absent. *)
Record Query : Type := {
  q_width : option string;
  q_height : option string;
  q_quality : option string;
  q_format : option string;
  q_size : option string;
  q_x : option string;
  q_y : option string
}.

(** [req.params.id], [req.user.id] and [req.query].  The id is the integer
    the [id] column is compared with. *)
Record Req : Type := {
  req_id : Z;
  req_user : Z;
  req_query : Query
}.

(** What a handler does to its environment, in order. *)
Inductive Event : Type :=
| EFindById (id user : Z)
| EDelete (id user : Z)
| EInsert (filename : string)
| EExists (p : string)
| EMkdir (p : string)
| EUnlink (p : string)
| EMetadata (src : string)
| EToFile (src : string) (pl : Pipeline) (dst : string).

Definition is_encode (e : Event) : bool :=
  match e with
  | EToFile _ _ _ => true
  | _ => false
  end.

(** The number of encode calls ([toFile]) in a trace. *)
Definition engine_calls (t : list Event) : nat :=
  length (List.filter is_encode t).

Section World.
Context `{host : Host}.

(** A path on disk holds a regular file or is a directory. *)
Inductive Node : Type :=
| File (b : Bytes)
| Dir.

Record World : Type := {
  db : list FileRow;
  fs : gmap string Node
}.

(** The file part of the [getImageInfo] answer. *)
Record FileInfo : Type := {
  fi_id : Z;
  fi_filename : string;
  fi_originalName : string;
  fi_size : Z;
  fi_mimeType : string
}.

(** What the client receives.  [SendFile p body] is [res.sendFile] of the
    path [p]; [body] is the content found there, if it is a regular file. *)
Inductive Response : Type :=
| Json (status : Z) (error : string) (message : option string)
| Message (status : Z) (message : string)
| SendFile (p : string) (body : option Bytes)
| Info (file : FileInfo) (imageInfo : Metadata).

(** *** A handler body: state, trace, early [return] and [throw] *)

Inductive Outcome (A : Type) : Type :=
| Next (a : A)
| Return (r : Response)
| Throw (message : string).

Definition M (A : Type) : Type := World -> Outcome A * World * list Event.

Definition ret {A} (a : A) : M A := fun w => (Next A a, w, []).

Definition bind {A B} (m : M A) (k : A -> M B) : M B :=
  fun w =>
    match m w with
    | (Next _ a, w1, t1) =>
        let '(o, w2, t2) := k a w1 in (o, w2, t1 ++ t2)
    | (Return _ r, w1, t1) => (Return B r, w1, t1)
    | (Throw _ e, w1, t1) => (Throw B e, w1, t1)
    end.

(** [return res....] *)
Definition respond {A} (r : Response) : M A := fun w => (Return A r, w, []).

Definition throw {A} (e : string) : M A := fun w => (Throw A e, w, []).

Definition emit (e : Event) : M unit := fun w => (Next unit tt, w, [e]).

Definition get_world : M World := fun w => (Next World w, w, []).

Definition set_fs (f : gmap string Node) : M unit :=
  fun w => (Next unit tt, {| db := db w; fs := f |}, []).

Definition set_db (d : list FileRow) : M unit :=
  fun w => (Next unit tt, {| db := d; fs := fs w |}, []).

(** [if (c) return res....] *)
Definition reject_if (c : bool) (r : Response) : M unit :=
  if c then respond r else ret tt.

(** [try { body } catch (error) { console.error(...) }]: an inner block
    whose error is logged and dropped; [fallback] is what the variables the
    block assigns still hold then. *)
Definition try_catch {A} (body : M A) (fallback : A) : M A :=
  fun w =>
    match body w with
    | (Throw _ _, w1, t1) => (Next A fallback, w1, t1)
    | r => r
    end.

(** The [try { ... } catch (error) { res.status(500).json(...) }] around a
    whole handler. *)
Definition handle (label : string) (body : M Response)
  : World -> Response * World * list Event :=
  fun w =>
    match body w with
    | (Next _ r, w1, t1) => (r, w1, t1)
    | (Return _ r, w1, t1) => (r, w1, t1)
    | (Throw _ e, w1, t1) => (Json 500 label (Some e), w1, t1)
    end.

End World.

Arguments Next {host A} a.
Arguments Return {host A} r.
Arguments Throw {host A} message.

Notation "x <- m ;; k" := (bind m (fun x => k))
  (at level 62, m at next level, right associativity).
Notation "m ;;; k" := (bind m (fun _ => k))
  (at level 62, right associativity).

Section Primitives.
Context `{host : Host}.

(** *** [src/models/File.js] *)

(** [File.findById(id, userId)]: the user filter is applied only when
    [userId] is truthy. *)
Definition row_matches (id user : Z) (r : FileRow) : bool :=
  (row_id r =? id) && (negb (truthy (Num user)) || (row_user_id r =? user)).

Definition findById (id user : Z) : M (option FileRow) :=
  emit (EFindById id user) ;;;
  w <- get_world ;;
  ret (List.find (row_matches id user) (db w)).

(** [File.delete(id, userId)]: [None] is [resolve(false)], otherwise
    [{ success, file }]. *)
Definition row_owned (id user : Z) (r : FileRow) : bool :=
  (row_id r =? id) && (row_user_id r =? user).

Definition File_delete (id user : Z) : M (option (bool * FileRow)) :=
  emit (EDelete id user) ;;;
  w <- get_world ;;
  match List.find (row_owned id user) (db w) with
  | None => ret None
  | Some file =>
      let changes := length (List.filter (row_owned id user) (db w)) in
      set_db (List.filter (fun r => negb (row_owned id user r)) (db w)) ;;;
      ret (Some (Nat.ltb 0 changes, file))
  end.

(** [File.create(fileData)]: the row is appended and the callback is given
    [this.lastID], the id SQLite chose for it.  The column is declared
    [INTEGER PRIMARY KEY AUTOINCREMENT] ([src/database/init.js], line 61):
    the id is larger than every id the table holds or has ever held, so it
    is no function of the rows that are left.  It is the argument [lastID],
    and [fresh_id] is what the table guarantees of it against the rows it
    holds. *)
Definition File_create (mk : Z -> FileRow) (lastID : Z) : M Z :=
  w <- get_world ;;
  let r := mk lastID in
  emit (EInsert (row_filename r)) ;;;
  set_db (db w ++ [r]) ;;;
  ret (row_id r).

Definition fresh_id (id : Z) (rows : list FileRow) : bool :=
  forallb (fun r => row_id r <? id) rows.

(** *** [fs] *)

Definition existsSync (p : string) : M bool :=
  emit (EExists p) ;;;
  w <- get_world ;;
  ret (bool_decide (is_Some (fs w !! p))).

Definition mkdirSync (p : string) : M unit :=
  emit (EMkdir p) ;;;
  w <- get_world ;;
  set_fs (<[p := Dir]> (fs w)).

Definition unlinkSync (p : string) : M unit :=
  emit (EUnlink p) ;;;
  w <- get_world ;;
  match fs w !! p with
  | Some (File _) => set_fs (delete p (fs w))
  | Some Dir => throw "EISDIR: illegal operation on a directory, unlink"
  | None => throw "ENOENT: no such file or directory, unlink"
  end.

(** The content at [p] when it is a regular file. *)
Definition read (w : World) (p : string) : option Bytes :=
  match fs w !! p with
  | Some (File b) => Some b
  | _ => None
  end.

(** [res.sendFile(path.resolve(p))] *)
Definition sendFile (p : string) : M Response :=
  w <- get_world ;;
  ret (SendFile p (read w p)).

(** *** [sharp] *)

(** [await sharp(src).<pl>.toFile(dst)]: the call chain of a handler, from
    [sharp(src)] to [toFile(dst)], as one step.  The event says that the
    handler has started the chain [pl]; what comes of it is [sharp pl b] for
    the content [b] of the source, an error of any step of the chain (sharp
    checks the options of a step when the step is called, before anything
    is read or written) or the bytes that are written.  The disk is a flat
    map from paths to nodes, so that a write does not ask for the directory
    of [dst]; the handlers make the cache directory before they write. *)
Definition toFile (src : string) (pl : Pipeline) (dst : string) : M unit :=
  emit (EToFile src pl dst) ;;;
  w <- get_world ;;
  match read w src with
  | None => throw "Input file is missing"
  | Some b =>
      match sharp pl b with
      | inl e => throw e
      | inr out => set_fs (<[dst := File out]> (fs w))
      end
  end.

(** [await sharp(src).metadata()] *)
Definition metadata (src : string) : M Metadata :=
  emit (EMetadata src) ;;;
  w <- get_world ;;
  match read w src with
  | None => throw "Input file is missing"
  | Some b =>
      match sharp_metadata b with
      | inl e => throw e
      | inr m => ret m
      end
  end.

End Primitives.

(** ** [src/controllers/processController.js] *)

Section ProcessController.
Context `{host : Host}.

(** [const { quality = 80 } = req.query; parseInt(quality)] *)
Definition parseInt_default (v : option string) (default : Z) : num :=
  match v with
  | Some s => parseInt s
  | None => Num default
  end.

(** [width ? parseInt(width) : null] *)
Definition parseInt_or_null (v : option string) : option num :=
  match v with
  | Some s => if truthy_str v then Some (parseInt s) else None
  | None => None
  end.

(** [w && (w < lo || w > hi)] *)
Definition present_outside (w : option num) (lo hi : Z) : bool :=
  match w with
  | Some n => truthy n && (lt n lo || gt n hi)
  | None => false
  end.

(** [path.join(path.dirname(file.path), 'cache')] *)
Definition cacheDir_of (file : FileRow) : string :=
  path_join (path_dirname (row_path file)) "cache".

(** [path.join(cacheDir, cacheFilename)] for the name of the transform. *)
Definition cachePath_of (file : FileRow) (t : Transform) : string :=
  path_join (cacheDir_of file)
    (cacheFilename (path_parse_name (row_filename file)) t).

(** Lines 38-57, shared by the five handlers: the record of the caller,
    its type, the file on disk. *)
Definition resolve_image (req : Req) (only_images : string) : M FileRow :=
  file <- findById (req_id req) (req_user req) ;;
  match file with
  | None => respond (Json 404 "File not found" None)
  | Some file =>
      reject_if (negb (String.eqb (row_file_type file) "image"))
        (Json 400 "Invalid file type" (Some only_images)) ;;;
      on_disk <- existsSync (row_path file) ;;
      reject_if (negb on_disk) (Json 404 "Physical file not found" None) ;;;
      ret file
  end.

(** Lines 62-73 and 101-103 of [resizeImage], and the same lines of
    [convertImage], [generateThumbnail] and [cropImage]: create the cache
    directory, answer from the cache, or have the engine write the file
    and send it. *)
Definition ensure_cacheDir (cacheDir : string) : M unit :=
  there <- existsSync cacheDir ;;
  if there then ret tt else mkdirSync cacheDir.

Definition serve_or_generate (file : FileRow) (t : Transform) (pl : Pipeline)
  : M Response :=
  let cacheDir := cacheDir_of file in
  let cachePath := cachePath_of file t in
  ensure_cacheDir cacheDir ;;;
  cached <- existsSync cachePath ;;
  if cached then sendFile cachePath
  else
    toFile (row_path file) pl cachePath ;;;
    sendFile cachePath.

Definition resize_pipeline (w h : option num) (q : num) (format : option string)
  : Pipeline :=
  {| pl_geometry :=
       if truthy_opt w || truthy_opt h
       then GResize w h FitInside None true
       else GNone;
     pl_encoder :=
       match format with
       | Some "png" => EPng q
       | Some "webp" => EWebp q
       | _ => EJpeg q
       end |}.

Definition resizeImage (req : Req) : World -> Response * World * list Event :=
  handle "Image processing failed" (
    let width := q_width (req_query req) in
    let height := q_height (req_query req) in
    let format := q_format (req_query req) in
    reject_if (negb (truthy_str width) && negb (truthy_str height))
      (Json 400 "Missing parameters"
         (Some "At least width or height must be specified")) ;;;
    let w := parseInt_or_null width in
    let h := parseInt_or_null height in
    let q := parseInt_default (q_quality (req_query req)) 80 in
    reject_if (present_outside w 1 4096 || present_outside h 1 4096)
      (Json 400 "Invalid dimensions"
         (Some "Width and height must be between 1 and 4096 pixels")) ;;;
    reject_if (lt q 1 || gt q 100)
      (Json 400 "Invalid quality" (Some "Quality must be between 1 and 100")) ;;;
    file <- resolve_image req "Only image files can be resized" ;;
    serve_or_generate file (TResize w h q format) (resize_pipeline w h q format)).

Definition supportedFormats : list string :=
  ["jpeg"; "jpg"; "png"; "webp"; "gif"].

Definition convert_pipeline (q : num) (format : string) : Pipeline :=
  {| pl_geometry := GNone;
     pl_encoder :=
       match toLowerCase format with
       | "png" => EPng q
       | "webp" => EWebp q
       | "gif" => EGif
       | _ => EJpeg q
       end |}.

Definition convertImage (req : Req) : World -> Response * World * list Event :=
  handle "Image conversion failed" (
    match q_format (req_query req) with
    | None | Some "" =>
        respond (Json 400 "Missing format"
                   (Some "Target format must be specified"))
    | Some format =>
        reject_if (negb (existsb (String.eqb (toLowerCase format)) supportedFormats))
          (Json 400 "Unsupported format"
             (Some "Supported formats: jpeg, jpg, png, webp, gif")) ;;;
        let q := parseInt_default (q_quality (req_query req)) 80 in
        reject_if (lt q 1 || gt q 100)
          (Json 400 "Invalid quality"
             (Some "Quality must be between 1 and 100")) ;;;
        file <- resolve_image req "Only image files can be converted" ;;
        serve_or_generate file (TConvert q format) (convert_pipeline q format)
    end).

Definition thumbnail_pipeline (s q : num) : Pipeline :=
  {| pl_geometry := GResize (Some s) (Some s) FitCover (Some "center") false;
     pl_encoder := EJpeg q |}.

(** Line 256, left to right: the existence check runs only for a
    non-empty [thumbnail_path]. *)
Definition default_thumbnail (file : FileRow) (s : num) : M (option string) :=
  match row_thumbnail_path file with
  | None | Some "" => ret None
  | Some tp =>
      there <- existsSync tp ;;
      ret (if there && strict_eq s 300 then Some tp else None)
  end.

Definition generateThumbnail (req : Req) : World -> Response * World * list Event :=
  handle "Thumbnail generation failed" (
    let s := parseInt_default (q_size (req_query req)) 300 in
    let q := parseInt_default (q_quality (req_query req)) 80 in
    reject_if (lt s 50 || gt s 1000)
      (Json 400 "Invalid size"
         (Some "Thumbnail size must be between 50 and 1000 pixels")) ;;;
    reject_if (lt q 1 || gt q 100)
      (Json 400 "Invalid quality" (Some "Quality must be between 1 and 100")) ;;;
    file <- resolve_image req "Only image files can have thumbnails generated" ;;
    stored <- default_thumbnail file s ;;
    match stored with
    | Some tp => sendFile tp
    | None => serve_or_generate file (TThumbnail s q) (thumbnail_pipeline s q)
    end).

Definition getImageInfo (req : Req) : World -> Response * World * list Event :=
  handle "Unable to get image information" (
    file <- resolve_image req "Only image files have detailed information" ;;
    m <- metadata (row_path file) ;;
    ret (Info {| fi_id := row_id file;
                 fi_filename := row_filename file;
                 fi_originalName := row_original_name file;
                 fi_size := row_size file;
                 fi_mimeType := row_mime_type file |} m)).

Definition crop_pipeline (cropX cropY cropWidth cropHeight q : num) : Pipeline :=
  {| pl_geometry := GExtract cropX cropY cropWidth cropHeight;
     pl_encoder := EJpeg q |}.

(** [v] when it is a non-empty string: what [!v] lets through. *)
Definition present (v : option string) : option string :=
  if truthy_str v then v else None.

Definition cropImage (req : Req) : World -> Response * World * list Event :=
  handle "Image cropping failed" (
    match present (q_x (req_query req)), present (q_y (req_query req)),
          present (q_width (req_query req)), present (q_height (req_query req))
    with
    | Some x, Some y, Some width, Some height =>
        let cropX := parseInt x in
        let cropY := parseInt y in
        let cropWidth := parseInt width in
        let cropHeight := parseInt height in
        let q := parseInt_default (q_quality (req_query req)) 80 in
        reject_if (lt cropX 0 || lt cropY 0 || lt cropWidth 1 || lt cropHeight 1)
          (Json 400 "Invalid crop parameters"
             (Some "Crop parameters must be positive numbers")) ;;;
        reject_if (lt q 1 || gt q 100)
          (Json 400 "Invalid quality"
             (Some "Quality must be between 1 and 100")) ;;;
        file <- resolve_image req "Only image files can be cropped" ;;
        serve_or_generate file (TCrop cropX cropY cropWidth cropHeight q)
          (crop_pipeline cropX cropY cropWidth cropHeight q)
    | _, _, _, _ =>
        respond (Json 400 "Missing parameters"
                   (Some "x, y, width, and height must be specified for cropping"))
    end).

End ProcessController.

(** ** [FileController.deleteFile] and [UploadController.uploadImage] *)

Section FileController.
Context `{host : Host}.

(** [if (p && fs.existsSync(p)) fs.unlinkSync(p)] *)
Definition unlink_if_exists (p : option string) : M unit :=
  match present p with
  | None => ret tt
  | Some p =>
      there <- existsSync p ;;
      if there then unlinkSync p else ret tt
  end.

Definition deleteFile (req : Req) : World -> Response * World * list Event :=
  handle "Unable to delete file" (
    result <- File_delete (req_id req) (req_user req) ;;
    match result with
    | Some (true, file) =>
        try_catch
          (unlink_if_exists (Some (row_path file)) ;;;
           unlink_if_exists (row_thumbnail_path file)) tt ;;;
        ret (Message 200 "File deleted successfully")
    | _ => respond (Json 404 "File not found" None)
    end).

(** What multer hands to [uploadImage] as [req.file]. *)
Record Upload : Type := {
  up_path : string;
  up_filename : string;
  up_originalname : string;
  up_size : Z;
  up_mimetype : string;
  up_fileType : string
}.

(** [s] without the prefix [p], when it starts with it. *)
Fixpoint strip_prefix (p s : string) : option string :=
  match p, s with
  | EmptyString, _ => Some s
  | String a p', String b s' => if Ascii.eqb a b then strip_prefix p' s' else None
  | String _ _, EmptyString => None
  end.

(** [s.replace(pat, rep)] for a string pattern: the first occurrence only. *)
Fixpoint replace (pat rep s : string) : string :=
  match strip_prefix pat s with
  | Some r => rep +:+ r
  | None =>
      match s with
      | EmptyString => EmptyString
      | String c r => String c (replace pat rep r)
      end
  end.

(** The pipeline of the upload-time thumbnail (lines 115-121). *)
Definition upload_thumbnail_pipeline : Pipeline :=
  {| pl_geometry := GResize (Some (Num 300)) (Some (Num 300)) FitInside None true;
     pl_encoder := EJpeg (Num 80) |}.

(** Lines 101-127: the value left in [file.thumbnailPath]. *)
Definition upload_thumbnail (file : Upload) : M (option string) :=
  if String.eqb (up_fileType file) "image"
  then
    try_catch
      (metadata (up_path file) ;;;
       let thumbnailPath :=
         replace (path_extname (up_path file)) "_thumb.jpg" (up_path file) in
       toFile (up_path file) upload_thumbnail_pipeline thumbnailPath ;;;
       ret (Some thumbnailPath))
      None
  else ret None.

(** Lines 78-93 of [uploadImage], and the same lines of [uploadVideo]:
    with a [folder] in the body of the request, the folder of that path is
    looked up in the table [folders] and inserted there when the caller has
    none, and its id goes to the column [folder_id] of the new row.  The
    table and the column are outside [World] and [FileRow], so what the
    step comes to is given with the request: there was no [folder], the
    step yielded an id, or it threw (the insert is refused when another
    user has a folder of that path, the column [path] being [UNIQUE]). *)
Inductive FolderStep : Type :=
| NoFolder
| FolderId (id : Z)
| FolderError (message : string).

Definition folder_step (folder : FolderStep) : M (option Z) :=
  match folder with
  | NoFolder => ret None
  | FolderId id => ret (Some id)
  | FolderError e => throw e
  end.

(** [error.message || fallback] *)
Definition or_text (message fallback : string) : string :=
  if String.eqb message "" then fallback else message.

(** The [try] and the [catch] around [uploadImage] and [uploadVideo]: the
    [catch] removes the uploaded file and then answers 500.  [None] is a
    request that gets no answer: [unlinkSync] threw inside the [catch]. *)
Definition upload_catch (label fallback : string) (file : Upload)
  (body : M Response) : World -> option Response * World * list Event :=
  fun w =>
    match body w with
    | (Next r, w1, t1) | (Return r, w1, t1) => (Some r, w1, t1)
    | (Throw e, w1, t1) =>
        match unlink_if_exists (Some (up_path file)) w1 with
        | (Next _, w2, t2) =>
            (Some (Json 500 label (Some (or_text e fallback))), w2, t1 ++ t2)
        | (_, w2, t2) => (None, w2, t1 ++ t2)
        end
    end.

(** [uploadImage]; [file] is [req.file], [user] is [req.user.id].  Of the
    answer, the status and the message are kept. *)
Definition uploadImage (file : option Upload) (folder : FolderStep)
  (user lastID : Z) : World -> option Response * World * list Event :=
  match file with
  | None =>
      fun w => (Some (Json 400 "No file uploaded"
                        (Some "Please select a file to upload")), w, [])
  | Some file =>
      upload_catch "Upload failed" "Unable to upload file" file (
        folder_step folder ;;;
        thumbnailPath <- upload_thumbnail file ;;
        File_create (fun id =>
          {| row_id := id;
             row_user_id := user;
             row_filename := up_filename file;
             row_original_name := up_originalname file;
             row_path := up_path file;
             row_size := up_size file;
             row_mime_type := up_mimetype file;
             row_file_type := up_fileType file;
             row_thumbnail_path := present thumbnailPath |}) lastID ;;;
        ret (Message 201 "File uploaded successfully"))
  end.

End FileController.

(** ** The routes of [/process] and the service they form *)

Inductive Operation : Type :=
| Resize
| Convert
| Thumbnail
| Crop
| GetInfo.

Section Router.
Context `{host : Host}.

(** [router.get('/resize/:id', ProcessController.resizeImage)] and the four
    routes after it: the service [derive] of the specification. *)
Definition derive (op : Operation) (req : Req)
  : World -> Response * World * list Event :=
  match op with
  | Resize => resizeImage req
  | Convert => convertImage req
  | Thumbnail => generateThumbnail req
  | Crop => cropImage req
  | GetInfo => getImageInfo req
  end.

(** The routes that keep what they compute in the cache. *)
Definition caching (op : Operation) : bool :=
  match op with
  | GetInfo => false
  | _ => true
  end.

End Router.

(** ** The engine's geometry

    What [sharp] documents for the calls the handlers make: [resize] with
    [fit: 'inside'] scales the image down to the largest size within the box,
    [withoutEnlargement] leaves it alone when it is already within it,
    [fit: 'cover'] scales until the box is covered and cuts the overflow,
    [extract] cuts a region that must lie within the image.  A dimension
    that is given must be a positive integer. *)

(** [a / b] rounded to the nearest integer, for [0 <= a] and [0 < b]. *)
Definition round_div (a b : Z) : Z := (2 * a + b) / (2 * b).

(** [x] scaled by [to / from], at least one pixel. *)
Definition scaled (x from to : Z) : Z := Z.max 1 (round_div (x * to) from).

Definition dim_ok (d : option num) : bool :=
  match d with
  | None => true
  | Some (Num z) => 0 <? z
  | Some NaN => false
  end.

Definition dim_val (d : option num) : option Z :=
  match d with
  | Some (Num z) => Some z
  | _ => None
  end.

(** Scale so that the width becomes [w], unless that would enlarge. *)
Definition fit_width (withoutEnlargement : bool) (W H w : Z) : Z * Z :=
  if withoutEnlargement && (W <=? w) then (W, H) else (w, scaled H W w).

Definition fit_height (withoutEnlargement : bool) (W H h : Z) : Z * Z :=
  if withoutEnlargement && (H <=? h) then (W, H) else (scaled W H h, h).

Definition resize_size (fit : Fit) (withoutEnlargement : bool) (W H : Z)
  (w h : option Z) : Z * Z :=
  match w, h with
  | Some w, Some h =>
      match fit with
      | FitInside =>
          (* the larger of the two shrink factors W/w and H/h *)
          if H * w <? W * h
          then fit_width withoutEnlargement W H w
          else fit_height withoutEnlargement W H h
      | FitCover =>
          (* the smaller of the two, then the overflow is cut *)
          let '(rw, rh) :=
            if W * h <? H * w
            then fit_width withoutEnlargement W H w
            else fit_height withoutEnlargement W H h in
          (Z.min rw w, Z.min rh h)
      end
  | Some w, None => fit_width withoutEnlargement W H w
  | None, Some h => fit_height withoutEnlargement W H h
  | None, None => (W, H)
  end.

(** Whether the engine accepts the step on a [W] x [H] image. *)
Definition geometry_ok (g : Geometry) (W H : Z) : bool :=
  match g with
  | GNone => true
  | GResize w h _ _ _ => dim_ok w && dim_ok h
  | GExtract (Num l) (Num t) (Num w) (Num h) =>
      (0 <=? l) && (0 <=? t) && (0 <? w) && (0 <? h)
      && (l + w <=? W) && (t + h <=? H)
  | GExtract _ _ _ _ => false
  end.

(** The size of what the step yields from a [W] x [H] image. *)
Definition geometry_size (g : Geometry) (W H : Z) : Z * Z :=
  match g with
  | GNone => (W, H)
  | GResize w h fit _ withoutEnlargement =>
      resize_size fit withoutEnlargement W H (dim_val w) (dim_val h)
  | GExtract _ _ (Num w) (Num h) => (w, h)
  | GExtract _ _ _ _ => (W, H)
  end.

Section EngineContract.
Context `{host : Host}.

(** The decoded size of an image, as [metadata()] reports it. *)
Definition image_size (b : Bytes) : option (Z * Z) :=
  match sharp_metadata b with
  | inr m => Some (md_width m, md_height m)
  | inl _ => None
  end.

(** The engine writes a file only for an image it can decode and a step it
    accepts, and what it writes has the size of the step. *)
Definition sharp_geometry : Prop :=
  forall pl src out,
    sharp pl src = inr out ->
    exists W H,
      image_size src = Some (W, H) /\ 1 <= W /\ 1 <= H /\
      geometry_ok (pl_geometry pl) W H = true /\
      image_size out = Some (geometry_size (pl_geometry pl) W H).

End EngineContract.

(** ** A host to run the handlers on

    Pictures are described by their size, their format, the upload they
    come from and the call chains applied since; paths are POSIX strings. *)

Module Ref.

Record Picture : Type := {
  pic_width : Z;
  pic_height : Z;
  pic_format : string;
  pic_origin : Z;
  pic_steps : list Pipeline
}.

Definition encoder_ok (e : Encoder) : bool :=
  match e with
  | EJpeg (Num q) | EWebp (Num q) => (1 <=? q) && (q <=? 100)
  | EPng (Num q) => (0 <=? q) && (q <=? 100)
  | EGif => true
  | _ => false
  end.

Definition encoder_format (e : Encoder) : string :=
  match e with
  | EJpeg _ => "jpeg"
  | EPng _ => "png"
  | EWebp _ => "webp"
  | EGif => "gif"
  end.

Definition decodable (p : Picture) : bool :=
  (1 <=? pic_width p) && (1 <=? pic_height p).

Definition engine (pl : Pipeline) (p : Picture) : string + Picture :=
  if negb (decodable p) then inl "Input file contains unsupported image format"
  else if negb (geometry_ok (pl_geometry pl) (pic_width p) (pic_height p))
  then inl "Invalid geometry"
  else if negb (encoder_ok (pl_encoder pl)) then inl "Invalid quality"
  else
    let '(w, h) := geometry_size (pl_geometry pl) (pic_width p) (pic_height p) in
    inr {| pic_width := w;
           pic_height := h;
           pic_format := encoder_format (pl_encoder pl);
           pic_origin := pic_origin p;
           pic_steps := pic_steps p ++ [pl] |}.

Definition engine_metadata (p : Picture) : string + Metadata :=
  if decodable p
  then inr {| md_width := pic_width p;
              md_height := pic_height p;
              md_format := pic_format p;
              md_space := "srgb";
              md_channels := 3;
              md_depth := "uchar";
              md_density := None;
              md_hasProfile := false;
              md_hasAlpha := false;
              md_orientation := None |}
  else inl "Input file contains unsupported image format".

(** [s] cut at the last occurrence of [c]. *)
Fixpoint split_last (c : ascii) (s : string) : option (string * string) :=
  match s with
  | EmptyString => None
  | String a r =>
      match split_last c r with
      | Some (x, y) => Some (String a x, y)
      | None => if Ascii.eqb a c then Some (EmptyString, r) else None
      end
  end.

Definition dirname (p : string) : string :=
  match split_last "/" p with
  | Some (d, _) => d
  | None => "."
  end.

Definition basename (p : string) : string :=
  match split_last "/" p with
  | Some (_, b) => b
  | None => p
  end.

Definition extname (p : string) : string :=
  match split_last "." (basename p) with
  | Some (EmptyString, _) | None => EmptyString
  | Some (_, e) => "." +:+ e
  end.

Definition parse_name (p : string) : string :=
  match split_last "." (basename p) with
  | Some (EmptyString, _) | None => basename p
  | Some (n, _) => n
  end.

(** [path.normalize] of POSIX paths: the segments between the separators
    are read from left to right; an empty segment and [.] are dropped, [..]
    takes away the segment before it (and stays when there is none to take
    and the path is relative).  [acc] holds the segments kept so far, the
    last one first. *)
Fixpoint segments (p : string) : list string :=
  match p with
  | EmptyString => [EmptyString]
  | String c r =>
      if Ascii.eqb c "/" then EmptyString :: segments r
      else match segments r with
           | seg :: rest => String c seg :: rest
           | [] => [String c EmptyString]
           end
  end.

Fixpoint resolve_segments (allowAboveRoot : bool) (segs acc : list string)
  : list string :=
  match segs with
  | [] => rev acc
  | seg :: rest =>
      if String.eqb seg "" || String.eqb seg "."
      then resolve_segments allowAboveRoot rest acc
      else if String.eqb seg ".."
      then match acc with
           | last :: before =>
               if String.eqb last ".."
               then resolve_segments allowAboveRoot rest (seg :: acc)
               else resolve_segments allowAboveRoot rest before
           | [] =>
               resolve_segments allowAboveRoot rest
                 (if allowAboveRoot then [seg] else [])
           end
      else resolve_segments allowAboveRoot rest (seg :: acc)
  end.

Fixpoint last_char (s : string) : option ascii :=
  match s with
  | EmptyString => None
  | String c EmptyString => Some c
  | String _ r => last_char r
  end.

Definition is_slash (c : option ascii) : bool :=
  match c with
  | Some c => Ascii.eqb c "/"
  | None => false
  end.

Definition normalize (p : string) : string :=
  match p with
  | EmptyString => "."
  | String c _ =>
      let isAbsolute := Ascii.eqb c "/" in
      let trailingSeparator := is_slash (last_char p) in
      let kept := resolve_segments (negb isAbsolute) (segments p) [] in
      match kept with
      | [] => if isAbsolute then "/" else if trailingSeparator then "./" else "."
      | _ =>
          (if isAbsolute then "/" else "") +:+ String.concat "/" kept
            +:+ (if trailingSeparator then "/" else "")
      end
  end.

(** [path.join(a, b)]: the arguments that are not empty, joined by [/] and
    normalized. *)
Definition join (a b : string) : string :=
  match a, b with
  | EmptyString, EmptyString => "."
  | EmptyString, _ => normalize b
  | _, EmptyString => normalize a
  | _, _ => normalize (a +:+ "/" +:+ b)
  end.

#[export] Instance host : Host := {|
  Bytes := Picture;
  path_parse_name := parse_name;
  path_dirname := dirname;
  path_extname := extname;
  path_join := join;
  sharp := engine;
  sharp_metadata := engine_metadata
|}.

End Ref.

(** ** Sample worlds

    One user, one uploaded picture of 1000 x 500 pixels, and a video. *)

Module Sample.
Import Ref.

Definition photo : Picture :=
  {| pic_width := 1000; pic_height := 500; pic_format := "png";
     pic_origin := 1; pic_steps := [] |}.

Definition photo_upload : Upload :=
  {| up_path := "uploads/1/pic.png";
     up_filename := "pic.png";
     up_originalname := "holiday.png";
     up_size := 48213;
     up_mimetype := "image/png";
     up_fileType := "image" |}.

(** The disk once multer has stored the picture. *)
Definition stored : World :=
  {| db := []; fs := {[ "uploads/1/pic.png" := File photo ]} |}.

(** The world after [uploadImage]: the row and the default thumbnail. *)
Definition uploaded : World :=
  snd (fst (uploadImage (Some photo_upload) NoFolder 1 1 stored)).


Definition clip_row : FileRow :=
  {| row_id := 2;
     row_user_id := 1;
     row_filename := "clip.mp4";
     row_original_name := "clip.mp4";
     row_path := "uploads/1/clip.mp4";
     row_size := 905113;
     row_mime_type := "video/mp4";
     row_file_type := "video";
     row_thumbnail_path := None |}.

Definition with_clip : World :=
  {| db := db uploaded ++ [clip_row]; fs := fs uploaded |}.

Definition no_query : Query :=
  {| q_width := None; q_height := None; q_quality := None; q_format := None;
     q_size := None; q_x := None; q_y := None |}.

Definition width_height (width height : option string) : Query :=
  {| q_width := width; q_height := height; q_quality := None; q_format := None;
     q_size := None; q_x := None; q_y := None |}.

Definition size_quality (size quality : option string) : Query :=
  {| q_width := None; q_height := None; q_quality := quality; q_format := None;
     q_size := size; q_x := None; q_y := None |}.

Definition region (x y width height : string) : Query :=
  {| q_width := Some width; q_height := Some height; q_quality := None;
     q_format := None; q_size := None; q_x := Some x; q_y := Some y |}.

(** A request of user 1. *)
Definition get (id : Z) (query : Query) : Req :=
  {| req_id := id; req_user := 1; req_query := query |}.

(** The world after the picture was asked for with a width of 100. *)
Definition resized : World :=
  snd (fst (resizeImage (get 1 (width_height (Some "100") None)) uploaded)).

(** And after the picture was deleted then. *)
Definition deleted : World := snd (fst (deleteFile (get 1 no_query) resized)).






End Sample.

(** ** Notions the properties are stated with *)

Section Notions.
Context `{host : Host}.

(** The three characters that separate the fields of a cache file name,
    and the strings without them; the characters of a number in decimal. *)
Definition separator (c : ascii) : bool :=
  Ascii.eqb c "x" || Ascii.eqb c "_" || Ascii.eqb c ".".

Fixpoint plain (s : string) : bool :=
  match s with
  | EmptyString => true
  | String c r => negb (separator c) && plain r
  end.

Definition numeral_char (c : ascii) : bool :=
  let n := N_of_ascii c in
  ((48 <=? n) && (n <=? 57))%N || Ascii.eqb c "-".

Fixpoint numeral (s : string) : bool :=
  match s with
  | EmptyString => true
  | String c r => numeral_char c && numeral r
  end.

(** The world once the cache directory is there, and the events of
    [ensure_cacheDir]. *)
Definition with_cacheDir (dir : string) (w : World) : World :=
  if bool_decide (is_Some (fs w !! dir)) then w
  else {| db := db w; fs := <[dir := Dir]> (fs w) |}.

Definition cacheDir_events (dir : string) (w : World) : list Event :=
  EExists dir :: (if bool_decide (is_Some (fs w !! dir)) then [] else [EMkdir dir]).

(** The four caching handlers in two halves.  First what a handler decides
    from the query alone, before it looks anything up: the answer that
    rejects the query, or the transform and the call chain for the engine. *)
Definition resize_plan (query : Query) : Response + Transform * Pipeline :=
  let width := q_width query in
  let height := q_height query in
  let w := parseInt_or_null width in
  let h := parseInt_or_null height in
  let q := parseInt_default (q_quality query) 80 in
  if negb (truthy_str width) && negb (truthy_str height)
  then inl (Json 400 "Missing parameters"
              (Some "At least width or height must be specified"))
  else if present_outside w 1 4096 || present_outside h 1 4096
  then inl (Json 400 "Invalid dimensions"
              (Some "Width and height must be between 1 and 4096 pixels"))
  else if lt q 1 || gt q 100
  then inl (Json 400 "Invalid quality" (Some "Quality must be between 1 and 100"))
  else inr (TResize w h q (q_format query),
            resize_pipeline w h q (q_format query)).

Definition convert_plan (query : Query) : Response + Transform * Pipeline :=
  let q := parseInt_default (q_quality query) 80 in
  match present (q_format query) with
  | None => inl (Json 400 "Missing format" (Some "Target format must be specified"))
  | Some format =>
      if negb (existsb (String.eqb (toLowerCase format)) supportedFormats)
      then inl (Json 400 "Unsupported format"
                  (Some "Supported formats: jpeg, jpg, png, webp, gif"))
      else if lt q 1 || gt q 100
      then inl (Json 400 "Invalid quality"
                  (Some "Quality must be between 1 and 100"))
      else inr (TConvert q format, convert_pipeline q format)
  end.

Definition thumbnail_plan (query : Query) : Response + Transform * Pipeline :=
  let s := parseInt_default (q_size query) 300 in
  let q := parseInt_default (q_quality query) 80 in
  if lt s 50 || gt s 1000
  then inl (Json 400 "Invalid size"
              (Some "Thumbnail size must be between 50 and 1000 pixels"))
  else if lt q 1 || gt q 100
  then inl (Json 400 "Invalid quality" (Some "Quality must be between 1 and 100"))
  else inr (TThumbnail s q, thumbnail_pipeline s q).

Definition crop_plan (query : Query) : Response + Transform * Pipeline :=
  match present (q_x query), present (q_y query),
        present (q_width query), present (q_height query) with
  | Some x, Some y, Some width, Some height =>
      let q := parseInt_default (q_quality query) 80 in
      if lt (parseInt x) 0 || lt (parseInt y) 0
         || lt (parseInt width) 1 || lt (parseInt height) 1
      then inl (Json 400 "Invalid crop parameters"
                  (Some "Crop parameters must be positive numbers"))
      else if lt q 1 || gt q 100
      then inl (Json 400 "Invalid quality"
                  (Some "Quality must be between 1 and 100"))
      else inr (TCrop (parseInt x) (parseInt y) (parseInt width) (parseInt height) q,
                crop_pipeline (parseInt x) (parseInt y) (parseInt width)
                  (parseInt height) q)
  | _, _, _, _ =>
      inl (Json 400 "Missing parameters"
             (Some "x, y, width, and height must be specified for cropping"))
  end.

(** The plan of a caching route.  [getImageInfo] reads no parameter and
    keeps nothing; it is listed with [Crop] only for [plan] to be total, and
    every use of [plan] is for a route with [caching op = true]. *)
Definition plan (op : Operation) (query : Query)
  : Response + Transform * Pipeline :=
  match op with
  | Resize => resize_plan query
  | Convert => convert_plan query
  | Thumbnail => thumbnail_plan query
  | Crop | GetInfo => crop_plan query
  end.

(** Whether the handler lets the query through to the lookup of the
    record: [getImageInfo] reads no parameter. *)
Definition accepts (op : Operation) (query : Query) : bool :=
  match op with
  | GetInfo => true
  | _ => match plan op query with
         | inr _ => true
         | inl _ => false
         end
  end.

(** The text of the [catch] of a handler and of its file-type answer. *)
Definition label (op : Operation) : string :=
  match op with
  | Resize => "Image processing failed"
  | Convert => "Image conversion failed"
  | Thumbnail => "Thumbnail generation failed"
  | Crop => "Image cropping failed"
  | GetInfo => "Unable to get image information"
  end.

Definition only (op : Operation) : string :=
  match op with
  | Resize => "Only image files can be resized"
  | Convert => "Only image files can be converted"
  | Thumbnail => "Only image files can have thumbnails generated"
  | Crop => "Only image files can be cropped"
  | GetInfo => "Only image files have detailed information"
  end.

(** The query with another [quality], and with another [size]. *)
Definition with_quality (query : Query) (quality : option string) : Query :=
  {| q_width := q_width query; q_height := q_height query;
     q_quality := quality; q_format := q_format query;
     q_size := q_size query; q_x := q_x query; q_y := q_y query |}.

Definition with_size (query : Query) (size : option string) : Query :=
  {| q_width := q_width query; q_height := q_height query;
     q_quality := q_quality query; q_format := q_format query;
     q_size := size; q_x := q_x query; q_y := q_y query |}.

(** Whether the request is a conversion to gif, the one call chain whose
    encoder takes no quality. *)
Definition to_gif (op : Operation) (query : Query) : bool :=
  match op, q_format query with
  | Convert, Some format => String.eqb (toLowerCase format) "gif"
  | _, _ => false
  end.

(** Whether [generateThumbnail] answers with the thumbnail stored at upload
    (line 256): the record names one, the file is on the disk, and the size
    asked for is 300. *)
Definition serves_stored (op : Operation) (t : Transform) (file : FileRow)
  (w : World) : bool :=
  match op, t with
  | Thumbnail, TThumbnail s _ =>
      match present (row_thumbnail_path file) with
      | Some tp => bool_decide (is_Some (fs w !! tp)) && strict_eq s 300
      | None => false
      end
  | _, _ => false
  end.


(** What a caching handler does with the record once the query is accepted:
    [generateThumbnail] first looks at the stored thumbnail. *)
Definition answer (op : Operation) (t : Transform) (pl : Pipeline)
  (file : FileRow) : M Response :=
  match op, t with
  | Thumbnail, TThumbnail s _ =>
      stored <- default_thumbnail file s ;;
      match stored with
      | Some tp => sendFile tp
      | None => serve_or_generate file t pl
      end
  | _, _ => serve_or_generate file t pl
  end.

(** The end of a handler: the answer of the body, or the 500 of the
    [catch]. *)
Definition finish (lbl : string) (before : list Event)
  (run : Outcome Response * World * list Event) : Response * World * list Event :=
  let '(o, w, t) := run in
  (match o with
   | Next r | Return r => r
   | Throw e => Json 500 lbl (Some e)
   end, w, before ++ t).

(** The events [before], then a run. *)
Definition after {A} (before : list Event)
  (run : Outcome A * World * list Event) : Outcome A * World * list Event :=
  let '(o, w, t) := run in (o, w, before ++ t).

(** The size [W] x [H] of the source and the size [ow] x [oh] of the result
    have the same ratio, up to one pixel of rounding. *)
Definition same_ratio (W H ow oh : Z) : Prop :=
  Z.abs (oh * W - ow * H) <= Z.max W H.

(** The number of engine calls of a file that was sent: none if the file was
    on the disk before, one if it was not. *)
Definition calls_for (w : World) (p : string) : nat :=
  match read w p with
  | Some _ => 0
  | None => 1
  end.

(** The disk [f'] is the disk [f] with some of the paths [ps] removed. *)
Definition removed_among (ps : list string) (f f' : gmap string Node) : Prop :=
  forall q, (~ In q ps -> f' !! q = f !! q) /\
            (forall n, f' !! q = Some n -> f !! q = Some n).

(** The events of one [if (p && fs.existsSync(p)) fs.unlinkSync(p)]. *)
Definition unlink_events (ps : list string) (t : list Event) : Prop :=
  forall e, In e t -> exists q, In q ps /\ (e = EExists q \/ e = EUnlink q).

End Notions.

(** * More of the code

    The rest of the upload controller, and the two functions that turn a
    name into a folder path. *)

(** ** [UploadController.uploadVideo] and [uploadMultiple] *)

Section UploadController.
Context `{host : Host}.

(** [uploadVideo]: the file is stored as it came, with no thumbnail.  Of
    the answer, the status and the message are kept. *)
Definition uploadVideo (file : option Upload) (folder : FolderStep)
  (user lastID : Z) : World -> option Response * World * list Event :=
  match file with
  | None =>
      fun w => (Some (Json 400 "No file uploaded"
                        (Some "Please select a video file to upload")), w, [])
  | Some file =>
      upload_catch "Video upload failed" "Unable to upload video" file (
        folder_step folder ;;;
        File_create (fun id =>
          {| row_id := id;
             row_user_id := user;
             row_filename := up_filename file;
             row_original_name := up_originalname file;
             row_path := up_path file;
             row_size := up_size file;
             row_mime_type := up_mimetype file;
             row_file_type := up_fileType file;
             row_thumbnail_path := None |}) lastID ;;;
        ret (Message 201 "Video uploaded successfully"))
  end.

(** [await this.processImage(req, file)] and [await this.processVideo(req,
    file)] (lines 301-307).  The two methods have an empty body (lines
    344-354).  [this] is the class when the handler is called as its
    method; the router hands the handler over as a plain function
    ([router.post('/multiple', uploadMultiple, UploadController.uploadMultiple)]),
    so that [this] is [undefined] there and reading a property of it throws
    a [TypeError].  [this] below says which of the two calls it is. *)
Definition process_file (this : bool) (file : Upload) : M unit :=
  if this then ret tt
  else throw "Cannot read properties of undefined".

(** The loop of [uploadMultiple] (lines 296-327); [results] is the length
    of the array of that name.  The clean-up is in the [catch] of the inner
    [try], what it throws goes to the outer one. *)
Fixpoint upload_each (this : bool) (files : list Upload) (results : nat) : M nat :=
  match files with
  | [] => ret results
  | file :: rest =>
      processed <- try_catch (process_file this file ;;; ret true) false ;;
      if processed then upload_each this rest (S results)
      else unlink_if_exists (Some (up_path file)) ;;; upload_each this rest results
  end.

(** [uploadMultiple]; [files] is [req.files].  Of the answer, the status
    and the message are kept. *)
Definition uploadMultiple (this : bool) (files : option (list Upload))
  : World -> Response * World * list Event :=
  handle "Multiple upload failed" (
    match files with
    | None | Some [] =>
        respond (Json 400 "No files uploaded" (Some "Please select files to upload"))
    | Some files =>
        results <- upload_each this files 0 ;;
        ret (Message (if Nat.ltb 0 results then 201 else 400)
               (toString (Num (Z.of_nat results)) +:+ " files uploaded successfully"))
    end).

End UploadController.

(** ** [Folder.generatePath] and [sanitizeFolderName]

    Characters are code points below 256.  [toLowerCase] above is exact on
    the ASCII letters; the other letters below 256 are dropped by the step
    that follows it in [generatePath], lowered or not, and
    [sanitizeFolderName] drops them before it lowers. *)

(** What [\s] matches and [trim] strips. *)
Definition is_space (c : ascii) : bool :=
  let n := N_of_ascii c in
  ((9 <=? n) && (n <=? 13))%N || (n =? 32)%N || (n =? 160)%N.

Definition is_lower (c : ascii) : bool :=
  let n := N_of_ascii c in ((97 <=? n) && (n <=? 122))%N.

Definition is_upper (c : ascii) : bool :=
  let n := N_of_ascii c in ((65 <=? n) && (n <=? 90))%N.

Definition is_digit (c : ascii) : bool :=
  let n := N_of_ascii c in ((48 <=? n) && (n <=? 57))%N.

Definition is_dash (c : ascii) : bool := Ascii.eqb c "-".

(** [s.replace(/[...]/g, '')] for a class of characters: every match goes. *)
Fixpoint remove_all (class : ascii -> bool) (s : string) : string :=
  match s with
  | EmptyString => EmptyString
  | String c r =>
      if class c then remove_all class r else String c (remove_all class r)
  end.

(** [s.replace(/[...]+/g, c)]: every maximal run of the class becomes one
    [c].  [in_run] says that the character before was of the class, so that
    its [c] is already written. *)
Fixpoint squeeze_from (in_run : bool) (class : ascii -> bool) (c : ascii)
  (s : string) : string :=
  match s with
  | EmptyString => EmptyString
  | String a r =>
      if class a
      then if in_run then squeeze_from true class c r
           else String c (squeeze_from true class c r)
      else String a (squeeze_from false class c r)
  end.

Definition squeeze (class : ascii -> bool) (c : ascii) (s : string) : string :=
  squeeze_from false class c s.

(** [s.trim()] *)
Fixpoint trimStart (s : string) : string :=
  match s with
  | String a r => if is_space a then trimStart r else s
  | EmptyString => EmptyString
  end.

Fixpoint trimEnd (s : string) : string :=
  match s with
  | EmptyString => EmptyString
  | String a r =>
      match trimEnd r with
      | EmptyString => if is_space a then EmptyString else String a EmptyString
      | r' => String a r'
      end
  end.

Definition trim (s : string) : string := trimEnd (trimStart s).

(** [Folder.generatePath(name)] up to its last step:
    [name.toLowerCase().replace(/[^a-z0-9\s-]/g, '').replace(/\s+/g, '-')
     .replace(/-+/g, '-')]. *)
Definition path_kept (c : ascii) : bool :=
  is_lower c || is_digit c || is_space c || is_dash c.

Definition dashed (name : string) : string :=
  squeeze is_dash "-"
    (squeeze is_space "-"
       (remove_all (fun c => negb (path_kept c)) (toLowerCase name))).

(** The last step is [.trim('-')]: [String.prototype.trim] takes no
    argument, the ['-'] is ignored and white space is stripped. *)
Definition generatePath (name : string) : string := trim (dashed name).

(** [sanitizeFolderName(folderName)]:
    [folderName.replace(/[^a-zA-Z0-9\s-_]/g, '').replace(/\s+/g, '_')
     .toLowerCase()].  In the class, [\s-_] is no range: it is [\s], ['-']
    and ['_']. *)
Definition folder_kept (c : ascii) : bool :=
  is_lower c || is_upper c || is_digit c || is_space c || is_dash c
  || Ascii.eqb c "_".

Definition sanitizeFolderName (folderName : string) : string :=
  toLowerCase
    (squeeze is_space "_" (remove_all (fun c => negb (folder_kept c)) folderName)).

(** Every character of [s] is of the class; no two neighbours are. *)
Fixpoint all_chars (class : ascii -> bool) (s : string) : bool :=
  match s with
  | EmptyString => true
  | String c r => class c && all_chars class r
  end.

Definition starts_with (class : ascii -> bool) (s : string) : bool :=
  match s with
  | String c _ => class c
  | EmptyString => false
  end.

Fixpoint no_run (class : ascii -> bool) (s : string) : bool :=
  match s with
  | EmptyString => true
  | String c r => negb (class c && starts_with class r) && no_run class r
  end.

(** The characters of a folder path, and those of a folder name. *)
Definition slug_char (c : ascii) : bool := is_lower c || is_digit c || is_dash c.

Definition folder_char (c : ascii) : bool :=
  is_lower c || is_digit c || is_dash c || Ascii.eqb c "_".

(** ** More notions for the properties *)

Section MoreNotions.
Context `{host : Host}.

(** The disk [f'] is the disk [f] with paths added, each one by an event
    of the trace [t]: a directory by [mkdirSync], a file by [toFile]. *)
Definition grown_by (t : list Event) (f f' : gmap string Node) : Prop :=
  forall p,
    f' !! p = f !! p \/
    (f !! p = None /\
     ((f' !! p = Some Dir /\ In (EMkdir p) t) \/
      (exists src pl out, f' !! p = Some (File out) /\ In (EToFile src pl p) t))).

(** A dimension of a resize request that the handler turns down: it is
    given, it reads as a number that is not [0], and the number is outside
    [1, 4096]. *)
Definition outside_box (v : option string) : Prop :=
  exists s n, v = Some s /\ parseInt s = Num n /\ n <> 0 /\ (n < 1 \/ 4096 < n).

(** [n] is not a number below [k]: it is [NaN] or at least [k]. *)
Definition not_below (k : Z) (n : num) : Prop :=
  match n with
  | NaN => True
  | Num z => k <= z
  end.

(** The query with another [format]. *)
Definition with_format (query : Query) (format : string) : Query :=
  {| q_width := q_width query; q_height := q_height query;
     q_quality := q_quality query; q_format := Some format;
     q_size := q_size query; q_x := q_x query; q_y := q_y query |}.

(** The row [uploadImage] inserts for an upload: the fields multer filled
    in, the id the table hands back and the thumbnail it ends up with. *)
Definition recorded (file : Upload) (user id : Z) (thumbnail : option string)
  : FileRow :=
  {| row_id := id;
     row_user_id := user;
     row_filename := up_filename file;
     row_original_name := up_originalname file;
     row_path := up_path file;
     row_size := up_size file;
     row_mime_type := up_mimetype file;
     row_file_type := up_fileType file;
     row_thumbnail_path := thumbnail |}.

(** Whether the folder step of an upload throws. *)
Definition folder_fails (folder : FolderStep) : bool :=
  match folder with
  | FolderError _ => true
  | _ => false
  end.

(** [file.path.replace(path.extname(file.path), '_thumb.jpg')] *)
Definition thumbnailPath_of (file : Upload) : string :=
  replace (path_extname (up_path file)) "_thumb.jpg" (up_path file).

End MoreNotions.

(** * Properties *)

(** Membership in the trace of a run on a sample world, by running it. *)
Ltac in_trace :=
  match goal with
  | |- In _ ?l => let v := eval vm_compute in l in change l with v
  end;
  cbn [In]; tauto.

(** ** The values of the handlers *)

Example parseInt_plain : parseInt "4096" = Num 4096.
Proof. reflexivity. Qed.

Example parseInt_prefix : parseInt " 12px" = Num 12.
Proof. reflexivity. Qed.

Example parseInt_negative : parseInt "-7" = Num (-7).
Proof. reflexivity. Qed.

Example parseInt_hex : parseInt "0x10" = Num 16.
Proof. reflexivity. Qed.

Example parseInt_word : parseInt "abc" = NaN.
Proof. reflexivity. Qed.

Example parseInt_empty : parseInt "" = NaN.
Proof. reflexivity. Qed.

(** The no-break space U+00A0 is white space to [parseInt]. *)
Example parseInt_no_break_space :
  parseInt (String (ascii_of_nat 160) "500") = Num 500.
Proof. reflexivity. Qed.

Example toString_number : toString (Num 300) = "300".
Proof. reflexivity. Qed.

Example toLowerCase_png : toLowerCase "PnG" = "png".
Proof. reflexivity. Qed.

(** Nothing compares with [NaN]. *)
Lemma NaN_in_range (lo hi : Z) : lt NaN lo || gt NaN hi = false.
Proof. reflexivity. Qed.

Lemma out_of_range_spec (n : num) (lo hi : Z) :
  lt n lo || gt n hi = true <-> exists z, n = Num z /\ (z < lo \/ hi < z).
Proof.
  destruct n as [|z]; cbn.
  - split; [discriminate | intros (z & [=] & _)].
  - rewrite orb_true_iff, !Z.ltb_lt. split.
    + intros H. exists z. tauto.
    + intros (z' & [= <-] & H). exact H.
Qed.

(** ** Reading a cache file name back *)

Module Naming.

Lemma numeral_plain s : numeral s = true -> plain s = true.
Proof.
  induction s as [|c r IH]; cbn; [reflexivity|].
  rewrite !andb_true_iff. intros [Hc Hr]. split; [|auto].
  destruct c as [[] [] [] [] [] [] [] []]; vm_compute in Hc |- *; congruence.
Qed.

Lemma numeral_uint d : numeral (NilEmpty.string_of_uint d) = true.
Proof. induction d; cbn; auto. Qed.

Lemma numeral_uint_zero d : numeral (NilZero.string_of_uint d) = true.
Proof. destruct d; [reflexivity | exact (numeral_uint _) ..]. Qed.

Lemma numeral_int d : numeral (NilZero.string_of_int d) = true.
Proof.
  destruct d as [d|d]; [apply numeral_uint_zero|].
  change (numeral (NilZero.string_of_uint d) = true). apply numeral_uint_zero.
Qed.

(** A number is written with digits and a sign only, and never as the
    empty string. *)
Lemma toString_numeral z : numeral (toString (Num z)) = true.
Proof. apply numeral_int. Qed.

Lemma toString_nonempty z : toString (Num z) <> EmptyString.
Proof.
  cbn. destruct (Z.to_int z) as [d|d]; cbn; [|discriminate].
  destruct d; cbn; discriminate.
Qed.

Lemma toString_plain n : plain (toString n) = true.
Proof.
  destruct n; [reflexivity|]. apply numeral_plain, toString_numeral.
Qed.

Lemma or_auto_plain w : plain (or_auto w) = true.
Proof.
  destruct w as [n|]; cbn; [|reflexivity].
  destruct (truthy n); [apply toString_plain | reflexivity].
Qed.

Lemma to_int_proper z : Z.to_int z <> Decimal.Pos Decimal.Nil /\
                        Z.to_int z <> Decimal.Neg Decimal.Nil.
Proof.
  destruct z as [|p|p]; cbn; split; try discriminate;
    intros [= H]; exact (Unsigned.to_uint_nonnil p H).
Qed.

Lemma toString_Num_inj a b : toString (Num a) = toString (Num b) -> a = b.
Proof.
  cbn. intros H. apply DecimalZ.to_int_inj.
  destruct (to_int_proper a) as [Ha1 Ha2], (to_int_proper b) as [Hb1 Hb2].
  pose proof (NilZero.isi _ Ha1 Ha2) as Ea.
  pose proof (NilZero.isi _ Hb1 Hb2) as Eb.
  rewrite H in Ea. congruence.
Qed.

Lemma toString_not_NaN z : toString (Num z) <> "NaN".
Proof.
  intros H. pose proof (toString_numeral z) as N. rewrite H in N. discriminate.
Qed.

Lemma toString_not_auto z : toString (Num z) <> "auto".
Proof.
  intros H. pose proof (toString_numeral z) as N. rewrite H in N. discriminate.
Qed.

Lemma toString_inj a b : toString a = toString b -> a = b.
Proof.
  destruct a as [|a], b as [|b]; intros H.
  - reflexivity.
  - symmetry in H. destruct (toString_not_NaN _ H).
  - destruct (toString_not_NaN _ H).
  - f_equal. apply toString_Num_inj, H.
Qed.

(** Two [w || 'auto'] read the same exactly when the widths are the same
    once a falsy one is taken for an absent one. *)
Lemma or_auto_inj a b : or_auto a = or_auto b -> named_dim a = named_dim b.
Proof.
  destruct a as [[|a]|], b as [[|b]|]; cbn; try reflexivity;
    repeat match goal with
           | |- context [negb (?z =? 0)] => destruct (negb (z =? 0))
           end; try reflexivity; intros H;
    try (destruct (toString_not_auto _ H));
    try (symmetry in H; destruct (toString_not_auto _ H)).
  f_equal. f_equal. apply toString_Num_inj, H.
Qed.

Lemma append_assoc (a b c : string) : (a +:+ b) +:+ c = a +:+ (b +:+ c).
Proof. induction a as [|x a IH]; simpl; [reflexivity | f_equal; exact IH]. Qed.

Lemma append_cancel_l (s a b : string) : s +:+ a = s +:+ b -> a = b.
Proof. induction s as [|c s IH]; simpl; [auto | intros [= H]; auto]. Qed.

(** A field ends at the first separator: two names that start with a field
    and a separator agree on the field, the separator and the rest. *)
Lemma field_unique (s1 s2 : string) (c1 c2 : ascii) (r1 r2 : string) :
  plain s1 = true -> plain s2 = true ->
  separator c1 = true -> separator c2 = true ->
  s1 +:+ String c1 r1 = s2 +:+ String c2 r2 ->
  s1 = s2 /\ c1 = c2 /\ r1 = r2.
Proof.
  revert s2. induction s1 as [|a s1 IH]; intros [|b s2]; cbn;
    rewrite ?andb_true_iff; intros P1 P2 S1 S2 E.
  - injection E as -> ->. auto.
  - injection E as -> _. destruct P2 as [P2 _]. rewrite S1 in P2. discriminate.
  - injection E as -> _. destruct P1 as [P1 _]. rewrite S2 in P1. discriminate.
  - injection E as -> E. destruct P1 as [_ P1], P2 as [_ P2].
    destruct (IH s2 P1 P2 S1 S2 E) as (-> & -> & ->). auto.
Qed.

End Naming.

Section CacheKey.

Import Naming.

Lemma or_auto_named w : or_auto (named_dim w) = or_auto w.
Proof.
  destruct w as [n|]; cbn; [|reflexivity].
  destruct (truthy n) eqn:T; cbn; [now rewrite T | reflexivity].
Qed.

Lemma or_jpeg_named f : or_jpeg (Some (or_jpeg f)) = or_jpeg f.
Proof. destruct f as [[|c r]|]; reflexivity. Qed.

(** The name is computed from what [named] keeps. *)
Lemma cacheFilename_named stem t :
  cacheFilename stem (named t) = cacheFilename stem t.
Proof.
  destruct t; cbn; try reflexivity.
  unfold resize_cacheFilename. now rewrite !or_auto_named, or_jpeg_named.
Qed.

(** A width field starts with a digit, a sign or the [a] of ['auto']. *)
Lemma or_auto_head w r :
  exists c s, or_auto w +:+ r = String c s /\
              (c = "a"%char \/ numeral_char c = true).
Proof.
  assert (N : forall z, exists c s, toString (Num z) +:+ r = String c s /\
                                    numeral_char c = true).
  { intros z. pose proof (toString_numeral z) as H.
    pose proof (toString_nonempty z) as E.
    destruct (toString (Num z)) as [|c s]; [congruence|].
    cbn in H. apply andb_true_iff in H as [H _]. exists c, (s +:+ r). auto. }
  destruct w as [[|z]|]; cbn; try (exists "a"%char; eexists; split; [reflexivity | auto]).
  destruct (negb (z =? 0)).
  - destruct (N z) as (c & s & E & H). exists c, s. auto.
  - exists "a"%char. eexists. split; [reflexivity | auto].
Qed.

Lemma resize_name_head stem w h q f other c :
  resize_cacheFilename stem w h q f = stem +:+ String "_" (String c other) ->
  c = "a"%char \/ numeral_char c = true.
Proof.
  unfold resize_cacheFilename. intros E. apply append_cancel_l in E.
  simpl in E. injection E as E.
  match type of E with
  | or_auto w +:+ ?r = _ => destruct (or_auto_head w r) as (c' & s & E' & H)
  end.
  rewrite E' in E. injection E as -> _. exact H.
Qed.

Lemma resize_cacheFilename_inj stem w1 h1 q1 f1 w2 h2 q2 f2 :
  resize_cacheFilename stem w1 h1 q1 f1 = resize_cacheFilename stem w2 h2 q2 f2 ->
  named_dim w1 = named_dim w2 /\ named_dim h1 = named_dim h2 /\ q1 = q2 /\
  or_jpeg f1 = or_jpeg f2.
Proof.
  unfold resize_cacheFilename. intros E. apply append_cancel_l in E.
  simpl in E. injection E as E.
  apply field_unique in E as (Ew & _ & E);
    [|apply or_auto_plain | apply or_auto_plain | reflexivity | reflexivity].
  apply field_unique in E as (Eh & _ & E);
    [|apply or_auto_plain | apply or_auto_plain | reflexivity | reflexivity].
  injection E as E.
  apply field_unique in E as (Eq & _ & E);
    [|apply toString_plain | apply toString_plain | reflexivity | reflexivity].
  auto using or_auto_inj, toString_inj.
Qed.

Lemma convert_cacheFilename_inj stem q1 f1 q2 f2 :
  convert_cacheFilename stem q1 f1 = convert_cacheFilename stem q2 f2 ->
  q1 = q2 /\ f1 = f2.
Proof.
  unfold convert_cacheFilename. intros E. apply append_cancel_l in E.
  simpl in E. injection E as E.
  apply field_unique in E as (Eq & _ & E);
    [|apply toString_plain | apply toString_plain | reflexivity | reflexivity].
  auto using toString_inj.
Qed.

Lemma thumbnail_cacheFilename_inj stem s1 q1 s2 q2 :
  thumbnail_cacheFilename stem s1 q1 = thumbnail_cacheFilename stem s2 q2 ->
  s1 = s2 /\ q1 = q2.
Proof.
  unfold thumbnail_cacheFilename. intros E. apply append_cancel_l in E.
  simpl in E. injection E as E.
  apply field_unique in E as (Es & _ & E);
    [|apply toString_plain | apply toString_plain | reflexivity | reflexivity].
  apply field_unique in E as (_ & _ & E);
    [|apply toString_plain | apply toString_plain | reflexivity | reflexivity].
  injection E as E.
  apply field_unique in E as (Eq & _ & E);
    [|apply toString_plain | apply toString_plain | reflexivity | reflexivity].
  auto using toString_inj.
Qed.

Lemma crop_cacheFilename_inj stem x1 y1 w1 h1 q1 x2 y2 w2 h2 q2 :
  crop_cacheFilename stem x1 y1 w1 h1 q1 = crop_cacheFilename stem x2 y2 w2 h2 q2 ->
  x1 = x2 /\ y1 = y2 /\ w1 = w2 /\ h1 = h2 /\ q1 = q2.
Proof.
  unfold crop_cacheFilename. intros E. apply append_cancel_l in E.
  simpl in E. injection E as E.
  apply field_unique in E as (Ex & _ & E);
    [|apply toString_plain | apply toString_plain | reflexivity | reflexivity].
  apply field_unique in E as (Ey & _ & E);
    [|apply toString_plain | apply toString_plain | reflexivity | reflexivity].
  apply field_unique in E as (Ew & _ & E);
    [|apply toString_plain | apply toString_plain | reflexivity | reflexivity].
  apply field_unique in E as (Eh & _ & E);
    [|apply toString_plain | apply toString_plain | reflexivity | reflexivity].
  injection E as E.
  apply field_unique in E as (Eq & _ & E);
    [|apply toString_plain | apply toString_plain | reflexivity | reflexivity].
  auto 10 using toString_inj.
Qed.

(** Names of different handlers differ after the stem: a resize name goes on
    with a width, the others with [thumb], [crop] and [converted]. *)
Lemma cacheFilename_same_handler stem t1 t2 :
  cacheFilename stem t1 = cacheFilename stem t2 ->
  match t1, t2 with
  | TResize _ _ _ _, TResize _ _ _ _
  | TConvert _ _, TConvert _ _
  | TThumbnail _ _, TThumbnail _ _
  | TCrop _ _ _ _ _, TCrop _ _ _ _ _ => True
  | _, _ => False
  end.
Proof.
  destruct t1, t2; cbn [cacheFilename]; intros E; try exact I;
    unfold convert_cacheFilename, thumbnail_cacheFilename, crop_cacheFilename in E;
    simpl in E;
    try (apply resize_name_head in E as [E|E]; [discriminate E | discriminate E]);
    try (symmetry in E;
         apply resize_name_head in E as [E|E]; [discriminate E | discriminate E]);
    apply append_cancel_l in E; discriminate E.
Qed.

(** X1.  Two transforms of one source get the same file name exactly when
    they agree on what [named] keeps of them: the names tell the handlers
    and their parameters apart, up to a falsy width or height, which reads
    ['auto'] like an absent one, and a falsy format, which reads ['jpeg']. *)
Lemma cacheFilename_inj stem t1 t2 :
  cacheFilename stem t1 = cacheFilename stem t2 <-> named t1 = named t2.
Proof.
  split.
  - intros E. pose proof (cacheFilename_same_handler _ _ _ E) as S.
    destruct t1, t2; try destruct S; cbn [cacheFilename named] in *.
    + apply resize_cacheFilename_inj in E as (-> & -> & -> & ->). reflexivity.
    + apply convert_cacheFilename_inj in E as (-> & ->). reflexivity.
    + apply thumbnail_cacheFilename_inj in E as (-> & ->). reflexivity.
    + apply crop_cacheFilename_inj in E as (-> & -> & -> & -> & ->). reflexivity.
  - intros E. rewrite <- (cacheFilename_named stem t1), E.
    apply cacheFilename_named.
Qed.

End CacheKey.

(** ** Running the shared steps *)

Section Runs.
Context `{host : Host}.

Lemma resolve_image_run req only w :
  resolve_image req only w =
  let looked := EFindById (req_id req) (req_user req) in
  match List.find (row_matches (req_id req) (req_user req)) (db w) with
  | None => (Return (Json 404 "File not found" None), w, [looked])
  | Some file =>
      if negb (String.eqb (row_file_type file) "image")
      then (Return (Json 400 "Invalid file type" (Some only)), w, [looked])
      else if bool_decide (is_Some (fs w !! row_path file))
           then (Next file, w, [looked; EExists (row_path file)])
           else (Return (Json 404 "Physical file not found" None), w,
                 [looked; EExists (row_path file)])
  end.
Proof.
  unfold resolve_image, findById, existsSync, bind, emit, get_world, ret; cbn.
  destruct (List.find _ (db w)) as [file|]; cbn; [|reflexivity].
  destruct (String.eqb (row_file_type file) "image"); cbn; [|reflexivity].
  destruct (bool_decide (is_Some (fs w !! row_path file))); reflexivity.
Qed.

Lemma ensure_cacheDir_run dir w :
  ensure_cacheDir dir w = (Next tt, with_cacheDir dir w, cacheDir_events dir w).
Proof.
  unfold ensure_cacheDir, existsSync, mkdirSync, with_cacheDir, cacheDir_events,
    bind, emit, get_world, set_fs, ret; cbn.
  destruct (bool_decide (is_Some (fs w !! dir))); reflexivity.
Qed.

Lemma serve_or_generate_run file t pl w :
  serve_or_generate file t pl w =
  let p := cachePath_of file t in
  let w1 := with_cacheDir (cacheDir_of file) w in
  let t1 := cacheDir_events (cacheDir_of file) w in
  if bool_decide (is_Some (fs w1 !! p))
  then (Next (SendFile p (read w1 p)), w1, t1 ++ [EExists p])
  else
    let t2 := t1 ++ [EExists p; EToFile (row_path file) pl p] in
    match read w1 (row_path file) with
    | None => (Throw "Input file is missing", w1, t2)
    | Some b =>
        match sharp pl b with
        | inl e => (Throw e, w1, t2)
        | inr out =>
            (Next (SendFile p (Some out)),
             {| db := db w1; fs := <[p := File out]> (fs w1) |}, t2)
        end
    end.
Proof.
  unfold serve_or_generate. unfold bind at 1. rewrite ensure_cacheDir_run.
  set (w1 := with_cacheDir _ w). set (t1 := cacheDir_events _ w).
  set (p := cachePath_of file t).
  unfold existsSync, sendFile, toFile, bind, emit, get_world, set_fs, ret, throw; cbn.
  destruct (bool_decide (is_Some (fs w1 !! p))); cbn; [reflexivity|].
  destruct (read w1 (row_path file)) as [b|]; cbn; [|reflexivity].
  destruct (sharp pl b) as [e|out]; cbn; [reflexivity|].
  unfold read; cbn. rewrite lookup_insert_eq. reflexivity.
Qed.

End Runs.

(** ** The handlers in two halves: what the query decides, and the rest *)

Section Plans.
Context `{host : Host}.

Lemma handle_reject_true lbl r (k : M Response) w :
  handle lbl (reject_if true r ;;; k) w = (r, w, []).
Proof. reflexivity. Qed.

Lemma handle_reject_false lbl r (k : M Response) w :
  handle lbl (reject_if false r ;;; k) w = handle lbl k w.
Proof.
  unfold handle, bind, reject_if, ret.
  destruct (k w) as [[[a|r'|e] w1] t1]; reflexivity.
Qed.

Lemma derive_run op req w :
  caching op = true ->
  derive op req w =
  match plan op (req_query req) with
  | inl r => (r, w, [])
  | inr (t, pl) =>
      handle (label op) (file <- resolve_image req (only op) ;; answer op t pl file) w
  end.
Proof.
  destruct op; intros C; try discriminate C; cbn [derive plan label only].
  - unfold resizeImage, resize_plan.
    destruct (negb (truthy_str _) && negb (truthy_str _));
      [reflexivity | rewrite handle_reject_false].
    destruct (present_outside _ 1 4096 || present_outside _ 1 4096);
      [reflexivity | rewrite handle_reject_false].
    destruct (lt _ 1 || gt _ 100);
      [reflexivity | rewrite handle_reject_false]. reflexivity.
  - unfold convertImage, convert_plan, present.
    destruct (q_format (req_query req)) as [[|c f]|]; try reflexivity.
    cbn [truthy_str].
    destruct (negb (existsb _ supportedFormats));
      [reflexivity | rewrite handle_reject_false].
    destruct (lt _ 1 || gt _ 100);
      [reflexivity | rewrite handle_reject_false]. reflexivity.
  - unfold generateThumbnail, thumbnail_plan.
    destruct (lt _ 50 || gt _ 1000);
      [reflexivity | rewrite handle_reject_false].
    destruct (lt _ 1 || gt _ 100);
      [reflexivity | rewrite handle_reject_false]. reflexivity.
  - unfold cropImage, crop_plan.
    destruct (present (q_x (req_query req))), (present (q_y (req_query req))),
      (present (q_width (req_query req))), (present (q_height (req_query req)));
      try reflexivity.
    destruct (lt _ 0 || lt _ 0 || lt _ 1 || lt _ 1);
      [reflexivity | rewrite handle_reject_false].
    destruct (lt _ 1 || gt _ 100);
      [reflexivity | rewrite handle_reject_false]. reflexivity.
Qed.

End Plans.

Section Accepted.
Context `{host : Host}.

Lemma resolved_run lbl only req (k : FileRow -> M Response) w :
  handle lbl (file <- resolve_image req only ;; k file) w =
  let looked := EFindById (req_id req) (req_user req) in
  match List.find (row_matches (req_id req) (req_user req)) (db w) with
  | None => (Json 404 "File not found" None, w, [looked])
  | Some file =>
      if negb (String.eqb (row_file_type file) "image")
      then (Json 400 "Invalid file type" (Some only), w, [looked])
      else if bool_decide (is_Some (fs w !! row_path file))
           then finish lbl [looked; EExists (row_path file)] (k file w)
           else (Json 404 "Physical file not found" None, w,
                 [looked; EExists (row_path file)])
  end.
Proof.
  unfold handle, bind at 1. rewrite resolve_image_run. cbv zeta.
  destruct (List.find _ (db w)) as [file|]; [|reflexivity].
  destruct (negb (String.eqb (row_file_type file) "image")); [reflexivity|].
  destruct (bool_decide (is_Some (fs w !! row_path file))); [|reflexivity].
  unfold finish. destruct (k file w) as [[[r|r|e] w1] t1]; reflexivity.
Qed.

Lemma present_Some v s : present v = Some s -> v = Some s.
Proof. unfold present. destruct (truthy_str v); [auto | discriminate]. Qed.

Lemma default_thumbnail_run file s w :
  default_thumbnail file s w =
  match present (row_thumbnail_path file) with
  | None => (Next None, w, [])
  | Some tp =>
      (Next (if bool_decide (is_Some (fs w !! tp)) && strict_eq s 300
             then Some tp else None), w, [EExists tp])
  end.
Proof.
  unfold default_thumbnail, present.
  destruct (row_thumbnail_path file) as [[|c tp]|]; reflexivity.
Qed.

Lemma answer_run op t pl file w :
  answer op t pl file w =
  match op, t with
  | Thumbnail, TThumbnail s _ =>
      match present (row_thumbnail_path file) with
      | Some tp =>
          if bool_decide (is_Some (fs w !! tp)) && strict_eq s 300
          then (Next (SendFile tp (read w tp)), w, [EExists tp])
          else after [EExists tp] (serve_or_generate file t pl w)
      | None => serve_or_generate file t pl w
      end
  | _, _ => serve_or_generate file t pl w
  end.
Proof.
  destruct op, t; try reflexivity. unfold answer, bind.
  rewrite default_thumbnail_run.
  destruct (present (row_thumbnail_path file)) as [tp|].
  - destruct (bool_decide (is_Some (fs w !! tp)) && strict_eq s 300);
      [reflexivity|].
    unfold after. destruct (serve_or_generate _ _ _ w) as [[o w1] t1]. reflexivity.
  - destruct (serve_or_generate _ _ _ w) as [[o w1] t1]. reflexivity.
Qed.

Lemma getImageInfo_run req w :
  getImageInfo req w =
  handle (label GetInfo)
    (file <- resolve_image req (only GetInfo) ;;
     m <- metadata (row_path file) ;;
     ret (Info {| fi_id := row_id file;
                  fi_filename := row_filename file;
                  fi_originalName := row_original_name file;
                  fi_size := row_size file;
                  fi_mimeType := row_mime_type file |} m)) w.
Proof. reflexivity. Qed.

(** A query is rejected with a 400 that is not the file-type answer. *)
Lemma plan_rejection op query r :
  plan op query = inl r ->
  exists e m, r = Json 400 e (Some m) /\ e <> "Invalid file type".
Proof.
  destruct op; cbn [plan];
    unfold resize_plan, convert_plan, thumbnail_plan, crop_plan;
    repeat match goal with
           | |- context [match ?x with _ => _ end] => destruct x
           end;
    intros [= <-]; do 2 eexists; (split; [reflexivity | discriminate]).
Qed.

End Accepted.

(** ** Assets that are not images *)

Section NonImage.
Context `{host : Host}.

(** A record that is not an image is turned down by every route whose
    query is accepted, right after the lookup. *)
Lemma derive_not_image op req w file :
  accepts op (req_query req) = true ->
  List.find (row_matches (req_id req) (req_user req)) (db w) = Some file ->
  row_file_type file <> "image" ->
  derive op req w
  = (Json 400 "Invalid file type" (Some (only op)), w,
     [EFindById (req_id req) (req_user req)]).
Proof.
  intros A F T.
  assert (N : negb (String.eqb (row_file_type file) "image") = true).
  { apply negb_true_iff, String.eqb_neq, T. }
  destruct (caching op) eqn:C.
  - rewrite derive_run by exact C.
    assert (P : exists t pl, plan op (req_query req) = inr (t, pl)).
    { destruct op; try discriminate C; cbn [accepts] in A;
        destruct (plan _ (req_query req)) as [r|[t pl]]; try discriminate A; eauto. }
    destruct P as (t & pl & ->).
    rewrite resolved_run. cbv zeta. rewrite F, N. reflexivity.
  - destruct op; try discriminate C. cbn [derive].
    rewrite getImageInfo_run, resolved_run. cbv zeta. rewrite F, N. reflexivity.
Qed.

(** C10.  Whatever the operation, a request whose parameters the handler
    accepts and whose asset is recorded with a file type other than 'image'
    is answered 'Invalid file type' (400) right after the lookup of the
    caller's record: the lookup is the only thing the handler has done, no
    existence check, no cache lookup and no engine call, and the table and
    the disk are as they were. *)
Theorem non_image_rejected_before_any_work
  (op : Operation) (req : Req) (w : World) (file : FileRow) :
  accepts op (req_query req) = true ->
  List.find (row_matches (req_id req) (req_user req)) (db w) = Some file ->
  row_file_type file <> "image" ->
  derive op req w
  = (Json 400 "Invalid file type" (Some (only op)), w,
     [EFindById (req_id req) (req_user req)]).
Proof.
  intros Hacc Hfind Htype.
  assert (Hneg : negb (String.eqb (row_file_type file) "image") = true).
  { apply negb_true_iff, String.eqb_neq, Htype. }
  destruct op; cbn [accepts] in Hacc.
  5:{ cbn [derive]. rewrite getImageInfo_run, resolved_run. cbv zeta.
      rewrite Hfind, Hneg. reflexivity. }
  all: rewrite derive_run by reflexivity;
    destruct (plan _ (req_query req)) as [r|[t pl]]; [discriminate Hacc|];
    rewrite resolved_run; cbv zeta; rewrite Hfind, Hneg; reflexivity.
Qed.

End NonImage.

(** A resize of the video of the sample world to a width of 100. *)
Lemma non_image_rejected_witness :
  derive Resize (Sample.get 2 (Sample.width_height (Some "100") None))
    Sample.with_clip
  = (Json 400 "Invalid file type" (Some "Only image files can be resized"),
     Sample.with_clip, [EFindById 2 1]).
Proof.
  apply (non_image_rejected_before_any_work Resize
           (Sample.get 2 (Sample.width_height (Some "100") None))
           Sample.with_clip Sample.clip_row).
  - reflexivity.
  - reflexivity.
  - cbn. discriminate.
Defined.

(** A resize of the same video with no width and no height: the answer is
    'Missing parameters', and the record was not even looked up. *)
Lemma non_image_refused_for_its_query :
  List.find (row_matches 2 1) (db Sample.with_clip) = Some Sample.clip_row /\
  row_file_type Sample.clip_row = "video" /\
  derive Resize (Sample.get 2 Sample.no_query) Sample.with_clip
  = (Json 400 "Missing parameters"
       (Some "At least width or height must be specified"),
     Sample.with_clip, []).
Proof. repeat split. Qed.

(** ** What the validation of [resizeImage] lets through *)

Section ResizeValidation.
Context `{host : Host}.

(** A width that is there and not zero is checked against [1, 4096], and
    the request is turned down before anything is looked up. *)
Lemma resize_rejects_width (req : Req) (w : World) (n : Z) :
  parseInt_or_null (q_width (req_query req)) = Some (Num n) ->
  n <> 0 -> n < 1 \/ 4096 < n ->
  resizeImage req w =
  (Json 400 "Invalid dimensions"
     (Some "Width and height must be between 1 and 4096 pixels"), w, []).
Proof.
  intros Hw Hn Hout.
  change (resizeImage req w) with (derive Resize req w).
  rewrite derive_run by reflexivity. cbn [plan]. unfold resize_plan.
  assert (T : truthy_str (q_width (req_query req)) = true).
  { unfold parseInt_or_null in Hw.
    destruct (q_width (req_query req)) as [s|]; [|discriminate].
    destruct (truthy_str (Some s)); [reflexivity | discriminate]. }
  rewrite T, Hw. cbn.
  replace (n =? 0) with false by (symmetry; apply Z.eqb_neq, Hn). cbn.
  replace ((n <? 1) || (4096 <? n)) with true; [reflexivity|].
  symmetry. apply orb_true_iff. rewrite !Z.ltb_lt. exact Hout.
Qed.

(** A quality that is a number outside [1, 100] is turned down as well,
    once the dimensions are through. *)
Lemma resize_rejects_quality (req : Req) (w : World) (z : Z) :
  truthy_str (q_width (req_query req)) || truthy_str (q_height (req_query req))
  = true ->
  present_outside (parseInt_or_null (q_width (req_query req))) 1 4096
  || present_outside (parseInt_or_null (q_height (req_query req))) 1 4096 = false ->
  parseInt_default (q_quality (req_query req)) 80 = Num z ->
  z < 1 \/ 100 < z ->
  resizeImage req w =
  (Json 400 "Invalid quality" (Some "Quality must be between 1 and 100"), w, []).
Proof.
  intros Hany Hdims Hq Hout.
  change (resizeImage req w) with (derive Resize req w).
  rewrite derive_run by reflexivity. cbn [plan]. unfold resize_plan.
  rewrite Hdims, Hq.
  replace (negb (truthy_str (q_width (req_query req)))
           && negb (truthy_str (q_height (req_query req)))) with false
    by (now rewrite <- negb_orb, Hany).
  cbn. replace ((z <? 1) || (100 <? z)) with true; [reflexivity|].
  symmetry. apply orb_true_iff. rewrite !Z.ltb_lt. exact Hout.
Qed.

End ResizeValidation.

(** The bounds of the specification, on the sample picture. *)
Example resize_width_4097_rejected :
  let run := resizeImage (Sample.get 1 (Sample.width_height (Some "4097") None))
               Sample.uploaded in
  fst (fst run) = Json 400 "Invalid dimensions"
                    (Some "Width and height must be between 1 and 4096 pixels") /\
  snd run = [].
Proof. cbv zeta. split; reflexivity. Qed.

(** A width of 5000 after a no-break space is read as 5000. *)
Example resize_width_after_no_break_space_rejected :
  let run := resizeImage
               (Sample.get 1 (Sample.width_height
                                (Some (String (ascii_of_nat 160) "5000")) None))
               Sample.uploaded in
  fst (fst run) = Json 400 "Invalid dimensions"
                    (Some "Width and height must be between 1 and 4096 pixels") /\
  snd run = [].
Proof. cbv zeta. split; reflexivity. Qed.

Example resize_width_4096_accepted :
  exists p out,
    fst (fst (resizeImage (Sample.get 1 (Sample.width_height (Some "4096") None))
                Sample.uploaded))
    = SendFile p (Some out).
Proof. do 2 eexists. reflexivity. Qed.

Example resize_quality_0_rejected :
  let run := resizeImage
               (Sample.get 1 {| q_width := Some "100"; q_height := None;
                                q_quality := Some "0"; q_format := None;
                                q_size := None; q_x := None; q_y := None |})
               Sample.uploaded in
  fst (fst run) = Json 400 "Invalid quality"
                    (Some "Quality must be between 1 and 100") /\
  snd run = [].
Proof. cbv zeta. split; reflexivity. Qed.

Example resize_quality_100_accepted :
  exists p out,
    fst (fst (resizeImage
                (Sample.get 1 {| q_width := Some "100"; q_height := None;
                                 q_quality := Some "100"; q_format := None;
                                 q_size := None; q_x := None; q_y := None |})
                Sample.uploaded))
    = SendFile p (Some out).
Proof. do 2 eexists. reflexivity. Qed.

Example thumbnail_size_49_rejected :
  let run := generateThumbnail (Sample.get 1 (Sample.size_quality (Some "49") None))
               Sample.uploaded in
  fst (fst run) = Json 400 "Invalid size"
                    (Some "Thumbnail size must be between 50 and 1000 pixels") /\
  snd run = [].
Proof. cbv zeta. split; reflexivity. Qed.

Example thumbnail_size_50_accepted :
  exists out,
    fst (fst (generateThumbnail (Sample.get 1 (Sample.size_quality (Some "50") None))
                Sample.uploaded))
    = SendFile "uploads/1/cache/pic_thumb_50x50_q80.jpg" (Some out) /\
    (Ref.pic_width out, Ref.pic_height out) = (50, 50).
Proof. eexists. split; reflexivity. Qed.

(** The name of a converted file keeps the format as it was written. *)
Example convert_upper_case_format :
  exists out,
    fst (fst (convertImage
                (Sample.get 1 {| q_width := None; q_height := None;
                                 q_quality := Some "90"; q_format := Some "WebP";
                                 q_size := None; q_x := None; q_y := None |})
                Sample.uploaded))
    = SendFile "uploads/1/cache/pic_converted_q90.WebP" (Some out) /\
    Ref.pic_format out = "webp".
Proof. eexists. split; reflexivity. Qed.

(** C5, where the code departs from it.  A width of 0 is present and
    outside [1, 4096], yet [w && ...] skips the check for it: the request
    goes on to the disk and the engine and is answered with the picture in
    its full size, stored under the name of a request without dimensions. *)
Theorem resize_width_zero_not_rejected :
  let run := resizeImage (Sample.get 1 (Sample.width_height (Some "0") None))
               Sample.uploaded in
  (exists out,
      fst (fst run) = SendFile "uploads/1/cache/pic_autoxauto_q80.jpeg" (Some out) /\
      (Ref.pic_width out, Ref.pic_height out) = (1000, 500)) /\
  engine_calls (snd run) = 1%nat /\
  In (EMkdir "uploads/1/cache") (snd run).
Proof.
  cbv zeta. split; [eexists; split; reflexivity|].
  split; [reflexivity | in_trace].
Qed.

(** C2, where the code departs from it.  The requests [width=0&height=100]
    and [height=100] are both accepted, their parameters differ in the
    width, and they get one cache file name: alone the first is refused by
    the engine, after the second it is answered with the file of the
    second. *)
Theorem cacheFilename_collision :
  let zero_by_100 := Sample.get 1 (Sample.width_height (Some "0") (Some "100")) in
  let auto_by_100 := Sample.get 1 (Sample.width_height None (Some "100")) in
  let t1 := TResize (Some (Num 0)) (Some (Num 100)) (Num 80) None in
  let t2 := TResize None (Some (Num 100)) (Num 80) None in
  let filled := snd (fst (resizeImage auto_by_100 Sample.uploaded)) in
  resize_plan (host := Ref.host) (req_query zero_by_100)
    = inr (t1, resize_pipeline (Some (Num 0)) (Some (Num 100)) (Num 80) None) /\
  resize_plan (host := Ref.host) (req_query auto_by_100)
    = inr (t2, resize_pipeline None (Some (Num 100)) (Num 80) None) /\
  t1 <> t2 /\
  cacheFilename "pic" t1 = "pic_autox100_q80.jpeg" /\
  cacheFilename "pic" t2 = "pic_autox100_q80.jpeg" /\
  fst (fst (resizeImage zero_by_100 Sample.uploaded))
    = Json 500 "Image processing failed" (Some "Invalid geometry") /\
  fst (fst (resizeImage zero_by_100 filled))
    = fst (fst (resizeImage auto_by_100 filled)) /\
  exists out,
    fst (fst (resizeImage zero_by_100 filled))
    = SendFile "uploads/1/cache/pic_autox100_q80.jpeg" (Some out) /\
    (Ref.pic_width out, Ref.pic_height out) = (200, 100).
Proof.
  cbv zeta. repeat split; try (reflexivity); try discriminate.
  eexists. split; reflexivity.
Qed.

(** ** Parameters that are not numbers *)

Section NotANumber.
Context `{host : Host}.

Lemma engine_calls_app t1 t2 :
  engine_calls (t1 ++ t2) = (engine_calls t1 + engine_calls t2)%nat.
Proof.
  unfold engine_calls. now rewrite List.filter_app, List.length_app.
Qed.

Lemma engine_calls_cacheDir dir w : engine_calls (cacheDir_events dir w) = 0%nat.
Proof.
  unfold cacheDir_events. destruct (bool_decide _); reflexivity.
Qed.

Lemma plan_quality_NaN_rejected op query s r :
  caching op = true ->
  q_quality query = Some s -> parseInt s = NaN ->
  plan op query = inl r ->
  forall m, r <> Json 400 "Invalid quality" m.
Proof.
  intros C Hq Hs.
  destruct op; try discriminate C; cbn [plan];
    unfold resize_plan, convert_plan, thumbnail_plan, crop_plan;
    rewrite Hq; cbn [parseInt_default]; rewrite Hs; cbn [lt gt orb];
    repeat match goal with
           | |- context [match ?x with _ => _ end] => destruct x
           end;
    intros [= <-] m; discriminate.
Qed.

Lemma plan_size_NaN_rejected query s r :
  q_size query = Some s -> parseInt s = NaN ->
  thumbnail_plan query = inl r ->
  forall m, r <> Json 400 "Invalid size" m.
Proof.
  intros Hq Hs. unfold thumbnail_plan. rewrite Hq. cbn [parseInt_default].
  rewrite Hs. cbn [lt gt orb].
  destruct (lt _ 1 || gt _ 100); intros [= <-] m; discriminate.
Qed.

Lemma plan_size_NaN_accepted query s t pl :
  q_size query = Some s -> parseInt s = NaN ->
  thumbnail_plan query = inr (t, pl) ->
  pl_geometry pl = GResize (Some NaN) (Some NaN) FitCover (Some "center") false.
Proof.
  intros Hq Hs. unfold thumbnail_plan. rewrite Hq. cbn [parseInt_default].
  rewrite Hs. cbn [lt gt orb].
  destruct (lt _ 1 || gt _ 100); intros [= <- <-]. reflexivity.
Qed.

(** [answer] sends a file or throws; it has no early [return]. *)
Lemma answer_outcome op t pl file w :
  (exists p body, fst (fst (answer op t pl file w)) = Next (SendFile p body)) \/
  (exists e, fst (fst (answer op t pl file w)) = Throw e).
Proof.
  assert (G : (exists p body,
                  fst (fst (serve_or_generate file t pl w)) = Next (SendFile p body))
              \/ (exists e, fst (fst (serve_or_generate file t pl w)) = Throw e)).
  { rewrite serve_or_generate_run. cbv zeta.
    destruct (bool_decide _); [left; cbn; eauto|].
    destruct (read _ _) as [b|]; [|right; cbn; eauto].
    destruct (sharp pl b); [right | left]; cbn; eauto. }
  rewrite answer_run.
  destruct op, t; try exact G.
  destruct (present (row_thumbnail_path file)) as [tp|]; [|exact G].
  destruct (bool_decide (is_Some (fs w !! tp)) && strict_eq s 300).
  - left. cbn. eauto.
  - destruct (serve_or_generate _ _ _ w) as [[o w1] t1]. exact G.
Qed.

(** The answers an accepted request can get. *)
Lemma accepted_response op t pl req w :
  let r := fst (fst (handle (label op)
                       (file <- resolve_image req (only op) ;; answer op t pl file) w)) in
  (exists e, r = Json 404 e None) \/
  r = Json 400 "Invalid file type" (Some (only op)) \/
  (exists e, r = Json 500 (label op) (Some e)) \/
  (exists p body, r = SendFile p body).
Proof.
  cbv zeta. rewrite resolved_run. cbv zeta.
  destruct (List.find _ (db w)) as [file|]; [|left; cbn; eauto].
  destruct (negb _); [right; left; reflexivity|].
  destruct (bool_decide _); [|left; cbn; eauto].
  destruct (answer_outcome op t pl file w) as [(p & body & H)|(e & H)];
    destruct (answer op t pl file w) as [[o w1] t1]; cbn [fst snd finish] in *;
    subst o; eauto 10.
Qed.

(** A request that is accepted, for an image on the disk, whose cache path
    is free and which is not answered with the stored thumbnail, has the
    engine run the call chain of its plan, once. *)
Lemma miss_reaches_engine op req w tr pl file :
  caching op = true ->
  plan op (req_query req) = inr (tr, pl) ->
  List.find (row_matches (req_id req) (req_user req)) (db w) = Some file ->
  row_file_type file = "image" ->
  is_Some (fs w !! row_path file) ->
  serves_stored op tr file w = false ->
  fs w !! cachePath_of file tr = None ->
  cachePath_of file tr <> cacheDir_of file ->
  In (EToFile (row_path file) pl (cachePath_of file tr)) (snd (derive op req w)) /\
  engine_calls (snd (derive op req w)) = 1%nat.
Proof.
  intros C P F T D St Miss Nd.
  rewrite derive_run by exact C. rewrite P, resolved_run. cbv zeta.
  rewrite F, T. cbn [String.eqb Ascii.eqb Bool.eqb negb].
  rewrite (bool_decide_eq_true_2 _ D).
  assert (S : In (EToFile (row_path file) pl (cachePath_of file tr))
                (snd (serve_or_generate file tr pl w)) /\
              engine_calls (snd (serve_or_generate file tr pl w)) = 1%nat).
  { assert (Free : ~ is_Some (fs (with_cacheDir (cacheDir_of file) w)
                                !! cachePath_of file tr)).
    { intros [n L]. unfold with_cacheDir in L.
      destruct (bool_decide _); [congruence|]. cbn in L.
      rewrite lookup_insert_ne in L by congruence. congruence. }
    rewrite serve_or_generate_run. cbv zeta.
    rewrite (bool_decide_eq_false_2 _ Free).
    assert (G : In (EToFile (row_path file) pl (cachePath_of file tr))
                  (cacheDir_events (cacheDir_of file) w ++
                   [EExists (cachePath_of file tr);
                    EToFile (row_path file) pl (cachePath_of file tr)]) /\
                engine_calls (cacheDir_events (cacheDir_of file) w ++
                   [EExists (cachePath_of file tr);
                    EToFile (row_path file) pl (cachePath_of file tr)]) = 1%nat).
    { split; [apply in_or_app; right; cbn; auto|].
      rewrite engine_calls_app, engine_calls_cacheDir. reflexivity. }
    destruct (read _ (row_path file)) as [b|]; [|exact G].
    destruct (sharp pl b); exact G. }
  assert (A : In (EToFile (row_path file) pl (cachePath_of file tr))
                (snd (answer op tr pl file w)) /\
              engine_calls (snd (answer op tr pl file w)) = 1%nat).
  { rewrite answer_run. unfold serves_stored in St.
    destruct op, tr; try exact S.
    destruct (present (row_thumbnail_path file)) as [tp|]; [|exact S].
    rewrite St.
    destruct (serve_or_generate _ _ _ w) as [[o w1] t1]. cbn [snd after] in *.
    destruct S as [I One]. split; [right; exact I|].
    rewrite engine_calls_app. exact One. }
  destruct (answer op tr pl file w) as [[o w1] t1]. cbn [snd finish] in *.
  destruct A as [I One]. split; [right; right; exact I|].
  rewrite engine_calls_app. exact One.
Qed.

(** A quality that is not a number passes the validation as the default
    quality does. *)
Lemma accepts_quality_NaN op query s :
  caching op = true ->
  q_quality query = Some s -> parseInt s = NaN ->
  accepts op query = accepts op (with_quality query None).
Proof.
  intros C Hq Hs.
  destruct op; try discriminate C; cbn [accepts plan];
    unfold resize_plan, convert_plan, thumbnail_plan, crop_plan;
    cbn [with_quality q_width q_height q_quality q_format q_size q_x q_y];
    rewrite Hq; cbn [parseInt_default]; rewrite Hs;
    change (lt NaN 1 || gt NaN 100) with false;
    change (lt (Num 80) 1 || gt (Num 80) 100) with false;
    repeat match goal with
           | |- context [match present ?x with _ => _ end] => destruct (present x)
           | |- context [if ?c then _ else _] =>
               match type of c with bool => destruct c end
           end; reflexivity.
Qed.

Lemma accepts_size_NaN query s :
  q_size query = Some s -> parseInt s = NaN ->
  accepts Thumbnail query = accepts Thumbnail (with_size query None).
Proof.
  intros Hq Hs. cbn [accepts plan]. unfold thumbnail_plan.
  cbn [with_size q_width q_height q_quality q_format q_size q_x q_y].
  rewrite Hq. cbn [parseInt_default]. rewrite Hs.
  change (lt NaN 50 || gt NaN 1000) with false.
  change (lt (Num 300) 50 || gt (Num 300) 1000) with false.
  destruct (lt _ 1 || gt _ 100); reflexivity.
Qed.

(** The quality of the encoder of an accepted plan is the quality of the
    query, but for [.gif()], which takes none. *)
Lemma plan_encoder_quality op query t pl :
  caching op = true ->
  plan op query = inr (t, pl) ->
  encoder_quality (pl_encoder pl)
  = if to_gif op query then None else Some (parseInt_default (q_quality query) 80).
Proof.
  intros C.
  destruct op; try discriminate C; cbn [plan to_gif];
    unfold resize_plan, convert_plan, thumbnail_plan, crop_plan.
  - destruct (negb _ && negb _); [discriminate|].
    destruct (present_outside _ 1 4096 || present_outside _ 1 4096); [discriminate|].
    destruct (lt _ 1 || gt _ 100); [discriminate|].
    intros [= <- <-]. cbn [pl_encoder resize_pipeline].
    destruct (q_format query) as [f|]; [|reflexivity].
    repeat match goal with
           | |- context [match ?x with _ => _ end] => destruct x
           end; reflexivity.
  - destruct (present (q_format query)) as [format|] eqn:Pf; [|discriminate].
    apply present_Some in Pf. rewrite Pf.
    destruct (negb _) eqn:Sup; [discriminate|].
    destruct (lt _ 1 || gt _ 100); [discriminate|].
    intros [= <- <-]. cbn [pl_encoder convert_pipeline].
    apply negb_false_iff in Sup. cbn [existsb supportedFormats] in Sup.
    set (f := toLowerCase format) in *. clearbody f.
    repeat (apply orb_true_iff in Sup as [Sup|Sup]);
      try (apply String.eqb_eq in Sup; subst f; reflexivity).
    discriminate Sup.
  - destruct (lt _ 50 || gt _ 1000); [discriminate|].
    destruct (lt _ 1 || gt _ 100); [discriminate|].
    intros [= <- <-]. reflexivity.
  - destruct (present (q_x query)), (present (q_y query)),
      (present (q_width query)), (present (q_height query)); try discriminate.
    destruct (lt _ 0 || lt _ 0 || lt _ 1 || lt _ 1); [discriminate|].
    destruct (lt _ 1 || gt _ 100); [discriminate|].
    intros [= <- <-]. reflexivity.
Qed.

(** C9, as it holds.  A quality that [parseInt] reads as [NaN] makes both
    comparisons false, [NaN < 1] and [NaN > 100]: the validation of the
    four caching handlers lets the request through exactly when it lets it
    through with no quality at all, and the answer is never 'Invalid
    quality'.  When the request is accepted, the record of the caller is an
    image on the disk, the cache holds nothing under the key of the request
    and the stored thumbnail is not what answers it, the handler has the
    engine run the call chain of the request, in which [NaN] is the quality
    of the encoder; a conversion to gif is the exception, [.gif()] taking no
    quality.  The same for the size of a thumbnail, which reaches the engine
    as the [NaN] x [NaN] box. *)
Theorem non_numeric_parameter_escapes_validation
  (op : Operation) (req : Req) (w : World) :
  caching op = true ->
  (forall s,
      q_quality (req_query req) = Some s -> parseInt s = NaN ->
      lt (parseInt s) 1 = false /\ gt (parseInt s) 100 = false /\
      accepts op (req_query req) = accepts op (with_quality (req_query req) None) /\
      (forall m, fst (fst (derive op req w)) <> Json 400 "Invalid quality" m) /\
      forall tr pl file,
        plan op (req_query req) = inr (tr, pl) ->
        List.find (row_matches (req_id req) (req_user req)) (db w) = Some file ->
        row_file_type file = "image" ->
        is_Some (fs w !! row_path file) ->
        serves_stored op tr file w = false ->
        fs w !! cachePath_of file tr = None ->
        cachePath_of file tr <> cacheDir_of file ->
        In (EToFile (row_path file) pl (cachePath_of file tr))
          (snd (derive op req w)) /\
        encoder_quality (pl_encoder pl)
        = if to_gif op (req_query req) then None else Some NaN) /\
  (op = Thumbnail ->
   forall s,
      q_size (req_query req) = Some s -> parseInt s = NaN ->
      lt (parseInt s) 50 = false /\ gt (parseInt s) 1000 = false /\
      accepts op (req_query req) = accepts op (with_size (req_query req) None) /\
      (forall m, fst (fst (derive op req w)) <> Json 400 "Invalid size" m) /\
      forall tr pl file,
        plan op (req_query req) = inr (tr, pl) ->
        List.find (row_matches (req_id req) (req_user req)) (db w) = Some file ->
        row_file_type file = "image" ->
        is_Some (fs w !! row_path file) ->
        fs w !! cachePath_of file tr = None ->
        cachePath_of file tr <> cacheDir_of file ->
        In (EToFile (row_path file) pl (cachePath_of file tr))
          (snd (derive op req w)) /\
        pl_geometry pl
        = GResize (Some NaN) (Some NaN) FitCover (Some "center") false).
Proof.
  intros C. split.
  - intros s Hq Hs. rewrite Hs. do 2 (split; [reflexivity|]).
    split; [exact (accepts_quality_NaN _ _ _ C Hq Hs)|]. split.
    + rewrite derive_run by exact C.
      destruct (plan op (req_query req)) as [r|[t pl]] eqn:E.
      * exact (plan_quality_NaN_rejected _ _ _ _ C Hq Hs E).
      * intros m H.
        destruct (accepted_response op t pl req w)
          as [(e & R)|[R|[(e & R)|(p & body & R)]]];
          cbv zeta in R; rewrite R in H; discriminate H.
    + intros tr pl file P F T D St Miss Nd.
      split; [apply (miss_reaches_engine _ _ _ _ _ _ C P F T D St Miss Nd)|].
      rewrite (plan_encoder_quality _ _ _ _ C P), Hq. cbn [parseInt_default].
      now rewrite Hs.
  - intros -> s Hq Hs. rewrite Hs. do 2 (split; [reflexivity|]).
    split; [exact (accepts_size_NaN _ _ Hq Hs)|]. split.
    + rewrite derive_run by exact C. cbn [plan].
      destruct (thumbnail_plan (req_query req)) as [r|[t pl]] eqn:E.
      * exact (plan_size_NaN_rejected _ _ _ Hq Hs E).
      * intros m H.
        destruct (accepted_response Thumbnail t pl req w)
          as [(e & R)|[R|[(e & R)|(p & body & R)]]];
          cbv zeta in R; rewrite R in H; discriminate H.
    + intros tr pl file P F T D Miss Nd.
      assert (St : serves_stored Thumbnail tr file w = false).
      { cbn [plan] in P. unfold thumbnail_plan in P. rewrite Hq in P.
        cbn [parseInt_default] in P. rewrite Hs in P. cbn [lt gt orb] in P.
        destruct (lt _ 1 || gt _ 100); [discriminate|]. injection P as <- _.
        cbn [serves_stored]. destruct (present _); [|reflexivity].
        cbn [strict_eq]. apply andb_false_r. }
      split; [apply (miss_reaches_engine _ _ _ _ _ _ C P F T D St Miss Nd)|].
      exact (plan_size_NaN_accepted _ _ _ _ Hq Hs P).
Qed.

End NotANumber.

(** A quality and a size that are words, on the sample picture: the word
    reaches the engine. *)
Lemma non_numeric_parameter_witness :
  let resize := Sample.get 1 {| q_width := Some "100"; q_height := None;
                                q_quality := Some "abc"; q_format := None;
                                q_size := None; q_x := None; q_y := None |} in
  let thumbnail := Sample.get 1 (Sample.size_quality (Some "large") None) in
  (lt (parseInt "abc") 1 = false /\ gt (parseInt "abc") 100 = false /\
   accepts (host := Ref.host) Resize (req_query resize) = true /\
   (forall m, fst (fst (derive Resize resize Sample.uploaded))
              <> Json 400 "Invalid quality" m) /\
   In (EToFile "uploads/1/pic.png"
         {| pl_geometry := GResize (Some (Num 100)) None FitInside None true;
            pl_encoder := EJpeg NaN |}
         "uploads/1/cache/pic_100xauto_qNaN.jpeg")
     (snd (derive Resize resize Sample.uploaded))) /\
  (lt (parseInt "large") 50 = false /\ gt (parseInt "large") 1000 = false /\
   accepts (host := Ref.host) Thumbnail (req_query thumbnail) = true /\
   (forall m, fst (fst (derive Thumbnail thumbnail Sample.uploaded))
              <> Json 400 "Invalid size" m) /\
   In (EToFile "uploads/1/pic.png"
         {| pl_geometry := GResize (Some NaN) (Some NaN) FitCover (Some "center") false;
            pl_encoder := EJpeg (Num 80) |}
         "uploads/1/cache/pic_thumb_NaNxNaN_q80.jpg")
     (snd (derive Thumbnail thumbnail Sample.uploaded))).
Proof.
  cbv zeta. split.
  - destruct (proj1 (non_numeric_parameter_escapes_validation Resize
                       (Sample.get 1 {| q_width := Some "100"; q_height := None;
                                        q_quality := Some "abc"; q_format := None;
                                        q_size := None; q_x := None; q_y := None |})
                       Sample.uploaded eq_refl) "abc" eq_refl eq_refl)
      as (L & G & A & N & Reach).
    split; [exact L|]. split; [exact G|]. split; [reflexivity|]. split; [exact N|].
    refine (proj1 (Reach _ _ _ eq_refl eq_refl eq_refl _ eq_refl eq_refl _)).
    + eexists. reflexivity.
    + discriminate.
  - destruct (proj2 (non_numeric_parameter_escapes_validation Thumbnail
                       (Sample.get 1 (Sample.size_quality (Some "large") None))
                       Sample.uploaded eq_refl) eq_refl "large" eq_refl eq_refl)
      as (L & G & A & N & Reach).
    split; [exact L|]. split; [exact G|]. split; [reflexivity|]. split; [exact N|].
    refine (proj1 (Reach _ _ _ eq_refl eq_refl eq_refl _ eq_refl _)).
    + eexists. reflexivity.
    + discriminate.
Defined.

(** C9, as it is stated, where it fails.  A conversion of the sample
    picture to gif with a quality that is a word: the request is accepted
    and reaches the engine, but the word does not; the call chain is
    [.gif()], which takes no quality, the conversion succeeds, and [NaN] is
    in the name of the cache file only. *)
Lemma convert_to_gif_hands_no_quality :
  let req := Sample.get 1 {| q_width := None; q_height := None;
                             q_quality := Some "abc"; q_format := Some "gif";
                             q_size := None; q_x := None; q_y := None |} in
  parseInt "abc" = NaN /\
  snd (convertImage req Sample.uploaded)
  = [EFindById 1 1; EExists "uploads/1/pic.png"; EExists "uploads/1/cache";
     EMkdir "uploads/1/cache"; EExists "uploads/1/cache/pic_converted_qNaN.gif";
     EToFile "uploads/1/pic.png" {| pl_geometry := GNone; pl_encoder := EGif |}
       "uploads/1/cache/pic_converted_qNaN.gif"] /\
  encoder_quality EGif = None /\
  exists out,
    fst (fst (convertImage req Sample.uploaded))
    = SendFile "uploads/1/cache/pic_converted_qNaN.gif" (Some out) /\
    Ref.pic_format out = "gif".
Proof.
  cbv zeta. split; [reflexivity|]. split; [reflexivity|]. split; [reflexivity|].
  eexists. split; reflexivity.
Qed.

(** On the sample picture the word does reach the engine, which refuses it. *)
Example resize_quality_word_reaches_engine :
  let run := resizeImage
               (Sample.get 1 {| q_width := Some "100"; q_height := None;
                                q_quality := Some "abc"; q_format := None;
                                q_size := None; q_x := None; q_y := None |})
               Sample.uploaded in
  fst (fst run) = Json 500 "Image processing failed" (Some "Invalid quality") /\
  In (EToFile "uploads/1/pic.png"
        {| pl_geometry := GResize (Some (Num 100)) None FitInside None true;
           pl_encoder := EJpeg NaN |}
        "uploads/1/cache/pic_100xauto_qNaN.jpeg") (snd run).
Proof. cbv zeta. split; [reflexivity | in_trace]. Qed.

(** With [.gif()] the word is not even looked at: the conversion succeeds. *)
Example convert_gif_quality_word_succeeds :
  exists out,
    fst (fst (convertImage
                (Sample.get 1 {| q_width := None; q_height := None;
                                 q_quality := Some "abc"; q_format := Some "gif";
                                 q_size := None; q_x := None; q_y := None |})
                Sample.uploaded))
    = SendFile "uploads/1/cache/pic_converted_qNaN.gif" (Some out).
Proof. eexists. reflexivity. Qed.

(** ** The geometry of the engine *)

Section Geometry.

Lemma round_div_le a b c : 0 < b -> a <= c * b -> round_div a b <= c.
Proof.
  intros Hb H. unfold round_div.
  apply Z.lt_succ_r, Z.div_lt_upper_bound; lia.
Qed.

Lemma round_div_ge a b c : 0 < b -> c * b <= a -> c <= round_div a b.
Proof.
  intros Hb H. unfold round_div. apply Z.div_le_lower_bound; lia.
Qed.

(** Rounding moves the quotient by half a unit at most. *)
Lemma round_div_error a b : 0 < b -> 2 * Z.abs (round_div a b * b - a) <= b.
Proof.
  intros Hb. unfold round_div.
  pose proof (Z.mul_div_le (2 * a + b) (2 * b) ltac:(lia)) as L.
  pose proof (Z.mul_succ_div_gt (2 * a + b) (2 * b) ltac:(lia)) as U.
  lia.
Qed.

Lemma scaled_pos x from to : 1 <= scaled x from to.
Proof. unfold scaled. lia. Qed.

Lemma scaled_le x from to c :
  0 < from -> 1 <= c -> x * to <= c * from -> scaled x from to <= c.
Proof.
  intros Hf Hc H. unfold scaled.
  pose proof (round_div_le (x * to) from c Hf H). lia.
Qed.


(** The scaled side keeps the ratio up to one pixel. *)
Lemma scaled_error x from to :
  0 < from -> 0 <= x * to ->
  Z.abs (scaled x from to * from - x * to) <= from.
Proof.
  intros Hf Hx. unfold scaled.
  pose proof (round_div_error (x * to) from Hf) as E.
  pose proof (round_div_ge (x * to) from 0 Hf ltac:(lia)) as P.
  destruct (Z.max_spec 1 (round_div (x * to) from)) as [[L ->]|[L ->]]; [lia|].
  assert (round_div (x * to) from = 0 \/ round_div (x * to) from = 1) as [R|R]
    by lia; rewrite R in E; lia.
Qed.

(** Shrink-to-fit: inside the box, never larger than the source, same
    ratio, and the source itself when the box holds it. *)
Lemma inside_size_spec W H (w h : option Z) :
  1 <= W -> 1 <= H ->
  (forall a, w = Some a -> 1 <= a) -> (forall b, h = Some b -> 1 <= b) ->
  let '(ow, oh) := resize_size FitInside true W H w h in
  1 <= ow <= W /\ 1 <= oh <= H /\
  (forall a, w = Some a -> ow <= a) /\
  (forall b, h = Some b -> oh <= b) /\
  same_ratio W H ow oh /\
  ((forall a, w = Some a -> W <= a) -> (forall b, h = Some b -> H <= b) ->
   (ow, oh) = (W, H)).
Proof.
  intros HW HH Hw Hh. unfold same_ratio.
  assert (FW : forall a, 1 <= a -> (forall b, h = Some b -> H * a < W * b) ->
    let '(ow, oh) := fit_width true W H a in
    1 <= ow <= W /\ 1 <= oh <= H /\ ow <= a /\
    (forall b, h = Some b -> oh <= b) /\
    Z.abs (oh * W - ow * H) <= Z.max W H /\
    (W <= a -> (ow, oh) = (W, H))).
  { intros a Ha Hb. unfold fit_width. cbn [andb].
    destruct (Z.leb_spec W a) as [L|L].
    - repeat split; try lia. intros b Eb. specialize (Hb b Eb).
      specialize (Hh b Eb). nia.
    - pose proof (scaled_pos H W a) as P.
      pose proof (scaled_le H W a H ltac:(lia) HH ltac:(nia)) as U.
      pose proof (scaled_error H W a ltac:(lia) ltac:(nia)) as E.
      repeat split; try lia.
      intros b Eb. specialize (Hb b Eb). specialize (Hh b Eb).
      apply scaled_le; lia. }
  assert (FH : forall b, 1 <= b -> (forall a, w = Some a -> W * b <= H * a) ->
    let '(ow, oh) := fit_height true W H b in
    1 <= ow <= W /\ 1 <= oh <= H /\ oh <= b /\
    (forall a, w = Some a -> ow <= a) /\
    Z.abs (oh * W - ow * H) <= Z.max W H /\
    (H <= b -> (ow, oh) = (W, H))).
  { intros b Hb Ha. unfold fit_height. cbn [andb].
    destruct (Z.leb_spec H b) as [L|L].
    - repeat split; try lia. intros a Ea. specialize (Ha a Ea).
      specialize (Hw a Ea). nia.
    - pose proof (scaled_pos W H b) as P.
      pose proof (scaled_le W H b W ltac:(lia) HW ltac:(nia)) as U.
      pose proof (scaled_error W H b ltac:(lia) ltac:(nia)) as E.
      repeat split; try lia.
      intros a Ea. specialize (Ha a Ea). specialize (Hw a Ea).
      apply scaled_le; lia. }
  destruct w as [a|], h as [b|]; cbn [resize_size].
  - destruct (Z.ltb_spec (H * a) (W * b)) as [L|L].
    + specialize (FW a (Hw a eq_refl)). destruct (fit_width true W H a) as [ow oh].
      destruct FW as (? & ? & ? & Fb & ? & Fe); [intros ? [= <-]; exact L|].
      repeat split; try lia.
      * intros ? [= <-]. assumption.
      * intros ? [= <-]. apply Fb. reflexivity.
      * intros A _. apply Fe, A. reflexivity.
    + specialize (FH b (Hh b eq_refl)). destruct (fit_height true W H b) as [ow oh].
      destruct FH as (? & ? & ? & Fa & ? & Fe); [intros ? [= <-]; exact L|].
      repeat split; try lia.
      * intros ? [= <-]. apply Fa. reflexivity.
      * intros ? [= <-]. assumption.
      * intros _ B. apply Fe, B. reflexivity.
  - specialize (FW a (Hw a eq_refl)). destruct (fit_width true W H a) as [ow oh].
    destruct FW as (? & ? & ? & Fb & ? & Fe); [intros ? [=]|].
    repeat split; try lia.
    + intros ? [= <-]. assumption.
    + intros ? [=].
    + intros A _. apply Fe, A. reflexivity.
  - specialize (FH b (Hh b eq_refl)). destruct (fit_height true W H b) as [ow oh].
    destruct FH as (? & ? & ? & Fa & ? & Fe); [intros ? [=]|].
    repeat split; try lia.
    + intros ? [=].
    + intros ? [= <-]. assumption.
    + intros _ B. apply Fe, B. reflexivity.
  - repeat split; try lia; intros ? [=].
Qed.


Lemma dim_ok_val d a : dim_ok d = true -> dim_val d = Some a -> 1 <= a.
Proof.
  destruct d as [[|z]|]; cbn; try discriminate.
  intros P [= <-]. apply Z.ltb_lt in P. lia.
Qed.

(** What the engine accepts yields a picture of at least one pixel. *)
Lemma geometry_size_pos g W H :
  1 <= W -> 1 <= H -> geometry_ok g W H = true ->
  1 <= fst (geometry_size g W H) /\ 1 <= snd (geometry_size g W H).
Proof.
  intros HW HH G. destruct g as [|w h fit pos we|l t w h]; cbn in *.
  - lia.
  - apply andb_true_iff in G as [Gw Gh].
    pose proof (dim_ok_val w) as Pw. pose proof (dim_ok_val h) as Ph.
    destruct (dim_val w) as [a|], (dim_val h) as [b|]; cbn [resize_size];
      try specialize (Pw a Gw eq_refl); try specialize (Ph b Gh eq_refl);
      unfold fit_width, fit_height;
      repeat match goal with
             | |- context [if ?c then _ else _] => destruct c
             | |- context [match ?f with FitInside => _ | FitCover => _ end] =>
                 destruct f
             | |- context [scaled ?x ?y ?z] =>
                 lazymatch goal with
                 | _ : 1 <= scaled x y z |- _ => fail
                 | _ => pose proof (scaled_pos x y z)
                 end
             end; cbn [fst snd]; lia.
  - destruct l, t, w, h; try discriminate. cbn.
    repeat (apply andb_true_iff in G as [G ?]). lia.
Qed.

End Geometry.

(** ** The reference engine keeps the contract *)

Lemma Ref_image_size (p : Ref.Picture) :
  1 <= Ref.pic_width p -> 1 <= Ref.pic_height p ->
  @image_size Ref.host p = Some (Ref.pic_width p, Ref.pic_height p).
Proof.
  intros Hw Hh. unfold image_size. cbn. unfold Ref.engine_metadata, Ref.decodable.
  destruct (Z.leb_spec 1 (Ref.pic_width p)); [|lia].
  destruct (Z.leb_spec 1 (Ref.pic_height p)); [|lia]. reflexivity.
Qed.

Lemma Ref_sharp_geometry : @sharp_geometry Ref.host.
Proof.
  intros pl src out H. cbn in H. unfold Ref.engine in H.
  destruct (Ref.decodable src) eqn:D; cbn in H; [|discriminate].
  destruct (geometry_ok _ _ _) eqn:G; cbn in H; [|discriminate].
  destruct (Ref.encoder_ok _); cbn in H; [|discriminate].
  unfold Ref.decodable in D. apply andb_true_iff in D as [Dw Dh].
  apply Z.leb_le in Dw, Dh.
  pose proof (geometry_size_pos _ _ _ Dw Dh G) as [Pw Ph].
  destruct (geometry_size _ _ _) as [gw gh] eqn:S. injection H as <-.
  exists (Ref.pic_width src), (Ref.pic_height src).
  rewrite Ref_image_size by assumption.
  repeat split; try assumption.
  rewrite S. apply Ref_image_size; assumption.
Qed.

(** ** The disk under the shared steps *)

Section Disk.
Context `{host : Host}.

Lemma with_cacheDir_db dir w : db (with_cacheDir dir w) = db w.
Proof. unfold with_cacheDir. destruct (bool_decide _); reflexivity. Qed.

Lemma with_cacheDir_there dir w : is_Some (fs (with_cacheDir dir w) !! dir).
Proof.
  unfold with_cacheDir. destruct (bool_decide (is_Some (fs w !! dir))) eqn:E.
  - apply bool_decide_eq_true in E. exact E.
  - cbn. rewrite lookup_insert_eq. eauto.
Qed.

(** Creating the cache directory leaves what is on the disk as it is. *)
Lemma with_cacheDir_keeps dir w p n :
  fs w !! p = Some n -> fs (with_cacheDir dir w) !! p = Some n.
Proof.
  intros H. unfold with_cacheDir.
  destruct (bool_decide (is_Some (fs w !! dir))) eqn:E; [exact H|].
  apply bool_decide_eq_false in E. cbn.
  rewrite lookup_insert_ne; [exact H|]. intros ->. apply E. eauto.
Qed.

Lemma with_cacheDir_other dir w p :
  p <> dir -> fs (with_cacheDir dir w) !! p = fs w !! p.
Proof.
  intros N. unfold with_cacheDir. destruct (bool_decide _); [reflexivity|].
  cbn. apply lookup_insert_ne. congruence.
Qed.

(** The only path it can add is the directory. *)
Lemma with_cacheDir_new dir w p :
  fs w !! p = None -> is_Some (fs (with_cacheDir dir w) !! p) ->
  p = dir /\ fs (with_cacheDir dir w) !! p = Some Dir.
Proof.
  intros A [n H]. unfold with_cacheDir in *.
  destruct (bool_decide (is_Some (fs w !! dir))); [congruence|]. cbn in *.
  destruct (decide (dir = p)) as [->|N].
  - rewrite lookup_insert_eq in *. auto.
  - rewrite lookup_insert_ne in H by exact N. congruence.
Qed.

Lemma with_cacheDir_idem dir w :
  is_Some (fs w !! dir) -> with_cacheDir dir w = w.
Proof.
  intros H. unfold with_cacheDir. now rewrite bool_decide_eq_true_2.
Qed.

Lemma read_Some w p b : read w p = Some b <-> fs w !! p = Some (File b).
Proof.
  unfold read. destruct (fs w !! p) as [[b'|]|]; split; congruence.
Qed.

Lemma read_with_cacheDir dir w p b :
  read (with_cacheDir dir w) p = Some b <-> read w p = Some b.
Proof.
  rewrite !read_Some. split; [|apply with_cacheDir_keeps].
  intros H. destruct (fs w !! p) as [n|] eqn:E.
  - rewrite (with_cacheDir_keeps dir w p n E) in H. exact H.
  - destruct (with_cacheDir_new dir w p E) as [_ D]; [eauto | congruence].
Qed.

(** A cache hit: the directory and the file are there. *)
Lemma serve_hit file t pl w b :
  is_Some (fs w !! cacheDir_of file) ->
  read w (cachePath_of file t) = Some b ->
  serve_or_generate file t pl w =
  (Next (SendFile (cachePath_of file t) (Some b)), w,
   [EExists (cacheDir_of file); EExists (cachePath_of file t)]).
Proof.
  intros D R. rewrite serve_or_generate_run. cbv zeta.
  rewrite (with_cacheDir_idem _ _ D). unfold cacheDir_events.
  rewrite (bool_decide_eq_true_2 _ D).
  apply read_Some in R as F.
  rewrite bool_decide_eq_true_2 by (rewrite F; eauto).
  rewrite R. reflexivity.
Qed.

(** What a call that sends a file has done: it found the file in the
    cache, or it had the engine write it there. *)
Lemma serve_sent file t pl w p b w1 t1 :
  serve_or_generate file t pl w = (Next (SendFile p (Some b)), w1, t1) ->
  p = cachePath_of file t /\
  is_Some (fs w1 !! cacheDir_of file) /\
  read w1 (cachePath_of file t) = Some b /\
  ((w1 = with_cacheDir (cacheDir_of file) w /\ engine_calls t1 = 0%nat)
   \/ (fs (with_cacheDir (cacheDir_of file) w) !! cachePath_of file t = None /\
       (exists src, read w (row_path file) = Some src /\ sharp pl src = inr b) /\
       w1 = {| db := db w;
               fs := <[cachePath_of file t := File b]>
                       (fs (with_cacheDir (cacheDir_of file) w)) |} /\
       engine_calls t1 = 1%nat /\
       In (EToFile (row_path file) pl (cachePath_of file t)) t1)).
Proof.
  rewrite serve_or_generate_run. cbv zeta.
  pose proof (with_cacheDir_there (cacheDir_of file) w) as D.
  set (w0 := with_cacheDir (cacheDir_of file) w) in *.
  destruct (bool_decide (is_Some (fs w0 !! cachePath_of file t))) eqn:E.
  - intros [= <- R <- <-]. repeat split; auto.
    left. split; [reflexivity|].
    destruct (bool_decide (is_Some (fs w !! cacheDir_of file))); reflexivity.
  - apply bool_decide_eq_false in E.
    destruct (read w0 (row_path file)) as [src|] eqn:R; [|discriminate].
    destruct (sharp pl src) as [e|out] eqn:S; [discriminate|].
    intros [= <- <- <- <-]. cbn [fs]. repeat split.
    + destruct (decide (cachePath_of file t = cacheDir_of file)) as [->|N].
      * rewrite lookup_insert_eq. eauto.
      * rewrite lookup_insert_ne by exact N. exact D.
    + apply read_Some. cbn. apply lookup_insert_eq.
    + right. repeat split.
      * destruct (fs w0 !! cachePath_of file t) eqn:L; [|reflexivity].
        destruct E. eauto.
      * exists src. split; [|exact S]. apply (read_with_cacheDir (cacheDir_of file)), R.
      * unfold w0. now rewrite with_cacheDir_db.
      * destruct (bool_decide (is_Some (fs w !! cacheDir_of file))); reflexivity.
      * destruct (bool_decide (is_Some (fs w !! cacheDir_of file))); cbn; auto.
Qed.

End Disk.

(** ** Asking twice *)

Section Twice.
Context `{host : Host}.

(** A request that is answered with a file was accepted, its record is an
    image on the disk, and [answer] sent the file. *)
Lemma derive_sent op req w p b w1 t1 :
  caching op = true ->
  derive op req w = (SendFile p (Some b), w1, t1) ->
  exists tr pl file ta,
    plan op (req_query req) = inr (tr, pl) /\
    List.find (row_matches (req_id req) (req_user req)) (db w) = Some file /\
    String.eqb (row_file_type file) "image" = true /\
    is_Some (fs w !! row_path file) /\
    answer op tr pl file w = (Next (SendFile p (Some b)), w1, ta) /\
    t1 = [EFindById (req_id req) (req_user req); EExists (row_path file)] ++ ta.
Proof.
  intros C. rewrite derive_run by exact C.
  destruct (plan op (req_query req)) as [r|[tr pl]] eqn:P.
  { destruct (plan_rejection _ _ _ P) as (e & m & -> & _). discriminate. }
  rewrite resolved_run. cbv zeta.
  destruct (List.find _ (db w)) as [file|]; [|discriminate].
  destruct (String.eqb (row_file_type file) "image") eqn:T; [|discriminate].
  cbn [negb].
  destruct (bool_decide (is_Some (fs w !! row_path file))) eqn:D; [|discriminate].
  apply bool_decide_eq_true in D.
  pose proof (answer_outcome op tr pl file w) as O.
  destruct (answer op tr pl file w) as [[o w'] ta] eqn:A. cbn [fst snd finish] in *.
  destruct O as [(p' & body & ->)|(e & ->)]; [|discriminate].
  intros E. injection E as -> -> -> <-.
  exists tr, pl, file, ta. auto 10.
Qed.

Lemma derive_answered op req w tr pl file r w1 ta :
  caching op = true ->
  plan op (req_query req) = inr (tr, pl) ->
  List.find (row_matches (req_id req) (req_user req)) (db w) = Some file ->
  String.eqb (row_file_type file) "image" = true ->
  is_Some (fs w !! row_path file) ->
  answer op tr pl file w = (Next r, w1, ta) ->
  derive op req w =
  (r, w1, [EFindById (req_id req) (req_user req); EExists (row_path file)] ++ ta).
Proof.
  intros C P F T D A. rewrite derive_run by exact C. rewrite P, resolved_run.
  cbv zeta. rewrite F, T. cbn [negb]. rewrite (bool_decide_eq_true_2 _ D), A.
  reflexivity.
Qed.

Lemma serve_again file tr pl w p b w1 ta :
  serve_or_generate file tr pl w = (Next (SendFile p (Some b)), w1, ta) ->
  p = cachePath_of file tr /\
  db w1 = db w /\
  (forall q, is_Some (fs w !! q) -> is_Some (fs w1 !! q)) /\
  (forall q, is_Some (fs w1 !! q) ->
             is_Some (fs w !! q) \/ q = cacheDir_of file \/ q = cachePath_of file tr) /\
  read w1 p = Some b /\
  engine_calls ta = calls_for w p /\
  serve_or_generate file tr pl w1 =
  (Next (SendFile p (Some b)), w1,
   [EExists (cacheDir_of file); EExists (cachePath_of file tr)]).
Proof.
  intros H. destruct (serve_sent _ _ _ _ _ _ _ _ H) as (-> & D & R & Cases).
  split; [reflexivity|].
  assert (K0 : forall q, is_Some (fs w !! q) ->
                         is_Some (fs (with_cacheDir (cacheDir_of file) w) !! q)).
  { intros q [n Q]. rewrite (with_cacheDir_keeps _ _ _ _ Q). eauto. }
  assert (N0 : forall q, is_Some (fs (with_cacheDir (cacheDir_of file) w) !! q) ->
                         is_Some (fs w !! q) \/ q = cacheDir_of file).
  { intros q Q. destruct (fs w !! q) eqn:E; [eauto|].
    right. apply (with_cacheDir_new _ _ _ E Q). }
  destruct Cases as [[-> E]|(A & (src & Rs & S) & -> & E & _)].
  - rewrite with_cacheDir_db. repeat split; auto.
    + intros q Q. destruct (N0 q Q); auto.
    + rewrite E. unfold calls_for.
      apply read_with_cacheDir in R. now rewrite R.
    + apply serve_hit; assumption.
  - cbn [db fs] in *. repeat split; auto.
    + intros q Q. apply lookup_insert_is_Some'. right. auto.
    + intros q Q. apply lookup_insert_is_Some' in Q as [<-|Q]; [auto|].
      destruct (N0 q Q); auto.
    + rewrite E. unfold calls_for.
      destruct (read w (cachePath_of file tr)) as [b'|] eqn:R'; [|reflexivity].
      apply (read_with_cacheDir (cacheDir_of file)), read_Some in R'. congruence.
    + apply serve_hit; assumption.
Qed.

Lemma answer_again op tr pl file w p b w1 ta :
  row_thumbnail_path file <> Some (cacheDir_of file) ->
  answer op tr pl file w = (Next (SendFile p (Some b)), w1, ta) ->
  db w1 = db w /\
  (forall q, is_Some (fs w !! q) -> is_Some (fs w1 !! q)) /\
  engine_calls ta = calls_for w p /\
  exists tb,
    answer op tr pl file w1 = (Next (SendFile p (Some b)), w1, tb) /\
    engine_calls tb = 0%nat.
Proof.
  intros Hthumb. rewrite !answer_run.
  assert (G : forall ta',
    serve_or_generate file tr pl w = (Next (SendFile p (Some b)), w1, ta') ->
    db w1 = db w /\
    (forall q, is_Some (fs w !! q) -> is_Some (fs w1 !! q)) /\
    engine_calls ta' = calls_for w p /\
    exists tb,
      serve_or_generate file tr pl w1 = (Next (SendFile p (Some b)), w1, tb) /\
      engine_calls tb = 0%nat).
  { intros ta' H. destruct (serve_again _ _ _ _ _ _ _ _ H)
      as (_ & Hdb & K & _ & _ & E & Again).
    repeat split; auto. eexists. split; [exact Again | reflexivity]. }
  destruct op, tr; try apply G.
  destruct (present (row_thumbnail_path file)) as [tp|] eqn:Ptp; [|apply G].
  assert (Etp : row_thumbnail_path file = Some tp).
  { unfold present in Ptp. destruct (truthy_str _); [exact Ptp | discriminate]. }
  destruct (bool_decide (is_Some (fs w !! tp)) && strict_eq s 300) eqn:Cw.
  - intros [= <- R <- <-]. rewrite Cw. repeat split; auto.
    + unfold calls_for. now rewrite R.
    + eexists. split; [rewrite R; reflexivity | reflexivity].
  - unfold after at 1.
    destruct (serve_or_generate file (TThumbnail s q) pl w) as [[o w'] t'] eqn:S.
    intros [= -> -> <-].
    destruct (serve_again _ _ _ _ _ _ _ _ S) as (-> & Hdb & K & N & R & E & Again).
    repeat split; auto.
    destruct (bool_decide (is_Some (fs w1 !! tp)) && strict_eq s 300) eqn:Cw1.
    + apply andb_true_iff in Cw1 as [I1 S300]. apply bool_decide_eq_true in I1.
      rewrite S300, andb_true_r in Cw. apply bool_decide_eq_false in Cw.
      destruct (N tp I1) as [I|[->| ->]]; [contradiction|congruence|].
      rewrite R. eexists. split; reflexivity.
    + rewrite Again. eexists. split; reflexivity.
Qed.

(** C1, as it holds.  When a caching request has been answered with a file,
    the same request is answered again with the same path and the same
    bytes, without any engine call and without a change to the world.  Over
    the two calls the engine runs once if the file was not on the disk
    before, and not at all if it was: in the cache already or, for a
    thumbnail of size 300, as the thumbnail stored at upload. *)
Theorem derive_twice (op : Operation) (req : Req) (w w1 : World)
  (p : string) (b : Bytes) (t1 : list Event) :
  caching op = true ->
  (forall file, In file (db w) -> row_thumbnail_path file <> Some (cacheDir_of file)) ->
  derive op req w = (SendFile p (Some b), w1, t1) ->
  exists t2,
    derive op req w1 = (SendFile p (Some b), w1, t2) /\
    engine_calls t2 = 0%nat /\
    engine_calls (t1 ++ t2) = calls_for w p.
Proof.
  intros C Hthumb H.
  destruct (derive_sent _ _ _ _ _ _ _ C H) as (tr & pl & file & ta & P & F & T & D & A & ->).
  assert (Hfile : row_thumbnail_path file <> Some (cacheDir_of file)).
  { apply Hthumb. apply (List.find_some _ _ F). }
  destruct (answer_again _ _ _ _ _ _ _ _ _ Hfile A) as (Hdb & K & E & tb & A2 & E2).
  exists ([EFindById (req_id req) (req_user req); EExists (row_path file)] ++ tb).
  split; [|split].
  - apply (derive_answered op req w1 tr pl file);
      [exact C | exact P | rewrite Hdb; exact F | exact T | apply K, D | exact A2].
  - rewrite engine_calls_app, E2. reflexivity.
  - rewrite !engine_calls_app, E, E2. cbn. lia.
Qed.

End Twice.

(** A run is its answer, its world and its trace. *)
Lemma run_with_answer {A B C} (x : A * B * C) (a : A) :
  fst (fst x) = a -> x = (a, snd (fst x), snd x).
Proof. destruct x as [[a' b] c]. cbn. now intros ->. Qed.

(** A width of 100 for the sample picture, asked twice. *)
Lemma derive_twice_witness :
  let req := Sample.get 1 (Sample.width_height (Some "100") None) in
  let first := derive Resize req Sample.uploaded in
  let p := "uploads/1/cache/pic_100xauto_q80.jpeg" in
  let b : @Bytes Ref.host :=
           {| Ref.pic_width := 100; Ref.pic_height := 50; Ref.pic_format := "jpeg";
              Ref.pic_origin := 1;
              Ref.pic_steps :=
                [resize_pipeline (Some (Num 100)) None (Num 80) None] |} in
  exists t2,
    derive Resize req (snd (fst first)) = (SendFile p (Some b), snd (fst first), t2) /\
    engine_calls t2 = 0%nat /\
    engine_calls (snd first ++ t2) = calls_for Sample.uploaded p.
Proof.
  cbv zeta.
  apply (derive_twice Resize (Sample.get 1 (Sample.width_height (Some "100") None))
           Sample.uploaded).
  - reflexivity.
  - intros file Hin. vm_compute in Hin. destruct Hin as [<-|[]].
    vm_compute. discriminate.
  - apply run_with_answer. reflexivity.
Defined.

(** C1, as it is stated, where it fails.  The sample picture has just been
    uploaded and nothing is cached; the thumbnail of the default size is
    asked twice.  Both calls succeed with the same bytes, and the engine is
    not called once: the file sent is the thumbnail stored at upload. *)
Lemma derive_twice_without_engine :
  let req := Sample.get 1 Sample.no_query in
  let first := derive Thumbnail req Sample.uploaded in
  let second := derive Thumbnail req (snd (fst first)) in
  fs Sample.uploaded !! "uploads/1/cache" = None /\
  size (fs Sample.uploaded) = 2%nat /\
  (exists b,
      fst (fst first) = SendFile "uploads/1/pic_thumb.jpg" (Some b) /\
      fst (fst second) = SendFile "uploads/1/pic_thumb.jpg" (Some b)) /\
  engine_calls (snd first ++ snd second) = 0%nat /\
  engine_calls (snd first ++ snd second) <> 1%nat.
Proof.
  cbv zeta. split; [reflexivity|]. split; [reflexivity|].
  split; [eexists; split; reflexivity|].
  split; [reflexivity | vm_compute; discriminate].
Qed.

(** ** What the engine is asked for, and what it yields *)

Section Generated.
Context `{host : Host}.




End Generated.





(** A box of 200 x 200 yields 200 x 100 from the sample picture. *)
Example resize_inside_box :
  exists out,
    fst (fst (resizeImage (Sample.get 1 (Sample.width_height (Some "200") (Some "200")))
                Sample.uploaded))
    = SendFile "uploads/1/cache/pic_200x200_q80.jpeg" (Some out) /\
    (Ref.pic_width out, Ref.pic_height out) = (200, 100).
Proof. eexists. split; reflexivity. Qed.

(** ** Cropping outside the picture *)

Section CropOutside.
Context `{host : Host}.

(** Every run of an accepted request starts with the lookup of the record. *)
Lemma accepted_trace op tr pl req w :
  exists t',
    snd (handle (label op)
           (file <- resolve_image req (only op) ;; answer op tr pl file) w)
    = EFindById (req_id req) (req_user req) :: t'.
Proof.
  rewrite resolved_run. cbv zeta.
  destruct (List.find _ (db w)) as [file|]; [|cbn; eauto].
  destruct (negb _); [cbn; eauto|].
  destruct (bool_decide _); [|cbn; eauto].
  destruct (answer op tr pl file w) as [[o w1] t1]. cbn. eauto.
Qed.

(** C7.  Crop parameters with [x, y >= 0] and [width, height >= 1] (and an
    accepted quality) pass the validation whatever the source is: the handler
    goes on to look up the record.  When the region then reaches beyond the
    decoded size of the source, and no file is cached under the name of the
    request, the engine is called, it fails, and the answer is the 500
    'Image cropping failed' of the handler's [catch], not a 400. *)
Theorem crop_outside_is_processing_failure
  (req : Req) (w : World) (sx sy sw sh : string) (x y cw ch : Z) :
  sharp_geometry ->
  q_x (req_query req) = Some sx -> parseInt sx = Num x -> 0 <= x ->
  q_y (req_query req) = Some sy -> parseInt sy = Num y -> 0 <= y ->
  q_width (req_query req) = Some sw -> parseInt sw = Num cw -> 1 <= cw ->
  q_height (req_query req) = Some sh -> parseInt sh = Num ch -> 1 <= ch ->
  lt (parseInt_default (q_quality (req_query req)) 80) 1
  || gt (parseInt_default (q_quality (req_query req)) 80) 100 = false ->
  let tr := TCrop (Num x) (Num y) (Num cw) (Num ch)
              (parseInt_default (q_quality (req_query req)) 80) in
  (exists t', snd (cropImage req w) = EFindById (req_id req) (req_user req) :: t') /\
  (forall file src W H,
      List.find (row_matches (req_id req) (req_user req)) (db w) = Some file ->
      row_file_type file = "image" ->
      read w (row_path file) = Some src ->
      image_size src = Some (W, H) ->
      W < x + cw \/ H < y + ch ->
      fs w !! cachePath_of file tr = None ->
      cachePath_of file tr <> cacheDir_of file ->
      (exists e, fst (fst (cropImage req w))
                 = Json 500 "Image cropping failed" (Some e)) /\
      In (EToFile (row_path file)
            (crop_pipeline (Num x) (Num y) (Num cw) (Num ch)
               (parseInt_default (q_quality (req_query req)) 80))
            (cachePath_of file tr)) (snd (cropImage req w))).
Proof.
  intros Contract Qx Px Hx Qy Py Hy Qw Pw Hw Qh Ph Hh Q tr.
  assert (NE : forall s z, parseInt s = Num z -> present (Some s) = Some s).
  { intros s z E. destruct s; [discriminate E | reflexivity]. }
  assert (P : plan Crop (req_query req)
              = inr (tr, crop_pipeline (Num x) (Num y) (Num cw) (Num ch)
                           (parseInt_default (q_quality (req_query req)) 80))).
  { cbn [plan]. unfold crop_plan.
    rewrite Qx, Qy, Qw, Qh, (NE _ _ Px), (NE _ _ Py), (NE _ _ Pw), (NE _ _ Ph).
    rewrite Px, Py, Pw, Ph, Q. cbn [lt].
    destruct (Z.ltb_spec x 0); [lia|]. destruct (Z.ltb_spec y 0); [lia|].
    destruct (Z.ltb_spec cw 1); [lia|]. destruct (Z.ltb_spec ch 1); [lia|].
    reflexivity. }
  change (cropImage req w) with (derive Crop req w).
  rewrite derive_run by reflexivity. rewrite P.
  split; [apply accepted_trace|].
  intros file src W H F T R I Out Miss Ndir.
  rewrite resolved_run. cbv zeta. rewrite F, T. cbn [String.eqb negb].
  apply read_Some in R as Rfs.
  rewrite bool_decide_eq_true_2 by (rewrite Rfs; eauto).
  rewrite answer_run. cbn [label]. rewrite serve_or_generate_run. cbv zeta.
  rewrite (with_cacheDir_other _ _ _ Ndir), Miss.
  rewrite bool_decide_eq_false_2 by (intros [? ?]; discriminate).
  rewrite (proj2 (read_with_cacheDir _ _ _ _) R).
  destruct (sharp _ src) as [e|out] eqn:Sh.
  - cbn [finish fst snd]. split; [eauto|].
    apply in_or_app. right. apply in_or_app. right. right. left. reflexivity.
  - destruct (Contract _ _ _ Sh) as (W' & H' & I' & _ & _ & Ok & _).
    rewrite I in I'. injection I' as <- <-. cbn in Ok.
    repeat (apply andb_true_iff in Ok as [Ok ?]).
    repeat match goal with
           | B : (_ <=? _) = true |- _ => apply Z.leb_le in B
           end. lia.
Qed.

End CropOutside.

(** The region 800..1200 x 0..100 of the sample picture of 1000 x 500. *)
Lemma crop_outside_witness :
  let req := Sample.get 1 (Sample.region "800" "0" "400" "100") in
  (exists t', snd (cropImage req Sample.uploaded) = EFindById 1 1 :: t') /\
  (exists e, fst (fst (cropImage req Sample.uploaded))
             = Json 500 "Image cropping failed" (Some e)) /\
  In (EToFile "uploads/1/pic.png"
        (crop_pipeline (Num 800) (Num 0) (Num 400) (Num 100) (Num 80))
        "uploads/1/cache/pic_crop_800_0_400_100_q80.jpg")
     (snd (cropImage req Sample.uploaded)).
Proof.
  cbv zeta.
  destruct (crop_outside_is_processing_failure (host := Ref.host)
              (Sample.get 1 (Sample.region "800" "0" "400" "100")) Sample.uploaded
              "800" "0" "400" "100" 800 0 400 100 Ref_sharp_geometry)
    as [Passes Fails]; try reflexivity; try lia.
  split; [exact Passes|].
  pose (file := {| row_id := 1; row_user_id := 1; row_filename := "pic.png";
                   row_original_name := "holiday.png";
                   row_path := "uploads/1/pic.png"; row_size := 48213;
                   row_mime_type := "image/png"; row_file_type := "image";
                   row_thumbnail_path := Some "uploads/1/pic_thumb.jpg" |}).
  apply (Fails file Sample.photo 1000 500).
  - reflexivity.
  - reflexivity.
  - reflexivity.
  - reflexivity.
  - lia.
  - reflexivity.
  - vm_compute. discriminate.
Defined.

(** On the sample picture: the answer, and the region that lies within. *)
Example crop_outside_sample :
  fst (fst (cropImage (Sample.get 1 (Sample.region "800" "0" "400" "100"))
              Sample.uploaded))
  = Json 500 "Image cropping failed" (Some "Invalid geometry").
Proof. reflexivity. Qed.

Example crop_inside_sample :
  exists out,
    fst (fst (cropImage (Sample.get 1 (Sample.region "0" "0" "500" "250"))
                Sample.uploaded))
    = SendFile "uploads/1/cache/pic_crop_0_0_500_250_q80.jpg" (Some out) /\
    (Ref.pic_width out, Ref.pic_height out) = (500, 250).
Proof. eexists. split; reflexivity. Qed.

(** ** What an answer depends on *)

Section Footprint.
Context `{host : Host}.


Lemma read_agree w w' q : fs w !! q = fs w' !! q -> read w q = read w' q.
Proof. unfold read. now intros ->. Qed.






End Footprint.



(** ** Deleting an asset *)

Section Deletion.
Context `{host : Host}.

Lemma File_delete_run id user w :
  File_delete id user w =
  match List.find (row_owned id user) (db w) with
  | None => (Next None, w, [EDelete id user])
  | Some file =>
      (Next (Some (true, file)),
       {| db := List.filter (fun r => negb (row_owned id user r)) (db w);
          fs := fs w |},
       [EDelete id user])
  end.
Proof.
  unfold File_delete, bind, emit, get_world, set_db, ret. cbn.
  destruct (List.find _ (db w)) as [file|] eqn:F; [|reflexivity]. cbn.
  apply List.find_some in F as [Hin Hown].
  assert (In file (List.filter (row_owned id user) (db w))) as Hf
    by (apply List.filter_In; auto).
  destruct (List.filter (row_owned id user) (db w)); [destruct Hf | reflexivity].
Qed.

Lemma removed_among_refl ps f : removed_among ps f f.
Proof. intros q. auto. Qed.

Lemma removed_among_trans ps f1 f2 f3 :
  removed_among ps f1 f2 -> removed_among ps f2 f3 -> removed_among ps f1 f3.
Proof.
  intros A B q. destruct (A q) as [A1 A2], (B q) as [B1 B2]. split.
  - intros N. now rewrite B1, A1.
  - auto.
Qed.

Lemma removed_among_delete ps f q : In q ps -> removed_among ps f (delete q f).
Proof.
  intros Hq p. split.
  - intros N. apply lookup_delete_ne. congruence.
  - intros n H. apply lookup_delete_Some in H. tauto.
Qed.

Lemma unlink_if_exists_frame ps p w :
  (forall q, p = Some q -> In q ps) ->
  db (snd (fst (unlink_if_exists p w))) = db w /\
  removed_among ps (fs w) (fs (snd (fst (unlink_if_exists p w)))) /\
  unlink_events ps (snd (unlink_if_exists p w)) /\
  (fst (fst (unlink_if_exists p w)) = Next tt
   \/ exists e, fst (fst (unlink_if_exists p w)) = Throw e).
Proof.
  intros Hp.
  assert (Idle : db w = db w /\ removed_among ps (fs w) (fs w) /\
                 unlink_events ps [] /\
                 (@Next host unit tt = Next tt
                  \/ exists e, @Next host unit tt = Throw e)).
  { repeat apply conj; auto using removed_among_refl. intros e []. }
  unfold unlink_if_exists, present.
  destruct p as [q|]; cbn [truthy_str]; [|exact Idle].
  destruct q as [|c q]; [exact Idle|].
  specialize (Hp _ eq_refl). set (path := String c q) in *.
  assert (Ev : forall t, (forall e, In e t -> e = EExists path \/ e = EUnlink path) ->
                         unlink_events ps t).
  { intros t Ht e He. exists path. auto. }
  unfold existsSync, unlinkSync, bind, emit, get_world, set_fs, ret, throw. cbn.
  destruct (bool_decide (is_Some (fs w !! path))); cbn.
  - destruct (fs w !! path) as [[b|]|]; cbn;
      (split; [reflexivity|]);
      (split; [auto using removed_among_refl, removed_among_delete|]);
      (split; [apply Ev; intros e [<-|[<-|[]]]; auto | eauto]).
  - split; [reflexivity|]. split; [apply removed_among_refl|].
    split; [apply Ev; intros e [<-|[]]; auto | auto].
Qed.

(** C8.  A deletion that succeeds removes from the disk nothing but the
    file of the record and the thumbnail stored with it: every other path,
    so the cache directory and every file in it, holds what it held, nothing
    is created or overwritten, and neither a directory is made nor the
    engine called.  The derivatives of the deleted asset stay on the disk
    with their bytes. *)
Theorem deleteFile_leaves_cache (req : Req) (w w1 : World) (t : list Event) :
  deleteFile req w = (Message 200 "File deleted successfully", w1, t) ->
  exists file,
    List.find (row_owned (req_id req) (req_user req)) (db w) = Some file /\
    (forall p, p <> row_path file -> row_thumbnail_path file <> Some p ->
               fs w1 !! p = fs w !! p) /\
    (forall p n, fs w1 !! p = Some n -> fs w !! p = Some n) /\
    (forall e, In e t ->
               e = EDelete (req_id req) (req_user req) \/
               exists p, (p = row_path file \/ row_thumbnail_path file = Some p) /\
                         (e = EExists p \/ e = EUnlink p)) /\
    (forall tr,
        cachePath_of file tr <> row_path file ->
        row_thumbnail_path file <> Some (cachePath_of file tr) ->
        read w1 (cachePath_of file tr) = read w (cachePath_of file tr)) /\
    (cacheDir_of file <> row_path file ->
     row_thumbnail_path file <> Some (cacheDir_of file) ->
     fs w1 !! cacheDir_of file = fs w !! cacheDir_of file).
Proof.
  unfold deleteFile, handle. unfold bind at 1. rewrite File_delete_run.
  destruct (List.find _ (db w)) as [file|] eqn:F; [|discriminate].
  set (w0 := {| db := _; fs := fs w |}).
  set (ps := row_path file :: match row_thumbnail_path file with
                              | Some tp => [tp]
                              | None => []
                              end).
  assert (In1 : forall q, Some (row_path file) = Some q -> In q ps).
  { intros q [= <-]. left. reflexivity. }
  assert (In2 : forall q, row_thumbnail_path file = Some q -> In q ps).
  { intros q E. unfold ps. rewrite E. right. left. reflexivity. }
  assert (Inv : forall q, In q ps ->
                          q = row_path file \/ row_thumbnail_path file = Some q).
  { intros q [<-|Hq]; [auto|]. right.
    destruct (row_thumbnail_path file) as [tp|]; [|destruct Hq].
    destruct Hq as [<-|[]]. reflexivity. }
  pose proof (unlink_if_exists_frame ps (Some (row_path file)) w0 In1)
    as (D1 & R1 & E1 & O1).
  unfold bind, try_catch.
  destruct (unlink_if_exists (Some (row_path file)) w0) as [[o1 wa] ta].
  cbn [fst snd] in *.
  assert (Sum : forall wb tb,
             removed_among ps (fs w) (fs wb) -> unlink_events ps tb ->
             (Message 200 "File deleted successfully", wb,
              [EDelete (req_id req) (req_user req)] ++ tb ++ [])
             = (Message 200 "File deleted successfully", w1, t) ->
             exists file0,
               Some file = Some file0 /\
               (forall p, p <> row_path file0 -> row_thumbnail_path file0 <> Some p ->
                          fs w1 !! p = fs w !! p) /\
               (forall p n, fs w1 !! p = Some n -> fs w !! p = Some n) /\
               (forall e, In e t ->
                          e = EDelete (req_id req) (req_user req) \/
                          exists p, (p = row_path file0
                                     \/ row_thumbnail_path file0 = Some p) /\
                                    (e = EExists p \/ e = EUnlink p)) /\
               (forall tr,
                   cachePath_of file0 tr <> row_path file0 ->
                   row_thumbnail_path file0 <> Some (cachePath_of file0 tr) ->
                   read w1 (cachePath_of file0 tr) = read w (cachePath_of file0 tr)) /\
               (cacheDir_of file0 <> row_path file0 ->
                row_thumbnail_path file0 <> Some (cacheDir_of file0) ->
                fs w1 !! cacheDir_of file0 = fs w !! cacheDir_of file0)).
  { intros wb tb R E [= <- <-]. exists file. split; [reflexivity|].
    assert (Frame : forall p, p <> row_path file ->
                              row_thumbnail_path file <> Some p ->
                              fs wb !! p = fs w !! p).
    { intros p N1 N2. apply R. intros Hp. destruct (Inv p Hp); contradiction. }
    repeat split.
    - exact Frame.
    - intros p n. apply R.
    - intros e [<-|He]; [auto|]. right. rewrite app_nil_r in He.
      destruct (E e He) as (q & Hq & He'). exists q. auto.
    - intros tr N1 N2. apply read_agree, Frame; assumption.
    - apply Frame. }
  destruct O1 as [->|[e ->]].
  - pose proof (unlink_if_exists_frame ps (row_thumbnail_path file) wa In2)
      as (D2 & R2 & E2 & O2).
    destruct (unlink_if_exists (row_thumbnail_path file) wa) as [[o2 wb] tb].
    cbn [fst snd] in *.
    assert (R : removed_among ps (fs w) (fs wb))
      by (eapply removed_among_trans; eassumption).
    assert (E : unlink_events ps (ta ++ tb)).
    { intros e He. apply in_app_or in He as [He|He]; auto. }
    destruct O2 as [->|[e ->]]; cbn; intros H; apply (Sum wb (ta ++ tb) R E);
      rewrite <- H; cbn; now rewrite ?app_nil_r.
  - cbn. intros H. apply (Sum wa ta R1 E1). rewrite <- H. cbn.
    now rewrite ?app_nil_r.
Qed.

End Deletion.

(** The sample picture, resized once and then deleted. *)
Lemma deleteFile_leaves_cache_witness :
  let req := Sample.get 1 Sample.no_query in
  exists file,
    List.find (row_owned (req_id req) (req_user req)) (db Sample.resized) = Some file /\
    (forall p, p <> row_path file -> row_thumbnail_path file <> Some p ->
               fs Sample.deleted !! p = fs Sample.resized !! p) /\
    (forall p n, fs Sample.deleted !! p = Some n -> fs Sample.resized !! p = Some n) /\
    (forall e, In e (snd (deleteFile req Sample.resized)) ->
               e = EDelete (req_id req) (req_user req) \/
               exists p, (p = row_path file \/ row_thumbnail_path file = Some p) /\
                         (e = EExists p \/ e = EUnlink p)) /\
    (forall tr,
        cachePath_of (host := Ref.host) file tr <> row_path file ->
        row_thumbnail_path file <> Some (cachePath_of (host := Ref.host) file tr) ->
        read Sample.deleted (cachePath_of (host := Ref.host) file tr)
        = read Sample.resized (cachePath_of (host := Ref.host) file tr)) /\
    (cacheDir_of (host := Ref.host) file <> row_path file ->
     row_thumbnail_path file <> Some (cacheDir_of (host := Ref.host) file) ->
     fs Sample.deleted !! cacheDir_of (host := Ref.host) file = fs Sample.resized !! cacheDir_of (host := Ref.host) file).
Proof.
  cbv zeta.
  apply (deleteFile_leaves_cache (host := Ref.host)
           (Sample.get 1 Sample.no_query) Sample.resized Sample.deleted
           (snd (deleteFile (Sample.get 1 Sample.no_query) Sample.resized))).
  apply run_with_answer. reflexivity.
Defined.

(** On the sample: the source and its thumbnail are gone, the derivative
    and its directory are where they were, and the record is gone, so that
    the handler that made the derivative no longer finds the asset. *)
Example deleted_sample :
  read Sample.deleted "uploads/1/pic.png" = None /\
  read Sample.deleted "uploads/1/pic_thumb.jpg" = None /\
  fs Sample.deleted !! "uploads/1/cache" = Some Dir /\
  read Sample.deleted "uploads/1/cache/pic_100xauto_q80.jpeg"
  = read Sample.resized "uploads/1/cache/pic_100xauto_q80.jpeg" /\
  (exists out,
      read Sample.deleted "uploads/1/cache/pic_100xauto_q80.jpeg" = Some out /\
      (Ref.pic_width out, Ref.pic_height out) = (100, 50)) /\
  db Sample.deleted = [] /\
  fst (fst (resizeImage (Sample.get 1 (Sample.width_height (Some "100") None))
              Sample.deleted))
  = Json 404 "File not found" None.
Proof.
  repeat split; try reflexivity. eexists. split; reflexivity.
Qed.

(** * More properties of the code *)

(** ** What a request to [/process] leaves behind *)

Section Effects.
Context `{host : Host}.

Lemma grown_by_refl t f : grown_by t f f.
Proof. intros p. left. reflexivity. Qed.

Lemma grown_by_more t t' f f' :
  (forall e, In e t -> In e t') -> grown_by t f f' -> grown_by t' f f'.
Proof.
  intros Sub G p. destruct (G p) as [E|(N & [[D I]|(src & pl & out & F & I)])];
    [left; exact E | right; split; [exact N|] ..].
  - left. auto.
  - right. exists src, pl, out. auto.
Qed.

Lemma with_cacheDir_grown dir w :
  grown_by (cacheDir_events dir w) (fs w) (fs (with_cacheDir dir w)).
Proof.
  intros p. unfold with_cacheDir, cacheDir_events.
  destruct (bool_decide (is_Some (fs w !! dir))) eqn:E; [left; reflexivity|].
  apply bool_decide_eq_false in E. cbn [fs].
  destruct (decide (dir = p)) as [<-|N].
  - right. split.
    + destruct (fs w !! dir) eqn:L; [destruct E; eauto | reflexivity].
    + left. rewrite lookup_insert_eq. split; [reflexivity | cbn; auto].
  - left. apply lookup_insert_ne. exact N.
Qed.

(** What [serve_or_generate] leaves behind. *)
Lemma serve_or_generate_effect file t pl w :
  let run := serve_or_generate file t pl w in
  db (snd (fst run)) = db w /\ grown_by (snd run) (fs w) (fs (snd (fst run))).
Proof.
  cbv zeta. rewrite serve_or_generate_run. cbv zeta.
  pose proof (with_cacheDir_grown (cacheDir_of file) w) as G.
  pose proof (with_cacheDir_db (cacheDir_of file) w) as D.
  set (w1 := with_cacheDir (cacheDir_of file) w) in *.
  set (t1 := cacheDir_events (cacheDir_of file) w) in *.
  assert (Same : forall t2, grown_by (t1 ++ t2) (fs w) (fs w1)).
  { intros t2. eapply grown_by_more; [|exact G]. intros e I. apply in_or_app. auto. }
  destruct (bool_decide (is_Some (fs w1 !! cachePath_of file t))) eqn:E;
    [cbn [fst snd]; auto|].
  apply bool_decide_eq_false in E.
  destruct (read w1 (row_path file)) as [b|]; [|cbn [fst snd]; auto].
  destruct (sharp pl b) as [e|out]; cbn [fst snd db fs]; [auto|].
  split; [exact D|]. intros p.
  destruct (decide (cachePath_of file t = p)) as [<-|N].
  - right. split.
    + destruct (fs w !! cachePath_of file t) as [n|] eqn:L; [|reflexivity].
      destruct E. exists n. apply (with_cacheDir_keeps _ _ _ _ L).
    + right. exists (row_path file), pl, out. rewrite lookup_insert_eq.
      split; [reflexivity|]. apply in_or_app. right. cbn. auto.
  - rewrite lookup_insert_ne by exact N. apply Same.
Qed.

Lemma grown_by_after before t f f' :
  grown_by t f f' -> grown_by (before ++ t) f f'.
Proof.
  apply grown_by_more. intros e I. apply in_or_app. auto.
Qed.

Lemma answer_effect op t pl file w :
  let run := answer op t pl file w in
  db (snd (fst run)) = db w /\ grown_by (snd run) (fs w) (fs (snd (fst run))).
Proof.
  cbv zeta. rewrite answer_run.
  pose proof (serve_or_generate_effect file t pl w) as S. cbv zeta in S.
  destruct op, t; try exact S.
  destruct (present (row_thumbnail_path file)) as [tp|]; [|exact S].
  destruct (bool_decide (is_Some (fs w !! tp)) && strict_eq s 300).
  - cbn. split; [reflexivity | apply grown_by_refl].
  - destruct (serve_or_generate _ _ _ w) as [[o w1] t1]. cbn [fst snd after] in *.
    destruct S as [D G]. split; [exact D|]. apply grown_by_after, G.
Qed.

Lemma metadata_run src w :
  exists o, metadata src w = (o, w, [EMetadata src]) /\
            ((exists m, o = Next m) \/ (exists e, o = Throw e)).
Proof.
  unfold metadata, bind, emit, get_world, ret, throw. cbn.
  destruct (read w src) as [b|]; cbn; [|eauto 10].
  destruct (sharp_metadata b); cbn; eauto 10.
Qed.

(** The run of [getImageInfo] once the record is resolved. *)
Lemma info_run file w :
  exists o,
    (m <- metadata (row_path file) ;;
     ret (Info {| fi_id := row_id file;
                  fi_filename := row_filename file;
                  fi_originalName := row_original_name file;
                  fi_size := row_size file;
                  fi_mimeType := row_mime_type file |} m)) w
    = (o, w, [EMetadata (row_path file)]) /\
    ((exists i m, o = Next (Info i m)) \/ (exists e, o = Throw e)).
Proof.
  destruct (metadata_run (row_path file) w) as (o & E & [[m ->]|[e ->]]);
    unfold bind; rewrite E; cbn; eauto 10.
Qed.

(** The same for a whole handler. *)
Lemma accepted_effect lbl only req (k : FileRow -> M Response) w :
  (forall file,
      db (snd (fst (k file w))) = db w /\
      grown_by (snd (k file w)) (fs w) (fs (snd (fst (k file w))))) ->
  let run := handle lbl (file <- resolve_image req only ;; k file) w in
  db (snd (fst run)) = db w /\ grown_by (snd run) (fs w) (fs (snd (fst run))).
Proof.
  intros K. cbv zeta. rewrite resolved_run. cbv zeta.
  destruct (List.find _ (db w)) as [file|];
    [|cbn; auto using grown_by_refl].
  destruct (negb _); [cbn; auto using grown_by_refl|].
  destruct (bool_decide _); [|cbn; auto using grown_by_refl].
  specialize (K file). destruct (k file w) as [[o w1] t1].
  cbn [fst snd finish] in *. destruct K as [D G].
  split; [exact D | apply grown_by_after, G].
Qed.

(** X2.  No route of [/process] writes to the table of files, and none
    removes or overwrites anything on the disk: after a request every path
    holds what it held, except for paths that were free before, which now
    hold the cache directory made by [mkdirSync] or a file written by
    [toFile], as the trace of the request records. *)
Theorem derive_only_adds (op : Operation) (req : Req) (w : World) :
  let run := derive op req w in
  db (snd (fst run)) = db w /\ grown_by (snd run) (fs w) (fs (snd (fst run))).
Proof.
  cbv zeta. destruct (caching op) eqn:C.
  - rewrite derive_run by exact C.
    destruct (plan op (req_query req)) as [r|[t pl]];
      [cbn; auto using grown_by_refl|].
    apply accepted_effect. intros file. apply answer_effect.
  - destruct op; try discriminate C. cbn [derive].
    rewrite getImageInfo_run. apply accepted_effect. intros file.
    destruct (info_run file w) as (o & -> & _). cbn.
    auto using grown_by_refl.
Qed.

End Effects.

(** ** Requests that are turned down *)

Section Errors.
Context `{host : Host}.

(** How the run of a handler ends once its record is resolved, when what
    follows sends a file, describes the image or throws. *)
Lemma accepted_cases lbl only req (k : FileRow -> M Response) w :
  (forall file, (exists r, fst (fst (k file w)) = Next r /\
                           forall s e m, r <> Json s e m)
                \/ (exists e, fst (fst (k file w)) = Throw e)) ->
  let run := handle lbl (file <- resolve_image req only ;; k file) w in
  (snd (fst run) = w /\
   (forall ev, In ev (snd run) ->
               ev = EFindById (req_id req) (req_user req) \/ exists p, ev = EExists p) /\
   exists s e m, fst (fst run) = Json s e m /\ (s = 400 \/ s = 404))
  \/ (exists e, fst (fst run) = Json 500 lbl (Some e))
  \/ (forall s e m, fst (fst run) <> Json s e m).
Proof.
  intros K. cbv zeta. rewrite resolved_run. cbv zeta.
  assert (Looked : forall ev,
             In ev [EFindById (req_id req) (req_user req)] ->
             ev = EFindById (req_id req) (req_user req) \/ exists p, ev = EExists p).
  { intros ev [<-|[]]. auto. }
  destruct (List.find _ (db w)) as [file|];
    [|left; cbn; eauto 10].
  destruct (negb _); [left; cbn; eauto 10|].
  destruct (bool_decide _).
  - right. specialize (K file). destruct (k file w) as [[o w1] t1].
    cbn [fst snd finish] in *.
    destruct K as [(r & -> & N)|(e & ->)]; [right; exact N | left; eauto].
  - left. cbn. split; [reflexivity|]. split; [|eauto 10].
    intros ev [<-|[<-|[]]]; eauto.
Qed.

Lemma answer_sends op t pl file w :
  (exists r, fst (fst (answer op t pl file w)) = Next r /\
             forall s e m, r <> Json s e m)
  \/ (exists e, fst (fst (answer op t pl file w)) = Throw e).
Proof.
  destruct (answer_outcome op t pl file w) as [(p & body & E)|E]; [left | right; exact E].
  rewrite E. eexists. split; [reflexivity | discriminate].
Qed.

Lemma info_sends file w :
  (exists r,
      fst (fst ((m <- metadata (row_path file) ;;
                 ret (Info {| fi_id := row_id file;
                              fi_filename := row_filename file;
                              fi_originalName := row_original_name file;
                              fi_size := row_size file;
                              fi_mimeType := row_mime_type file |} m)) w)) = Next r /\
      forall s e m, r <> Json s e m)
  \/ (exists e,
         fst (fst ((m <- metadata (row_path file) ;;
                    ret (Info {| fi_id := row_id file;
                                 fi_filename := row_filename file;
                                 fi_originalName := row_original_name file;
                                 fi_size := row_size file;
                                 fi_mimeType := row_mime_type file |} m)) w)) = Throw e).
Proof.
  destruct (info_run file w) as (o & -> & [(i & m & ->)|(e & ->)]); cbn.
  - left. eexists. split; [reflexivity | discriminate].
  - right. eauto.
Qed.

(** The three ways a request to [/process] can end. *)
Lemma derive_cases op req w :
  let run := derive op req w in
  (snd (fst run) = w /\
   (forall ev, In ev (snd run) ->
               ev = EFindById (req_id req) (req_user req) \/ exists p, ev = EExists p) /\
   exists s e m, fst (fst run) = Json s e m /\ (s = 400 \/ s = 404))
  \/ (exists e, fst (fst run) = Json 500 (label op) (Some e))
  \/ (forall s e m, fst (fst run) <> Json s e m).
Proof.
  cbv zeta. destruct (caching op) eqn:C.
  - rewrite derive_run by exact C.
    destruct (plan op (req_query req)) as [r|[t pl]] eqn:P.
    + left. destruct (plan_rejection _ _ _ P) as (e & m & -> & _). cbn.
      split; [reflexivity|]. split; [intros ev []|eauto 10].
    + apply accepted_cases. intros file. apply answer_sends.
  - destruct op; try discriminate C. cbn [derive].
    rewrite getImageInfo_run. apply accepted_cases. intros file. apply info_sends.
Qed.

(** X3.  An answer that is an error other than a 500 is a 400 or a 404,
    and the request that got it has changed nothing: the world is the one
    it started in, and all the handler did is look up the record and check
    whether paths exist. *)
Theorem client_error_changes_nothing
  (op : Operation) (req : Req) (w : World) (s : Z) (e : string) (m : option string) :
  fst (fst (derive op req w)) = Json s e m -> s <> 500 ->
  snd (fst (derive op req w)) = w /\
  (forall ev, In ev (snd (derive op req w)) ->
              ev = EFindById (req_id req) (req_user req) \/ exists p, ev = EExists p) /\
  (s = 400 \/ s = 404).
Proof.
  intros R N.
  destruct (derive_cases op req w) as [(W & T & s' & e' & m' & R' & S)|[(e' & R')|No]].
  - rewrite R in R'. injection R' as -> -> ->. auto.
  - rewrite R in R'. injection R' as -> _ _. contradiction.
  - destruct (No _ _ _ R).
Qed.

End Errors.

(** The video of the sample world, asked to be resized. *)
Lemma client_error_witness :
  let run := derive Resize (Sample.get 2 (Sample.width_height (Some "100") None))
               Sample.with_clip in
  snd (fst run) = Sample.with_clip /\
  (forall ev, In ev (snd run) -> ev = EFindById 2 1 \/ exists p, ev = EExists p) /\
  (400 = 400 \/ 400 = 404).
Proof.
  cbv zeta.
  apply (client_error_changes_nothing (host := Ref.host) Resize
           (Sample.get 2 (Sample.width_height (Some "100") None)) Sample.with_clip
           400 "Invalid file type" (Some "Only image files can be resized")).
  - reflexivity.
  - lia.
Defined.

(** ** When the engine is called *)

Section Once.
Context `{host : Host}.

(** [serve_or_generate] calls the engine once, and only for a file that is
    not on the disk. *)
Lemma serve_or_generate_engine file t pl w :
  let tr := snd (serve_or_generate file t pl w) in
  engine_calls tr = 0%nat \/
  (engine_calls tr = 1%nat /\ fs w !! cachePath_of file t = None /\
   In (EToFile (row_path file) pl (cachePath_of file t)) tr).
Proof.
  cbv zeta. rewrite serve_or_generate_run. cbv zeta.
  destruct (bool_decide (is_Some (fs _ !! cachePath_of file t))) eqn:E.
  - left. cbn [snd]. rewrite engine_calls_app, engine_calls_cacheDir. reflexivity.
  - right. apply bool_decide_eq_false in E.
    assert (Miss : fs w !! cachePath_of file t = None).
    { destruct (fs w !! cachePath_of file t) as [n|] eqn:L; [|reflexivity].
      destruct E. exists n. apply (with_cacheDir_keeps _ _ _ _ L). }
    assert (One : engine_calls (cacheDir_events (cacheDir_of file) w ++
                    [EExists (cachePath_of file t);
                     EToFile (row_path file) pl (cachePath_of file t)]) = 1%nat).
    { rewrite engine_calls_app, engine_calls_cacheDir. reflexivity. }
    assert (I : In (EToFile (row_path file) pl (cachePath_of file t))
                  (cacheDir_events (cacheDir_of file) w ++
                   [EExists (cachePath_of file t);
                    EToFile (row_path file) pl (cachePath_of file t)])).
    { apply in_or_app. right. cbn. auto. }
    destruct (read _ (row_path file)) as [b|]; [|auto].
    destruct (sharp pl b); auto.
Qed.

Lemma answer_engine op t pl file w :
  let tr := snd (answer op t pl file w) in
  engine_calls tr = 0%nat \/
  (engine_calls tr = 1%nat /\ fs w !! cachePath_of file t = None /\
   In (EToFile (row_path file) pl (cachePath_of file t)) tr).
Proof.
  cbv zeta. rewrite answer_run.
  pose proof (serve_or_generate_engine file t pl w) as S. cbv zeta in S.
  destruct op, t; try exact S.
  destruct (present (row_thumbnail_path file)) as [tp|]; [|exact S].
  destruct (bool_decide (is_Some (fs w !! tp)) && strict_eq s 300); [left; reflexivity|].
  destruct (serve_or_generate _ _ _ w) as [[o w1] t1]. cbn [fst snd after] in *.
  rewrite engine_calls_app. cbn [engine_calls List.filter is_encode length Nat.add].
  destruct S as [Z|(O & M & I)]; [left; exact Z | right].
  split; [exact O|]. split; [exact M|]. right. exact I.
Qed.

(** X4.  A request has the engine encode at most once, and only when the
    cache path of the request is free on the disk: the call reads the file of
    the caller's record, runs the call chain of the request's plan and writes
    to that cache path.  [getImageInfo] never has it encode. *)
Theorem derive_encodes_on_miss (op : Operation) (req : Req) (w : World) :
  let t := snd (derive op req w) in
  engine_calls t = 0%nat \/
  (engine_calls t = 1%nat /\
   exists tr pl file,
     caching op = true /\
     plan op (req_query req) = inr (tr, pl) /\
     List.find (row_matches (req_id req) (req_user req)) (db w) = Some file /\
     fs w !! cachePath_of file tr = None /\
     In (EToFile (row_path file) pl (cachePath_of file tr)) t).
Proof.
  cbv zeta. destruct (caching op) eqn:C.
  - rewrite derive_run by exact C.
    destruct (plan op (req_query req)) as [r|[tr pl]]; [left; reflexivity|].
    rewrite resolved_run. cbv zeta.
    destruct (List.find _ (db w)) as [file|] eqn:F; [|left; reflexivity].
    destruct (negb _); [left; reflexivity|].
    destruct (bool_decide _); [|left; reflexivity].
    pose proof (answer_engine op tr pl file w) as A. cbv zeta in A.
    destruct (answer op tr pl file w) as [[o w1] t1]. cbn [fst snd finish] in *.
    rewrite engine_calls_app.
    cbn [engine_calls List.filter is_encode length Nat.add].
    destruct A as [Z|(O & M & I)]; [left; exact Z | right].
    split; [exact O|]. exists tr, pl, file. repeat split; auto.
    right. right. exact I.
  - left. destruct op; try discriminate C. cbn [derive].
    rewrite getImageInfo_run, resolved_run. cbv zeta.
    destruct (List.find _ (db w)) as [file|]; [|reflexivity].
    destruct (negb _); [reflexivity|].
    destruct (bool_decide _); [|reflexivity].
    destruct (info_run file w) as (o & -> & _). reflexivity.
Qed.

(** X5.  [getImageInfo] leaves the world as it is, whatever it answers:
    it looks up the record, checks that the file exists and reads its
    metadata; it makes no directory and writes no file. *)
Theorem getImageInfo_changes_nothing (req : Req) (w : World) :
  snd (fst (getImageInfo req w)) = w /\
  (forall ev, In ev (snd (getImageInfo req w)) ->
              ev = EFindById (req_id req) (req_user req) \/
              (exists p, ev = EExists p) \/ exists p, ev = EMetadata p).
Proof.
  rewrite getImageInfo_run, resolved_run. cbv zeta.
  destruct (List.find _ (db w)) as [file|].
  2:{ cbn. split; [reflexivity|]. intros ev [<-|[]]. auto. }
  destruct (negb _).
  { cbn. split; [reflexivity|]. intros ev [<-|[]]. auto. }
  destruct (bool_decide _).
  2:{ cbn. split; [reflexivity|]. intros ev [<-|[<-|[]]]; eauto. }
  destruct (info_run file w) as (o & -> & _). cbn.
  split; [reflexivity|]. intros ev [<-|[<-|[<-|[]]]]; eauto.
Qed.

End Once.

(** ** Records of other users *)

Section Owner.
Context `{host : Host}.

(** [findById] with a user that is not [0] finds records of that user only. *)
Lemma find_row_matches id user rows file :
  List.find (row_matches id user) rows = Some file ->
  In file rows /\ row_id file = id /\ (user <> 0 -> row_user_id file = user).
Proof.
  intros F. apply List.find_some in F as [I M]. unfold row_matches in M.
  apply andb_true_iff in M as [Mi Mu]. apply Z.eqb_eq in Mi.
  split; [exact I|]. split; [exact Mi|]. intros N.
  apply orb_true_iff in Mu as [Mu|Mu]; [|apply Z.eqb_eq, Mu].
  cbn in Mu. apply negb_true_iff, negb_false_iff, Z.eqb_eq in Mu. contradiction.
Qed.

Lemma find_not_owned id user rows :
  user <> 0 ->
  (forall row, In row rows -> row_id row = id -> row_user_id row <> user) ->
  List.find (row_matches id user) rows = None.
Proof.
  intros N Other. destruct (List.find _ rows) as [file|] eqn:F; [|reflexivity].
  apply find_row_matches in F as (I & Ei & Eu).
  destruct (Other file I Ei (Eu N)).
Qed.

(** No record, no work. *)
Lemma derive_not_found op req w :
  List.find (row_matches (req_id req) (req_user req)) (db w) = None ->
  derive op req w
  = (Json 404 "File not found" None, w, [EFindById (req_id req) (req_user req)])
  \/ exists e m, derive op req w = (Json 400 e (Some m), w, []).
Proof.
  intros F. destruct (caching op) eqn:C.
  - rewrite derive_run by exact C.
    destruct (plan op (req_query req)) as [r|[t pl]] eqn:P.
    + right. destruct (plan_rejection _ _ _ P) as (e & m & -> & _). eauto.
    + left. rewrite resolved_run. cbv zeta. rewrite F. reflexivity.
  - left. destruct op; try discriminate C. cbn [derive].
    rewrite getImageInfo_run, resolved_run. cbv zeta. rewrite F. reflexivity.
Qed.

(** X6.  [File.findById] is given the id of the caller, so a record of
    another user is as good as none: when no record with the id of the
    request belongs to the caller, the request is turned down for its
    parameters (400) or answered 'File not found' (404) right after the
    lookup, and nothing on the disk is looked at. *)
Theorem derive_of_another_user (op : Operation) (req : Req) (w : World) :
  req_user req <> 0 ->
  (forall row, In row (db w) ->
               row_id row = req_id req -> row_user_id row <> req_user req) ->
  derive op req w
  = (Json 404 "File not found" None, w, [EFindById (req_id req) (req_user req)])
  \/ exists e m, derive op req w = (Json 400 e (Some m), w, []).
Proof.
  intros N Other. apply derive_not_found, find_not_owned; assumption.
Qed.

End Owner.

(** User 2 asks for the picture of user 1. *)
Lemma derive_of_another_user_witness :
  let req := {| req_id := 1; req_user := 2;
                req_query := Sample.width_height (Some "100") None |} in
  derive Resize req Sample.uploaded
  = (Json 404 "File not found" None, Sample.uploaded, [EFindById 1 2])
  \/ exists e m, derive Resize req Sample.uploaded
                 = (Json 400 e (Some m), Sample.uploaded, []).
Proof.
  cbv zeta.
  apply (derive_of_another_user (host := Ref.host) Resize
           {| req_id := 1; req_user := 2;
              req_query := Sample.width_height (Some "100") None |} Sample.uploaded).
  - cbn. lia.
  - intros row Hin. vm_compute in Hin. destruct Hin as [<-|[]]. cbn. lia.
Defined.

(** ** The thumbnail stored at upload *)

Section StoredThumbnail.
Context `{host : Host}.

(** X7.  The guard of line 256: when the size is 300 (asked for or by
    default) and the thumbnail stored at upload is on the disk, that file is
    sent as it is, whatever quality between 1 and 100 the request names; the
    cache is neither read nor written and the engine is not called. *)
Theorem default_thumbnail_whatever_quality
  (req : Req) (w : World) (file : FileRow) (tp : string) :
  parseInt_default (q_size (req_query req)) 300 = Num 300 ->
  lt (parseInt_default (q_quality (req_query req)) 80) 1
  || gt (parseInt_default (q_quality (req_query req)) 80) 100 = false ->
  List.find (row_matches (req_id req) (req_user req)) (db w) = Some file ->
  row_file_type file = "image" ->
  is_Some (fs w !! row_path file) ->
  row_thumbnail_path file = Some tp -> tp <> "" ->
  is_Some (fs w !! tp) ->
  generateThumbnail req w
  = (SendFile tp (read w tp), w,
     [EFindById (req_id req) (req_user req); EExists (row_path file); EExists tp]).
Proof.
  intros S Q F T D Tp Ne There.
  change (generateThumbnail req w) with (derive Thumbnail req w).
  rewrite derive_run by reflexivity. cbn [plan]. unfold thumbnail_plan.
  rewrite S, Q. cbn [lt gt orb Z.ltb Z.compare Pos.compare Pos.compare_cont].
  rewrite resolved_run. cbv zeta. rewrite F, T. cbn [String.eqb negb].
  rewrite (bool_decide_eq_true_2 _ D). rewrite answer_run.
  assert (P : present (row_thumbnail_path file) = Some tp).
  { rewrite Tp. destruct tp; [contradiction | reflexivity]. }
  rewrite P, (bool_decide_eq_true_2 _ There). reflexivity.
Qed.

End StoredThumbnail.

(** The sample picture at a quality of 10: the stored thumbnail, made at 80. *)
Lemma default_thumbnail_witness :
  generateThumbnail (Sample.get 1 (Sample.size_quality None (Some "10"))) Sample.uploaded
  = (SendFile "uploads/1/pic_thumb.jpg" (read Sample.uploaded "uploads/1/pic_thumb.jpg"),
     Sample.uploaded,
     [EFindById 1 1; EExists "uploads/1/pic.png"; EExists "uploads/1/pic_thumb.jpg"]).
Proof.
  apply (default_thumbnail_whatever_quality (host := Ref.host)
           (Sample.get 1 (Sample.size_quality None (Some "10"))) Sample.uploaded
           (List.hd Sample.clip_row (db Sample.uploaded)) "uploads/1/pic_thumb.jpg").
  - reflexivity.
  - reflexivity.
  - reflexivity.
  - reflexivity.
  - eexists. reflexivity.
  - reflexivity.
  - discriminate.
  - eexists. reflexivity.
Defined.


(** ** The dimensions [resizeImage] turns down *)

Section Validation.
Context `{host : Host}.

Lemma present_outside_box v :
  present_outside (parseInt_or_null v) 1 4096 = true <-> outside_box v.
Proof.
  unfold outside_box, parseInt_or_null. split.
  - destruct v as [s|]; [|discriminate].
    destruct (truthy_str (Some s)); [|discriminate]. cbn [present_outside].
    destruct (parseInt s) as [|n] eqn:P; [discriminate|]. cbn.
    intros B. apply andb_true_iff in B as [Nz Out].
    apply negb_true_iff, Z.eqb_neq in Nz.
    apply orb_true_iff in Out. rewrite !Z.ltb_lt in Out. eauto 10.
  - intros (s & n & -> & P & Nz & Out).
    assert (T : truthy_str (Some s) = true) by (destruct s; [discriminate P | reflexivity]).
    rewrite T. cbn [present_outside]. rewrite P. cbn.
    apply andb_true_iff. split.
    + apply negb_true_iff, Z.eqb_neq, Nz.
    + apply orb_true_iff. rewrite !Z.ltb_lt. exact Out.
Qed.

Lemma outside_box_truthy v : outside_box v -> truthy_str v = true.
Proof.
  intros (s & n & -> & P & _). destruct s; [discriminate P | reflexivity].
Qed.

(** X8.  [resizeImage] answers 'Invalid dimensions' exactly when the
    width or the height is given, reads as a number other than [0], and that
    number is below 1 or above 4096. *)
Theorem resize_invalid_dimensions_iff (req : Req) (w : World) :
  (exists m, fst (fst (resizeImage req w)) = Json 400 "Invalid dimensions" m)
  <-> outside_box (q_width (req_query req)) \/ outside_box (q_height (req_query req)).
Proof.
  change (resizeImage req w) with (derive Resize req w).
  rewrite derive_run by reflexivity. cbn [plan]. unfold resize_plan.
  rewrite <- !present_outside_box.
  destruct (negb (truthy_str _) && negb (truthy_str _)) eqn:Missing.
  { cbn. split; [intros [m [=]]|].
    apply andb_true_iff in Missing as [Mw Mh].
    apply negb_true_iff in Mw, Mh. unfold parseInt_or_null.
    destruct (q_width (req_query req)) as [sw|], (q_height (req_query req)) as [sh|];
      try rewrite Mw; try rewrite Mh; cbn; intros [|]; discriminate. }
  destruct (present_outside _ 1 4096 || present_outside _ 1 4096) eqn:Out.
  { cbn. split; [intros _; apply orb_true_iff, Out | eauto]. }
  apply orb_false_iff in Out as [Ow Oh]. rewrite Ow, Oh.
  split; [|intros [|]; discriminate]. intros [m R]. exfalso.
  destruct (lt _ 1 || gt _ 100); [discriminate R|].
  match type of R with
  | fst (fst (handle _ (file <- resolve_image _ _ ;; answer _ ?t ?pl file) _)) = _ =>
      pose proof (accepted_response Resize t pl req w) as A
  end.
  cbv zeta in A. rewrite R in A.
  destruct A as [[e A]|[A|[[e A]|(p & body & A)]]]; discriminate A.
Qed.

End Validation.

(** ** The call chains that reach the engine *)

Section EngineCalls.
Context `{host : Host}.

Lemma cacheDir_events_toFile dir w src pl dst :
  ~ In (EToFile src pl dst) (cacheDir_events dir w).
Proof.
  unfold cacheDir_events. destruct (bool_decide _); cbn; intuition discriminate.
Qed.

(** The only call chain a handler runs is the one of its plan, from the file
    of the record to the cache path. *)
Lemma serve_or_generate_toFile file t pl w src pl' dst :
  In (EToFile src pl' dst) (snd (serve_or_generate file t pl w)) ->
  src = row_path file /\ pl' = pl /\ dst = cachePath_of file t.
Proof.
  rewrite serve_or_generate_run. cbv zeta.
  assert (G : forall rest,
             (forall e, In e rest -> e = EExists (cachePath_of file t) \/
                                     e = EToFile (row_path file) pl (cachePath_of file t)) ->
             In (EToFile src pl' dst) (cacheDir_events (cacheDir_of file) w ++ rest) ->
             src = row_path file /\ pl' = pl /\ dst = cachePath_of file t).
  { intros rest R I. apply in_app_or in I as [I|I].
    - destruct (cacheDir_events_toFile _ _ _ _ _ I).
    - destruct (R _ I) as [E|E]; [discriminate E|]. injection E as -> -> ->. auto. }
  destruct (bool_decide _).
  - apply G. intros e [<-|[]]. auto.
  - destruct (read _ (row_path file)) as [b|]; [destruct (sharp pl b)|];
      apply G; intros e [<-|[<-|[]]]; auto.
Qed.

Lemma answer_toFile op t pl file w src pl' dst :
  In (EToFile src pl' dst) (snd (answer op t pl file w)) ->
  src = row_path file /\ pl' = pl /\ dst = cachePath_of file t.
Proof.
  rewrite answer_run.
  pose proof (serve_or_generate_toFile file t pl w src pl' dst) as S.
  destruct op, t; try exact S.
  destruct (present (row_thumbnail_path file)) as [tp|]; [|exact S].
  destruct (bool_decide (is_Some (fs w !! tp)) && strict_eq s 300).
  - cbn. intros [E|[]]. discriminate E.
  - destruct (serve_or_generate _ _ _ w) as [[o w1] t1]. cbn [fst snd after] in *.
    intros [E|I]; [discriminate E | exact (S I)].
Qed.

Lemma derive_toFile op req w src pl' dst :
  In (EToFile src pl' dst) (snd (derive op req w)) ->
  exists tr pl file,
    caching op = true /\
    plan op (req_query req) = inr (tr, pl) /\
    List.find (row_matches (req_id req) (req_user req)) (db w) = Some file /\
    src = row_path file /\ pl' = pl /\ dst = cachePath_of file tr.
Proof.
  destruct (caching op) eqn:C.
  - rewrite derive_run by exact C.
    destruct (plan op (req_query req)) as [r|[tr pl]]; [intros []|].
    rewrite resolved_run. cbv zeta.
    destruct (List.find _ (db w)) as [file|] eqn:F;
      [|intros [E|[]]; discriminate E].
    destruct (negb _); [intros [E|[]]; discriminate E|].
    destruct (bool_decide _); [|intros [E|[E|[]]]; discriminate E].
    pose proof (answer_toFile op tr pl file w src pl' dst) as A.
    destruct (answer op tr pl file w) as [[o w1] t1]. cbn [fst snd finish] in *.
    intros [E|[E|I]]; try discriminate E.
    destruct (A I) as (-> & -> & ->). exists tr, pl, file. auto 10.
  - destruct op; try discriminate C. cbn [derive].
    rewrite getImageInfo_run, resolved_run. cbv zeta.
    destruct (List.find _ (db w)) as [file|];
      [|intros [E|[]]; discriminate E].
    destruct (negb _); [intros [E|[]]; discriminate E|].
    destruct (bool_decide _); [|intros [E|[E|[]]]; discriminate E].
    destruct (info_run file w) as (o & -> & _). cbn.
    intros [E|[E|[E|[]]]]; discriminate E.
Qed.

Lemma lt_not_below n k : lt n k = false -> not_below k n.
Proof.
  destruct n as [|z]; cbn; [auto|]. intros L. apply Z.ltb_ge in L. exact L.
Qed.

Lemma not_below_lt n k : not_below k n -> lt n k = false.
Proof.
  destruct n as [|z]; cbn; [auto|]. intros L. apply Z.ltb_ge. exact L.
Qed.

(** X9.  What [cropImage] hands to the engine.  Whenever it runs a call
    chain, the region is the four parameters as [parseInt] reads them, each
    of which is [NaN] or at least its lower bound ([0] for [x] and [y], [1]
    for [width] and [height]).  And nothing bounds them from above: whenever
    the four parameters are given and read as [NaN] or at least their lower
    bounds, the quality is accepted, the record of the caller is an image on
    the disk and the cache holds nothing under the key of the request, the
    engine is handed that region, however large. *)
Theorem crop_engine_region (req : Req) (w : World) :
  (forall src dst pl,
      In (EToFile src pl dst) (snd (cropImage req w)) ->
      exists sx sy sw sh,
        q_x (req_query req) = Some sx /\ q_y (req_query req) = Some sy /\
        q_width (req_query req) = Some sw /\ q_height (req_query req) = Some sh /\
        pl = crop_pipeline (parseInt sx) (parseInt sy) (parseInt sw) (parseInt sh)
               (parseInt_default (q_quality (req_query req)) 80) /\
        not_below 0 (parseInt sx) /\ not_below 0 (parseInt sy) /\
        not_below 1 (parseInt sw) /\ not_below 1 (parseInt sh)) /\
  (forall sx sy sw sh file,
      present (q_x (req_query req)) = Some sx ->
      present (q_y (req_query req)) = Some sy ->
      present (q_width (req_query req)) = Some sw ->
      present (q_height (req_query req)) = Some sh ->
      not_below 0 (parseInt sx) -> not_below 0 (parseInt sy) ->
      not_below 1 (parseInt sw) -> not_below 1 (parseInt sh) ->
      let q := parseInt_default (q_quality (req_query req)) 80 in
      let tr := TCrop (parseInt sx) (parseInt sy) (parseInt sw) (parseInt sh) q in
      lt q 1 || gt q 100 = false ->
      List.find (row_matches (req_id req) (req_user req)) (db w) = Some file ->
      row_file_type file = "image" ->
      is_Some (fs w !! row_path file) ->
      fs w !! cachePath_of file tr = None ->
      cachePath_of file tr <> cacheDir_of file ->
      In (EToFile (row_path file)
            (crop_pipeline (parseInt sx) (parseInt sy) (parseInt sw) (parseInt sh) q)
            (cachePath_of file tr))
        (snd (cropImage req w))).
Proof.
  split.
  - intros src dst pl I. change (cropImage req w) with (derive Crop req w) in I.
    apply derive_toFile in I as (tr & pl0 & file & _ & P & _ & _ & -> & _).
    cbn [plan] in P. unfold crop_plan in P.
    destruct (present (q_x (req_query req))) as [sx|] eqn:X; [|discriminate].
    destruct (present (q_y (req_query req))) as [sy|] eqn:Y; [|discriminate].
    destruct (present (q_width (req_query req))) as [sw|] eqn:W; [|discriminate].
    destruct (present (q_height (req_query req))) as [sh|] eqn:H; [|discriminate].
    apply present_Some in X, Y, W, H.
    destruct (lt (parseInt sx) 0 || lt (parseInt sy) 0
              || lt (parseInt sw) 1 || lt (parseInt sh) 1) eqn:B; [discriminate|].
    destruct (lt _ 1 || gt _ 100); [discriminate|].
    injection P as _ <-.
    apply orb_false_iff in B as [B Bh]. apply orb_false_iff in B as [B Bw].
    apply orb_false_iff in B as [Bx By].
    exists sx, sy, sw, sh. repeat split; auto using lt_not_below.
  - intros sx sy sw sh file X Y W H Bx By Bw Bh q tr Q F T D Miss Nd.
    change (cropImage req w) with (derive Crop req w).
    apply (miss_reaches_engine Crop req w tr); auto.
    cbn [plan]. unfold crop_plan. rewrite X, Y, W, H.
    rewrite (not_below_lt _ _ Bx), (not_below_lt _ _ By),
      (not_below_lt _ _ Bw), (not_below_lt _ _ Bh).
    cbn [orb]. fold q. rewrite Q. reflexivity.
Qed.

End EngineCalls.

(** A region of 5000 x 5000 pixels of the sample picture of 1000 x 500 is
    handed to the engine as it is. *)
Lemma crop_engine_region_witness :
  let req := Sample.get 1 (Sample.region "0" "0" "5000" "5000") in
  In (EToFile "uploads/1/pic.png"
        (crop_pipeline (Num 0) (Num 0) (Num 5000) (Num 5000) (Num 80))
        "uploads/1/cache/pic_crop_0_0_5000_5000_q80.jpg")
    (snd (cropImage req Sample.uploaded)) /\
  exists sx sy sw sh,
    q_x (req_query req) = Some sx /\ q_y (req_query req) = Some sy /\
    q_width (req_query req) = Some sw /\ q_height (req_query req) = Some sh /\
    crop_pipeline (Num 0) (Num 0) (Num 5000) (Num 5000) (Num 80)
    = crop_pipeline (parseInt sx) (parseInt sy) (parseInt sw) (parseInt sh)
        (parseInt_default (q_quality (req_query req)) 80) /\
    not_below 0 (parseInt sx) /\ not_below 0 (parseInt sy) /\
    not_below 1 (parseInt sw) /\ not_below 1 (parseInt sh).
Proof.
  cbv zeta.
  pose (req := Sample.get 1 (Sample.region "0" "0" "5000" "5000")).
  destruct (crop_engine_region (host := Ref.host) req Sample.uploaded) as [Only Reach].
  assert (I : In (EToFile "uploads/1/pic.png"
                    (crop_pipeline (Num 0) (Num 0) (Num 5000) (Num 5000) (Num 80))
                    "uploads/1/cache/pic_crop_0_0_5000_5000_q80.jpg")
                (snd (cropImage req Sample.uploaded))).
  { refine (Reach "0" "0" "5000" "5000" _ eq_refl eq_refl eq_refl eq_refl
              _ _ _ _ eq_refl eq_refl eq_refl _ eq_refl _).
    - change (0 <= 0). lia.
    - change (0 <= 0). lia.
    - change (1 <= 5000). lia.
    - change (1 <= 5000). lia.
    - eexists. reflexivity.
    - discriminate. }
  split; [exact I | exact (Only _ _ _ I)].
Defined.

(** ** The case of the format in [convertImage] *)

Section ConvertCase.
Context `{host : Host}.

Lemma toLowerCase_empty s : toLowerCase s = "" -> s = "".
Proof. destruct s; [reflexivity | discriminate]. Qed.

(** X10.  [convertImage] reads the format without regard to case for the
    check and for the encoder, and as it is written for the name of the
    cache file: two accepted requests whose formats differ in case only run
    the same call chain, and are cached under the same name only when the
    formats are written alike. *)
Theorem convert_format_case
  (query : Query) (f1 f2 : string) (t1 : Transform) (pl : Pipeline) :
  toLowerCase f1 = toLowerCase f2 ->
  plan Convert (with_format query f1) = inr (t1, pl) ->
  exists t2,
    plan Convert (with_format query f2) = inr (t2, pl) /\
    forall stem, cacheFilename stem t1 = cacheFilename stem t2 <-> f1 = f2.
Proof.
  intros L. cbn [plan]. unfold convert_plan, with_format. cbn [q_format q_quality].
  assert (E : present (Some f2) = Some f2 \/ (f1 = "" /\ f2 = "")).
  { destruct f2; [right | left; reflexivity].
    split; [apply toLowerCase_empty, L | reflexivity]. }
  destruct E as [E|[-> ->]]; [|discriminate].
  destruct (present (Some f1)) as [f|] eqn:P1; [|discriminate].
  apply present_Some in P1. injection P1 as <-. rewrite E, L.
  destruct (negb (existsb _ supportedFormats)); [discriminate|].
  destruct (lt _ 1 || gt _ 100); [discriminate|].
  intros [= <- <-]. eexists. split.
  - unfold convert_pipeline. rewrite L. reflexivity.
  - intros stem. cbn [cacheFilename]. split.
    + intros C. now apply convert_cacheFilename_inj in C.
    + now intros ->.
Qed.

End ConvertCase.

(** The formats [png] and [PNG], with everything else by default. *)
Lemma convert_format_case_witness :
  exists t2,
    plan (host := Ref.host) Convert (with_format Sample.no_query "PNG")
    = inr (t2, convert_pipeline (Num 80) "png") /\
    forall stem, cacheFilename stem (TConvert (Num 80) "png") = cacheFilename stem t2
                 <-> "png" = "PNG".
Proof.
  apply (convert_format_case (host := Ref.host) Sample.no_query "png" "PNG").
  - reflexivity.
  - reflexivity.
Defined.

(** ** [deleteFile], its answer and the table *)

Section DeletionMore.
Context `{host : Host}.

Lemma unlink_if_exists_run p w :
  unlink_if_exists p w =
  match present p with
  | None => (Next tt, w, [])
  | Some q =>
      match fs w !! q with
      | None => (Next tt, w, [EExists q])
      | Some (File _) =>
          (Next tt, {| db := db w; fs := delete q (fs w) |}, [EExists q; EUnlink q])
      | Some Dir =>
          (Throw "EISDIR: illegal operation on a directory, unlink", w,
           [EExists q; EUnlink q])
      end
  end.
Proof.
  unfold unlink_if_exists. destruct (present p) as [q|]; [|reflexivity].
  unfold existsSync, unlinkSync, bind, emit, get_world, set_fs, ret, throw. cbn.
  destruct (fs w !! q) as [[b|]|] eqn:L; cbn; rewrite ?L; reflexivity.
Qed.

(** The [try] block of [deleteFile]: it always falls through, and it leaves
    the table alone. *)
Lemma cleanup_run file w :
  exists w1 t1,
    try_catch (unlink_if_exists (Some (row_path file)) ;;;
               unlink_if_exists (row_thumbnail_path file)) tt w
    = (Next tt, w1, t1) /\ db w1 = db w.
Proof.
  unfold try_catch, bind. rewrite unlink_if_exists_run.
  destruct (present (Some (row_path file))) as [q|].
  - destruct (fs w !! q) as [[b|]|]; [| eauto |];
      rewrite unlink_if_exists_run;
      destruct (present (row_thumbnail_path file)) as [tp|]; eauto;
      cbn [fs db];
      match goal with
      | |- context [match ?m !! tp with _ => _ end] =>
          destruct (m !! tp) as [[b'|]|]; eauto
      end.
  - rewrite unlink_if_exists_run.
    destruct (present (row_thumbnail_path file)) as [tp|]; eauto.
    destruct (fs w !! tp) as [[b'|]|]; eauto.
Qed.

(** It touches the two paths of the record only. *)
Lemma unlink_if_exists_other q p w :
  q <> Some p ->
  fs (snd (fst (unlink_if_exists q w))) !! p = fs w !! p.
Proof.
  intros N. rewrite unlink_if_exists_run.
  destruct (present q) as [q'|] eqn:P; [|reflexivity].
  apply present_Some in P. subst q.
  destruct (fs w !! q') as [[b|]|]; cbn; try reflexivity.
  apply lookup_delete_ne. congruence.
Qed.

Lemma cleanup_frame file w w1 t1 p :
  try_catch (unlink_if_exists (Some (row_path file)) ;;;
             unlink_if_exists (row_thumbnail_path file)) tt w
  = (Next tt, w1, t1) ->
  p <> row_path file -> row_thumbnail_path file <> Some p ->
  fs w1 !! p = fs w !! p.
Proof.
  intros E N1 N2. unfold try_catch, bind in E.
  pose proof (unlink_if_exists_other (Some (row_path file)) p w) as F1.
  destruct (unlink_if_exists (Some (row_path file)) w) as [[o1 wa] ta].
  cbn [fst snd] in F1. rewrite <- F1 by congruence.
  destruct o1 as [[]|r|e]; [|discriminate E | injection E as <- _; reflexivity].
  pose proof (unlink_if_exists_other (row_thumbnail_path file) p wa N2) as F2.
  destruct (unlink_if_exists (row_thumbnail_path file) wa) as [[o2 wb] tb].
  cbn [fst snd] in F2. rewrite <- F2.
  destruct o2; congruence.
Qed.

Lemma deleteFile_none req w :
  List.find (row_owned (req_id req) (req_user req)) (db w) = None ->
  deleteFile req w
  = (Json 404 "File not found" None, w, [EDelete (req_id req) (req_user req)]).
Proof.
  intros F. unfold deleteFile, handle. unfold bind at 1.
  rewrite File_delete_run, F. reflexivity.
Qed.

Lemma deleteFile_some req w file :
  List.find (row_owned (req_id req) (req_user req)) (db w) = Some file ->
  exists w1 t1,
    try_catch (unlink_if_exists (Some (row_path file)) ;;;
               unlink_if_exists (row_thumbnail_path file)) tt
      {| db := List.filter (fun r => negb (row_owned (req_id req) (req_user req) r))
                 (db w);
         fs := fs w |}
    = (Next tt, w1, t1) /\
    deleteFile req w
    = (Message 200 "File deleted successfully", w1,
       EDelete (req_id req) (req_user req) :: t1) /\
    db w1 = List.filter (fun r => negb (row_owned (req_id req) (req_user req) r)) (db w).
Proof.
  intros F.
  set (w0 := {| db := _; fs := fs w |}).
  destruct (cleanup_run file w0) as (w1 & t1 & E & D).
  exists w1, t1. split; [exact E|]. split; [|exact D].
  unfold deleteFile, handle. unfold bind at 1. rewrite File_delete_run, F.
  fold w0. unfold bind at 1. rewrite E. cbn. now rewrite app_nil_r.
Qed.

Lemma filter_true {A} (f : A -> bool) l :
  (forall x, In x l -> f x = true) -> List.filter f l = l.
Proof.
  induction l as [|a l IH]; cbn; [reflexivity|]. intros H.
  rewrite (H a) by (left; reflexivity). f_equal. apply IH. intros x I. apply H. now right.
Qed.

Lemma find_row_owned id user rows :
  List.find (row_owned id user) rows = None <->
  forall row, In row rows -> row_id row = id -> row_user_id row <> user.
Proof.
  split.
  - intros F row I Ei Eu.
    pose proof (List.find_none _ _ F row I) as N. unfold row_owned in N.
    rewrite Ei, Eu, !Z.eqb_refl in N. discriminate N.
  - intros Other. destruct (List.find _ rows) as [file|] eqn:F; [|reflexivity].
    apply List.find_some in F as [I O]. unfold row_owned in O.
    apply andb_true_iff in O as [Oi Ou]. apply Z.eqb_eq in Oi, Ou.
    destruct (Other file I Oi Ou).
Qed.

Lemma filter_not_owned id user rows row :
  In row (List.filter (fun r => negb (row_owned id user r)) rows) <->
  In row rows /\ ~ (row_id row = id /\ row_user_id row = user).
Proof.
  rewrite List.filter_In. unfold row_owned.
  rewrite negb_true_iff, andb_false_iff, !Z.eqb_neq.
  destruct (Z.eq_dec (row_id row) id), (Z.eq_dec (row_user_id row) user); tauto.
Qed.

(** X11.  [deleteFile] answers 200 when the caller owns a record with the
    id of the request and 404 'File not found' otherwise, in which case it
    has done nothing but the query.  What [unlinkSync] throws ends in the
    [catch] of the inner [try] and does not change the answer. *)
Theorem deleteFile_answer (req : Req) (w : World) :
  (fst (fst (deleteFile req w)) = Message 200 "File deleted successfully" /\
   exists row, In row (db w) /\ row_id row = req_id req /\
               row_user_id row = req_user req)
  \/ (deleteFile req w
      = (Json 404 "File not found" None, w, [EDelete (req_id req) (req_user req)]) /\
      forall row, In row (db w) -> row_id row = req_id req ->
                  row_user_id row <> req_user req).
Proof.
  destruct (List.find (row_owned (req_id req) (req_user req)) (db w))
    as [file|] eqn:F.
  - left. destruct (deleteFile_some _ _ _ F) as (w1 & t1 & _ & -> & _).
    split; [reflexivity|]. apply List.find_some in F as [I O].
    unfold row_owned in O. apply andb_true_iff in O as [Oi Ou].
    apply Z.eqb_eq in Oi, Ou. eauto.
  - right. split; [apply deleteFile_none, F | apply find_row_owned, F].
Qed.

(** The table after [deleteFile], whatever it answered. *)
Lemma deleteFile_db req w :
  db (snd (fst (deleteFile req w)))
  = List.filter (fun r => negb (row_owned (req_id req) (req_user req) r)) (db w).
Proof.
  destruct (List.find (row_owned (req_id req) (req_user req)) (db w))
    as [file|] eqn:F.
  - destruct (deleteFile_some _ _ _ F) as (w1 & t1 & _ & -> & D). exact D.
  - rewrite (deleteFile_none _ _ F). cbn [fst snd]. symmetry.
    apply filter_true. intros row I. apply negb_true_iff.
    destruct (row_owned (req_id req) (req_user req) row) eqn:O; [|reflexivity].
    unfold row_owned in O. apply andb_true_iff in O as [Oi Ou].
    apply Z.eqb_eq in Oi, Ou.
    destruct (proj1 (find_row_owned _ _ _) F row I Oi Ou).
Qed.

(** X12.  After [deleteFile] the table holds the rows it held except the
    caller's rows with the id of the request: no row of another user and no
    row with another id is deleted, whatever the answer was. *)
Theorem deleteFile_table (req : Req) (w : World) (row : FileRow) :
  In row (db (snd (fst (deleteFile req w)))) <->
  In row (db w) /\ ~ (row_id row = req_id req /\ row_user_id row = req_user req).
Proof.
  destruct (List.find (row_owned (req_id req) (req_user req)) (db w))
    as [file|] eqn:F.
  - destruct (deleteFile_some _ _ _ F) as (w1 & t1 & _ & -> & D).
    cbn [fst snd]. rewrite D. apply filter_not_owned.
  - rewrite (deleteFile_none _ _ F). cbn [fst snd]. split; [|tauto].
    intros I. split; [exact I|]. intros [Ei Eu].
    exact (proj1 (find_row_owned _ _ _) F row I Ei Eu).
Qed.

(** X13.  A second [deleteFile] for the same request is answered 404 and
    changes nothing. *)
Theorem deleteFile_twice (req : Req) (w : World) :
  let w1 := snd (fst (deleteFile req w)) in
  deleteFile req w1
  = (Json 404 "File not found" None, w1, [EDelete (req_id req) (req_user req)]).
Proof.
  cbv zeta. apply deleteFile_none, find_row_owned. intros row I Ei Eu.
  rewrite deleteFile_db in I. apply filter_not_owned in I.
  destruct I as [_ I]. apply I. auto.
Qed.

(** X14.  Once a user (whose id is not [0]) has deleted a record, every
    request of that user to [/process] for its id is turned down for its
    parameters or answered 'File not found', and nothing is read from the
    disk, although the files derived from it are still in the cache. *)
Theorem deleteFile_then_derive (op : Operation) (req req' : Req) (w : World) :
  req_user req <> 0 ->
  req_id req' = req_id req -> req_user req' = req_user req ->
  let w1 := snd (fst (deleteFile req w)) in
  derive op req' w1
  = (Json 404 "File not found" None, w1, [EFindById (req_id req) (req_user req)])
  \/ exists e m, derive op req' w1 = (Json 400 e (Some m), w1, []).
Proof.
  intros N Ei Eu. cbv zeta. rewrite <- Ei, <- Eu.
  apply derive_not_found, find_not_owned; [congruence|].
  intros row I Ri Ru. rewrite deleteFile_db in I.
  apply filter_not_owned in I. destruct I as [_ I].
  apply I. split; congruence.
Qed.

Lemma present_nonempty s : s <> "" -> present (Some s) = Some s.
Proof. destruct s; [contradiction | reflexivity]. Qed.

(** X15.  When the file of the deleted record is not a directory,
    [deleteFile] leaves neither that file nor the stored thumbnail, if it is
    a regular file, on the disk. *)
Theorem deleteFile_unlinks (req : Req) (w : World) (file : FileRow) :
  List.find (row_owned (req_id req) (req_user req)) (db w) = Some file ->
  row_path file <> "" ->
  fs w !! row_path file <> Some Dir ->
  let w1 := snd (fst (deleteFile req w)) in
  fs w1 !! row_path file = None /\
  (forall tp b, row_thumbnail_path file = Some tp -> tp <> "" ->
                fs w !! tp = Some (File b) -> fs w1 !! tp = None).
Proof.
  intros F Ne Nd. cbv zeta.
  destruct (deleteFile_some _ _ _ F) as (w1 & t1 & E & -> & _). cbn [fst snd].
  set (d := List.filter _ (db w)) in E.
  assert (Second : forall f0,
             f0 !! row_path file = None ->
             (forall tp b, tp <> row_path file -> fs w !! tp = Some (File b) ->
                           f0 !! tp = Some (File b)) ->
             forall o w2 t2,
               unlink_if_exists (row_thumbnail_path file) {| db := d; fs := f0 |}
               = (o, w2, t2) ->
               fs w2 !! row_path file = None /\
               (forall tp b, row_thumbnail_path file = Some tp -> tp <> "" ->
                             fs w !! tp = Some (File b) -> fs w2 !! tp = None)).
  { intros f0 Gone Kept o w2 t2. rewrite unlink_if_exists_run.
    destruct (row_thumbnail_path file) as [tp|].
    2:{ cbn. intros [= _ <- _]. split; [exact Gone|]. intros ? ? [=]. }
    destruct (present (Some tp)) as [q|] eqn:P.
    2:{ intros [= _ <- _]. cbn. split; [exact Gone|].
        intros tp' b [= <-] Ne'. rewrite (present_nonempty _ Ne') in P. discriminate P. }
    apply present_Some in P. injection P as <-. cbn [fs db].
    destruct (decide (tp = row_path file)) as [->|Ntp].
    - rewrite Gone. intros [= _ <- _]. cbn. split; [exact Gone|].
      intros tp' b [= <-] _ _. exact Gone.
    - destruct (f0 !! tp) as [[b0|]|] eqn:L.
      + intros [= _ <- _]. cbn. split.
        * rewrite lookup_delete_ne by exact Ntp. exact Gone.
        * intros tp' b [= <-] _ _. apply lookup_delete_eq.
      + intros [= _ <- _]. cbn. split; [exact Gone|].
        intros tp' b [= <-] _ Hb. rewrite (Kept _ _ Ntp Hb) in L. discriminate L.
      + intros [= _ <- _]. cbn. split; [exact Gone|].
        intros tp' b [= <-] _ _. exact L. }
  unfold try_catch, bind in E. rewrite unlink_if_exists_run in E.
  rewrite (present_nonempty _ Ne) in E. cbn [fs db] in E.
  destruct (fs w !! row_path file) as [[b|]|] eqn:L; [| contradiction |].
  - destruct (unlink_if_exists (row_thumbnail_path file)
                {| db := d; fs := delete (row_path file) (fs w) |})
      as [[o3 w3] t3] eqn:U.
    assert (W : w3 = w1) by (destruct o3; congruence).
    subst w3. revert U. apply Second.
    + apply lookup_delete_eq.
    + intros tp b' Ntp Hb. rewrite lookup_delete_ne by congruence. exact Hb.
  - destruct (unlink_if_exists (row_thumbnail_path file) {| db := d; fs := fs w |})
      as [[o3 w3] t3] eqn:U.
    assert (W : w3 = w1) by (destruct o3; congruence).
    subst w3. revert U. apply Second; [exact L | auto].
Qed.

End DeletionMore.


(** The picture of the sample, resized once, is deleted and asked for again. *)
Lemma deleteFile_then_derive_witness :
  let req := Sample.get 1 (Sample.width_height (Some "100") None) in
  derive Resize req Sample.deleted
  = (Json 404 "File not found" None, Sample.deleted, [EFindById 1 1])
  \/ exists e m, derive Resize req Sample.deleted = (Json 400 e (Some m), Sample.deleted, []).
Proof.
  cbv zeta.
  apply (deleteFile_then_derive (host := Ref.host) Resize
           (Sample.get 1 Sample.no_query)
           (Sample.get 1 (Sample.width_height (Some "100") None)) Sample.resized).
  - cbn. lia.
  - reflexivity.
  - reflexivity.
Defined.

(** The sample picture and its thumbnail, after the deletion. *)
Lemma deleteFile_unlinks_witness :
  fs Sample.deleted !! "uploads/1/pic.png" = None /\
  (forall tp b, Some "uploads/1/pic_thumb.jpg" = Some tp -> tp <> "" ->
                fs Sample.resized !! tp = Some (File b) ->
                fs Sample.deleted !! tp = None).
Proof.
  apply (deleteFile_unlinks (host := Ref.host) (Sample.get 1 Sample.no_query)
           Sample.resized (List.hd Sample.clip_row (db Sample.resized))).
  - reflexivity.
  - discriminate.
  - discriminate.
Defined.

(** ** [uploadImage] *)

Section UploadRuns.
Context `{host : Host}.

Lemma upload_thumbnail_run file w :
  upload_thumbnail file w =
  if String.eqb (up_fileType file) "image"
  then
    let looked := EMetadata (up_path file) in
    let made := EToFile (up_path file) upload_thumbnail_pipeline (thumbnailPath_of file) in
    match read w (up_path file) with
    | None => (Next None, w, [looked])
    | Some src =>
        match sharp_metadata src with
        | inl _ => (Next None, w, [looked])
        | inr _ =>
            match sharp upload_thumbnail_pipeline src with
            | inl _ => (Next None, w, [looked; made])
            | inr out =>
                (Next (Some (thumbnailPath_of file)),
                 {| db := db w; fs := <[thumbnailPath_of file := File out]> (fs w) |},
                 [looked; made])
            end
        end
    end
  else (Next None, w, []).
Proof.
  unfold upload_thumbnail, thumbnailPath_of.
  destruct (String.eqb (up_fileType file) "image"); [|reflexivity].
  unfold try_catch, metadata, toFile, bind, emit, get_world, set_fs, ret, throw. cbn.
  destruct (read w (up_path file)) as [src|] eqn:R; cbn; [|reflexivity].
  destruct (sharp_metadata src); cbn; [reflexivity|]. rewrite R.
  destruct (sharp upload_thumbnail_pipeline src); reflexivity.
Qed.

(** The thumbnail step never leaves the handler: its errors are caught. *)
Lemma upload_thumbnail_next file w :
  exists thumbnailPath w0 t0,
    upload_thumbnail file w = (Next thumbnailPath, w0, t0).
Proof.
  rewrite upload_thumbnail_run.
  destruct (String.eqb (up_fileType file) "image"); [|eauto].
  cbv zeta. destruct (read w (up_path file)) as [src|]; [|eauto].
  destruct (sharp_metadata src); [eauto|].
  destruct (sharp upload_thumbnail_pipeline src); eauto.
Qed.

Lemma uploadImage_run file folder user id w thumbnailPath w0 t0 :
  folder_fails folder = false ->
  upload_thumbnail file w = (Next thumbnailPath, w0, t0) ->
  uploadImage (Some file) folder user id w =
  (Some (Message 201 "File uploaded successfully"),
   {| db := db w0 ++ [recorded file user id (present thumbnailPath)];
      fs := fs w0 |},
   t0 ++ [EInsert (up_filename file)]).
Proof.
  intros F U. unfold uploadImage, upload_catch. unfold bind at 1.
  destruct folder as [|fid|e]; [| |discriminate F];
    cbn [folder_step ret]; unfold bind at 1; rewrite U; reflexivity.
Qed.

(** When the folder step throws, the [catch] is all that runs. *)
Lemma upload_failed_run label fallback file (body : M Response) e w :
  upload_catch label fallback file (folder_step (FolderError e) ;;; body) w =
  match unlink_if_exists (Some (up_path file)) w with
  | (Next _, w2, t2) => (Some (Json 500 label (Some (or_text e fallback))), w2, t2)
  | (_, w2, t2) => (None, w2, t2)
  end.
Proof.
  unfold upload_catch. unfold bind at 1. cbn [folder_step throw].
  destruct (unlink_if_exists (Some (up_path file)) w) as [[[u|r|e'] w2] t2];
    reflexivity.
Qed.

End UploadRuns.

Section UploadMore.
Context `{host : Host}.

Lemma fresh_id_above id rows row :
  fresh_id id rows = true -> In row rows -> row_id row < id.
Proof.
  unfold fresh_id. rewrite forallb_forall. intros F I.
  apply F in I. now apply Z.ltb_lt.
Qed.

Lemma find_snoc {A} (f : A -> bool) l x :
  (forall y, In y l -> f y = false) -> f x = true -> List.find f (l ++ [x]) = Some x.
Proof.
  intros No Yes. induction l as [|a l IH]; cbn.
  - now rewrite Yes.
  - rewrite (No a) by (left; reflexivity). apply IH. intros y I. apply No. now right.
Qed.

(** The row that was just inserted is the one its id finds. *)
Lemma find_recorded file user id rows thumbnail :
  fresh_id id rows = true ->
  List.find (row_matches id user) (rows ++ [recorded file user id thumbnail])
  = Some (recorded file user id thumbnail).
Proof.
  intros F. apply find_snoc.
  - intros row I. apply (fresh_id_above _ _ _ F) in I. unfold row_matches.
    apply andb_false_iff. left. apply Z.eqb_neq. lia.
  - unfold row_matches, recorded. cbn. rewrite !Z.eqb_refl. apply orb_true_r.
Qed.

(** What [uploadImage] does when the folder step goes through, in one
    piece. *)
Lemma uploadImage_cases file folder user id w :
  folder_fails folder = false ->
  let run := uploadImage (Some file) folder user id w in
  exists thumbnail,
    fst (fst run) = Some (Message 201 "File uploaded successfully") /\
    db (snd (fst run)) = db w ++ [recorded file user id thumbnail] /\
    (forall p, p <> thumbnailPath_of file -> fs (snd (fst run)) !! p = fs w !! p) /\
    ((thumbnail = None /\
      forall p n, fs w !! p = Some n -> is_Some (fs (snd (fst run)) !! p))
     \/ (thumbnail = Some (thumbnailPath_of file) /\
         thumbnailPath_of file <> "" /\
         up_fileType file = "image" /\
         exists src out,
           read w (up_path file) = Some src /\
           sharp upload_thumbnail_pipeline src = inr out /\
           fs (snd (fst run)) = <[thumbnailPath_of file := File out]> (fs w))).
Proof.
  intros Fo. cbv zeta.
  destruct (upload_thumbnail_next file w) as (tp0 & w0 & t0 & U).
  rewrite (uploadImage_run _ _ _ _ _ _ _ _ Fo U).
  rewrite upload_thumbnail_run in U. cbv zeta in U.
  assert (Keep : forall p n, fs w !! p = Some n -> is_Some (fs w !! p)) by eauto.
  destruct (String.eqb (up_fileType file) "image") eqn:T;
    [|injection U as <- <- <-; exists None; cbn; auto 10].
  apply String.eqb_eq in T.
  destruct (read w (up_path file)) as [src|] eqn:R;
    [|injection U as <- <- <-; exists None; cbn; auto 10].
  destruct (sharp_metadata src); [injection U as <- <- <-; exists None; cbn; auto 10|].
  destruct (sharp upload_thumbnail_pipeline src) as [e|out] eqn:S;
    injection U as <- <- <-; [exists None; cbn; auto 10|].
  cbn [fst snd db fs].
  assert (Frame : forall p, p <> thumbnailPath_of file ->
                            <[thumbnailPath_of file := File out]> (fs w) !! p = fs w !! p).
  { intros p N. apply lookup_insert_ne. congruence. }
  destruct (thumbnailPath_of file) as [|c tp] eqn:P.
  - exists None. cbn. split; [reflexivity|]. split; [reflexivity|].
    split; [exact Frame|]. left.
    split; [reflexivity|]. intros p n L.
    destruct (decide ("" = p)) as [<-|N].
    + rewrite lookup_insert_eq. eauto.
    + rewrite lookup_insert_ne by exact N. eauto.
  - exists (Some (String c tp)). cbn. split; [reflexivity|]. split; [reflexivity|].
    split; [exact Frame|].
    right. split; [reflexivity|]. split; [discriminate|]. split; [exact T|].
    exists src, out. auto.
Qed.

(** What the [catch] of an upload handler leaves: the table as it was, and
    the disk but for the uploaded file. *)
Lemma upload_failed_cases label fallback file (body : M Response) e w :
  let run := upload_catch label fallback file (folder_step (FolderError e) ;;; body) w in
  db (snd (fst run)) = db w /\
  (forall r, fst (fst run) = Some r ->
             r = Json 500 label (Some (or_text e fallback))) /\
  (fst (fst run) = None -> fs w !! up_path file = Some Dir) /\
  (forall p, p <> up_path file -> fs (snd (fst run)) !! p = fs w !! p).
Proof.
  cbv zeta. rewrite upload_failed_run.
  rewrite unlink_if_exists_run.
  destruct (present (Some (up_path file))) as [q|] eqn:P.
  - apply present_Some in P. injection P as <-.
    destruct (fs w !! up_path file) as [[b|]|] eqn:L; cbn [fst snd db fs];
      (split; [reflexivity|]); (split; [intros r [= <-]; reflexivity|]);
      (split; [intros [=]; try reflexivity|]); auto.
    intros p N. apply lookup_delete_ne. congruence.
  - cbn [fst snd]. split; [reflexivity|]. split; [intros r [= <-]; reflexivity|].
    split; [intros [=]|]. auto.
Qed.

(** X16.  [uploadImage] answers 400 when multer stored no file.  With a
    file, and when the folder step does not throw, it answers 201 whatever
    the engine makes of the upload and appends one row: the fields of the
    upload, the id the table hands back, and as its thumbnail either nothing
    or the path derived from the path of the upload; no file that was on the
    disk is removed.  When the folder step throws, no row is added, the
    answer, if there is one, is the 500 of the [catch] with the message of
    the error, and no path other than that of the uploaded file changes. *)
Theorem uploadImage_always_records
  (file : Upload) (folder : FolderStep) (user id : Z) (w : World) :
  uploadImage None folder user id w
  = (Some (Json 400 "No file uploaded" (Some "Please select a file to upload")),
     w, []) /\
  let run := uploadImage (Some file) folder user id w in
  match folder with
  | FolderError e =>
      db (snd (fst run)) = db w /\
      (forall r, fst (fst run) = Some r ->
                 r = Json 500 "Upload failed"
                       (Some (or_text e "Unable to upload file"))) /\
      (fst (fst run) = None -> fs w !! up_path file = Some Dir) /\
      (forall p, p <> up_path file -> fs (snd (fst run)) !! p = fs w !! p)
  | _ =>
      exists thumbnail,
        fst (fst run) = Some (Message 201 "File uploaded successfully") /\
        db (snd (fst run)) = db w ++ [recorded file user id thumbnail] /\
        (thumbnail = None \/ thumbnail = Some (thumbnailPath_of file)) /\
        (forall p n, fs w !! p = Some n -> is_Some (fs (snd (fst run)) !! p))
  end.
Proof.
  split; [reflexivity|]. cbv zeta.
  assert (Ok : folder_fails folder = false ->
               exists thumbnail,
                 fst (fst (uploadImage (Some file) folder user id w))
                 = Some (Message 201 "File uploaded successfully") /\
                 db (snd (fst (uploadImage (Some file) folder user id w)))
                 = db w ++ [recorded file user id thumbnail] /\
                 (thumbnail = None \/ thumbnail = Some (thumbnailPath_of file)) /\
                 (forall p n, fs w !! p = Some n ->
                    is_Some (fs (snd (fst (uploadImage (Some file) folder user id w))) !! p))).
  { intros Fo.
    destruct (uploadImage_cases file folder user id w Fo)
      as (thumb & R & D & _ & [[-> K]|(-> & _ & _ & src & out & _ & _ & F)]);
      cbv zeta in *; eexists; (split; [exact R|]); (split; [exact D|]);
      (split; [auto|]); [exact K|].
    intros p n L. rewrite F.
    destruct (decide (thumbnailPath_of file = p)) as [<-|N].
    - rewrite lookup_insert_eq. eauto.
    - rewrite lookup_insert_ne by exact N. eauto. }
  destruct folder as [|fid|e]; [apply Ok; reflexivity | apply Ok; reflexivity |].
  unfold uploadImage. apply upload_failed_cases.
Qed.

(** X17.  The table hands back an id that is larger than every id it
    holds.  With such an id, and when the folder step does not throw,
    [File.findById] with that id and the uploader finds, in the world
    [uploadImage] leaves, the row that was just inserted. *)
Theorem uploadImage_then_findById
  (file : Upload) (folder : FolderStep) (user id : Z) (w : World) :
  fresh_id id (db w) = true -> folder_fails folder = false ->
  let w1 := snd (fst (uploadImage (Some file) folder user id w)) in
  exists thumbnail,
    db w1 = db w ++ [recorded file user id thumbnail] /\
    findById id user w1
    = (Next (Some (recorded file user id thumbnail)), w1, [EFindById id user]).
Proof.
  intros Fr Fo. cbv zeta.
  destruct (uploadImage_cases file folder user id w Fo) as (thumb & _ & D & _ & _).
  cbv zeta in D. exists thumb. split; [exact D|].
  set (w1 := snd (fst (uploadImage (Some file) folder user id w))) in *.
  unfold findById, bind, emit, get_world, ret. cbn.
  rewrite D, (find_recorded _ _ _ _ _ Fr). reflexivity.
Qed.

Lemma snoc_inj {A} (l : list A) x y : l ++ [x] = l ++ [y] -> x = y.
Proof. intros E. apply app_inv_head in E. now injection E. Qed.

Lemma snoc_not_same {A} (l : list A) x : l <> l ++ [x].
Proof.
  intros E. apply (f_equal (@length A)) in E. rewrite List.length_app in E.
  cbn in E. lia.
Qed.

(** A row is recorded only when the folder step went through. *)
Lemma recorded_folder_ok file folder user id w row :
  db (snd (fst (uploadImage (Some file) folder user id w))) = db w ++ [row] ->
  folder_fails folder = false.
Proof.
  intros D. destruct folder as [|fid|e]; try reflexivity. exfalso.
  unfold uploadImage in D.
  match type of D with
  | db (snd (fst (upload_catch ?l ?f _ (_ ;;; ?body) _))) = _ =>
      destruct (upload_failed_cases l f file body e w) as (D' & _)
  end.
  cbv zeta in D'. rewrite D' in D.
  exact (snoc_not_same _ _ D).
Qed.

(** X18.  A thumbnail is recorded only for an upload typed as an image
    whose thumbnail the engine has written: the recorded path then holds
    what the engine made of the uploaded file with [resize(300, 300, {fit:
    'inside', withoutEnlargement: true})] and [jpeg({quality: 80})], and
    nothing else on the disk has changed. *)
Theorem uploadImage_thumbnail_made
  (file : Upload) (folder : FolderStep) (user id : Z) (w : World) (tp : string) :
  let w1 := snd (fst (uploadImage (Some file) folder user id w)) in
  db w1 = db w ++ [recorded file user id (Some tp)] ->
  up_fileType file = "image" /\ tp = thumbnailPath_of file /\
  exists src out,
    read w (up_path file) = Some src /\
    sharp upload_thumbnail_pipeline src = inr out /\
    fs w1 = <[tp := File out]> (fs w).
Proof.
  cbv zeta. intros D. pose proof (recorded_folder_ok _ _ _ _ _ _ D) as Fo.
  destruct (uploadImage_cases file folder user id w Fo)
    as (thumb & _ & D' & _ & [[-> _]|(-> & _ & T & src & out & R & S & F)]);
    cbv zeta in *; rewrite D' in D; apply snoc_inj in D;
    injection D as D; [discriminate D|].
  subst tp. eauto 10.
Qed.

(** X19.  With an engine that keeps its contract, the thumbnail stored at
    upload lies within 300 x 300 pixels, is no larger than the upload in
    either dimension, has its ratio up to one pixel of rounding, and has its
    very size when the upload is within 300 x 300. *)
Theorem uploadImage_thumbnail_size
  (file : Upload) (folder : FolderStep) (user id : Z) (w : World) (tp : string) :
  sharp_geometry ->
  let w1 := snd (fst (uploadImage (Some file) folder user id w)) in
  db w1 = db w ++ [recorded file user id (Some tp)] ->
  exists src out W H ow oh,
    read w (up_path file) = Some src /\ read w1 tp = Some out /\
    image_size src = Some (W, H) /\ image_size out = Some (ow, oh) /\
    1 <= ow <= W /\ 1 <= oh <= H /\ ow <= 300 /\ oh <= 300 /\
    same_ratio W H ow oh /\
    (W <= 300 -> H <= 300 -> (ow, oh) = (W, H)).
Proof.
  intros Contract. cbv zeta. intros D.
  pose proof (recorded_folder_ok _ _ _ _ _ _ D) as Fo.
  destruct (uploadImage_cases file folder user id w Fo)
    as (thumb & _ & D' & _ & [[-> _]|(-> & _ & T & src & out & R & S & F)]);
    cbv zeta in *; rewrite D' in D; apply snoc_inj in D;
    injection D as D; [discriminate D|].
  subst tp.
  destruct (Contract _ _ _ S) as (W & H & Isrc & HW & HH & _ & Size).
  cbn [pl_geometry upload_thumbnail_pipeline geometry_size dim_val] in Size.
  pose proof (inside_size_spec W H (Some 300) (Some 300) HW HH) as G.
  destruct (resize_size FitInside true W H (Some 300) (Some 300)) as [ow oh].
  destruct G as (Gw & Gh & Ga & Gb & Gr & Gi);
    [intros a [= <-]; lia | intros b [= <-]; lia |].
  exists src, out, W, H, ow, oh.
  split; [exact R|]. split; [apply read_Some; rewrite F; apply lookup_insert_eq|].
  split; [exact Isrc|]. split; [exact Size|].
  split; [exact Gw|]. split; [exact Gh|].
  split; [apply Ga; reflexivity|]. split; [apply Gb; reflexivity|].
  split; [exact Gr|]. intros LW LH. apply Gi; intros ? [= <-]; assumption.
Qed.

(** X20.  Upload, then ask: when [uploadImage] has recorded a thumbnail
    under an id larger than every id the table held, the uploader's request
    for the thumbnail of the new record with no size and no quality is
    answered with that stored file, after the lookup and two existence
    checks and without the engine. *)
Theorem upload_then_default_thumbnail
  (file : Upload) (folder : FolderStep) (user id : Z) (w : World) (tp : string)
  (req : Req) :
  fresh_id id (db w) = true ->
  let w1 := snd (fst (uploadImage (Some file) folder user id w)) in
  db w1 = db w ++ [recorded file user id (Some tp)] ->
  req_id req = id -> req_user req = user ->
  q_size (req_query req) = None -> q_quality (req_query req) = None ->
  exists out,
    read w1 tp = Some out /\
    generateThumbnail req w1
    = (SendFile tp (Some out), w1,
       [EFindById (req_id req) user; EExists (up_path file); EExists tp]).
Proof.
  intros Fr. cbv zeta. intros D Ei Eu Qs Qq.
  pose proof (recorded_folder_ok _ _ _ _ _ _ D) as Fo.
  destruct (uploadImage_cases file folder user id w Fo)
    as (thumb & _ & D' & _ & [[-> _]|(-> & Ne & T & src & out & R & S & F)]);
    cbv zeta in *; pose proof D as D0; rewrite D' in D0; apply snoc_inj in D0;
    injection D0 as D0; [discriminate D0|].
  subst tp. set (w1 := snd (fst (uploadImage (Some file) folder user id w))) in *.
  assert (Rout : read w1 (thumbnailPath_of file) = Some out).
  { apply read_Some. rewrite F. apply lookup_insert_eq. }
  exists out. split; [exact Rout|].
  change (generateThumbnail req w1) with (derive Thumbnail req w1).
  rewrite derive_run by reflexivity. cbn [plan]. unfold thumbnail_plan.
  rewrite Qs, Qq. cbn [parseInt_default lt gt orb Z.ltb Z.compare Pos.compare
                         Pos.compare_cont].
  rewrite resolved_run. cbv zeta. rewrite Ei, Eu, D, (find_recorded _ _ _ _ _ Fr).
  cbn [recorded row_file_type row_path]. rewrite T. cbn [String.eqb negb].
  assert (Src : is_Some (fs w1 !! up_path file)).
  { apply read_Some in R. rewrite F.
    destruct (decide (thumbnailPath_of file = up_path file)) as [->|N].
    - rewrite lookup_insert_eq. eauto.
    - rewrite lookup_insert_ne by exact N. eauto. }
  rewrite (bool_decide_eq_true_2 _ Src). rewrite answer_run.
  cbn [recorded row_thumbnail_path]. rewrite (present_nonempty _ Ne).
  apply read_Some in Rout as Fout.
  rewrite bool_decide_eq_true_2 by (rewrite Fout; eauto).
  cbn [strict_eq Z.eqb Pos.eqb andb finish]. rewrite Rout. reflexivity.
Qed.

Lemma older_not_owned id rows user row :
  fresh_id id rows = true -> In row rows -> row_owned id user row = false.
Proof.
  intros F I. apply (fresh_id_above _ _ _ F) in I. unfold row_owned.
  apply andb_false_iff. left. apply Z.eqb_neq. lia.
Qed.

(** X21.  Upload, then delete: when the uploader deletes the record
    [uploadImage] has just inserted under an id larger than every id the
    table held, the answer is 200, the table is the one from before the
    upload, and every path other than that of the upload and of its
    thumbnail holds what it held. *)
Theorem upload_then_delete
  (file : Upload) (folder : FolderStep) (user id : Z) (w : World) (req : Req) :
  fresh_id id (db w) = true -> folder_fails folder = false ->
  req_id req = id -> req_user req = user ->
  let w1 := snd (fst (uploadImage (Some file) folder user id w)) in
  let run := deleteFile req w1 in
  fst (fst run) = Message 200 "File deleted successfully" /\
  db (snd (fst run)) = db w /\
  (forall p, p <> up_path file -> p <> thumbnailPath_of file ->
             fs (snd (fst run)) !! p = fs w !! p).
Proof.
  intros Fr Fo Ei Eu. cbv zeta.
  destruct (uploadImage_cases file folder user id w Fo)
    as (thumb & _ & D & Frame & Thumb).
  cbv zeta in *. set (w1 := snd (fst (uploadImage (Some file) folder user id w))) in *.
  set (new := recorded file user id thumb) in *.
  assert (Own : row_owned id user new = true).
  { unfold row_owned, new, recorded. cbn. now rewrite !Z.eqb_refl. }
  assert (F : List.find (row_owned (req_id req) (req_user req)) (db w1) = Some new).
  { rewrite Ei, Eu, D. apply find_snoc; [|exact Own].
    intros row I. apply (older_not_owned _ _ _ _ Fr I). }
  destruct (deleteFile_some _ _ _ F) as (w2 & t2 & E & -> & D2). cbn [fst snd].
  split; [reflexivity|]. split.
  - rewrite D2, Ei, Eu, D, List.filter_app. cbn [List.filter]. rewrite Own. cbn.
    rewrite app_nil_r. apply filter_true. intros row I.
    now rewrite (older_not_owned _ _ _ _ Fr I).
  - intros p N1 N2. rewrite (cleanup_frame _ _ _ _ p E); cbn [fs].
    + apply Frame, N2.
    + exact N1.
    + unfold new, recorded. cbn.
      destruct Thumb as [[-> _]|(-> & _)]; [discriminate | congruence].
Qed.

End UploadMore.

(** A second picture is uploaded next to the sample one after the record
    with the id 2 has been deleted: the table hands back 3. *)
Lemma uploadImage_then_findById_witness :
  let second := {| up_path := "uploads/1/sea.png"; up_filename := "sea.png";
                   up_originalname := "sea.png"; up_size := 1024;
                   up_mimetype := "image/png"; up_fileType := "image" |} in
  let w1 := snd (fst (uploadImage (Some second) NoFolder 1 3 Sample.uploaded)) in
  exists thumbnail,
    db w1 = db Sample.uploaded ++ [recorded second 1 3 thumbnail] /\
    findById 3 1 w1 = (Next (Some (recorded second 1 3 thumbnail)), w1, [EFindById 3 1]).
Proof.
  cbv zeta.
  apply (uploadImage_then_findById (host := Ref.host)
           {| up_path := "uploads/1/sea.png"; up_filename := "sea.png";
              up_originalname := "sea.png"; up_size := 1024;
              up_mimetype := "image/png"; up_fileType := "image" |}
           NoFolder 1 3 Sample.uploaded); reflexivity.
Defined.

(** The upload of the sample picture. *)
Lemma uploadImage_thumbnail_made_witness :
  up_fileType Sample.photo_upload = "image" /\
  "uploads/1/pic_thumb.jpg" = thumbnailPath_of (host := Ref.host) Sample.photo_upload /\
  exists src out,
    read Sample.stored (up_path Sample.photo_upload) = Some src /\
    sharp upload_thumbnail_pipeline src = inr out /\
    fs Sample.uploaded = <["uploads/1/pic_thumb.jpg" := File out]> (fs Sample.stored).
Proof.
  apply (uploadImage_thumbnail_made (host := Ref.host) Sample.photo_upload NoFolder 1 1
           Sample.stored "uploads/1/pic_thumb.jpg").
  reflexivity.
Defined.

(** The thumbnail of the sample picture of 1000 x 500 pixels. *)
Lemma uploadImage_thumbnail_size_witness :
  exists (src out : @Bytes Ref.host) W H ow oh,
    read Sample.stored (up_path Sample.photo_upload) = Some src /\
    read Sample.uploaded "uploads/1/pic_thumb.jpg" = Some out /\
    image_size src = Some (W, H) /\ image_size out = Some (ow, oh) /\
    1 <= ow <= W /\ 1 <= oh <= H /\ ow <= 300 /\ oh <= 300 /\
    same_ratio W H ow oh /\
    (W <= 300 -> H <= 300 -> (ow, oh) = (W, H)).
Proof.
  apply (uploadImage_thumbnail_size (host := Ref.host) Sample.photo_upload NoFolder 1 1
           Sample.stored "uploads/1/pic_thumb.jpg").
  - apply Ref_sharp_geometry.
  - reflexivity.
Defined.

(** The sample picture, right after its upload. *)
Lemma upload_then_default_thumbnail_witness :
  exists out,
    read Sample.uploaded "uploads/1/pic_thumb.jpg" = Some out /\
    generateThumbnail (Sample.get 1 Sample.no_query) Sample.uploaded
    = (SendFile "uploads/1/pic_thumb.jpg" (Some out), Sample.uploaded,
       [EFindById 1 1; EExists "uploads/1/pic.png"; EExists "uploads/1/pic_thumb.jpg"]).
Proof.
  apply (upload_then_default_thumbnail (host := Ref.host) Sample.photo_upload NoFolder
           1 1 Sample.stored "uploads/1/pic_thumb.jpg" (Sample.get 1 Sample.no_query));
    reflexivity.
Defined.

(** The sample picture is uploaded, and deleted by its owner. *)
Lemma upload_then_delete_witness :
  let run := deleteFile (Sample.get 1 Sample.no_query) Sample.uploaded in
  fst (fst run) = Message 200 "File deleted successfully" /\
  db (snd (fst run)) = db Sample.stored /\
  (forall p, p <> up_path Sample.photo_upload ->
             p <> thumbnailPath_of (host := Ref.host) Sample.photo_upload ->
             fs (snd (fst run)) !! p = fs Sample.stored !! p).
Proof.
  cbv zeta.
  apply (upload_then_delete (host := Ref.host) Sample.photo_upload NoFolder 1 1
           Sample.stored (Sample.get 1 Sample.no_query)); reflexivity.
Defined.

(** ** Folder paths and folder names *)

Section Names.

Lemma all_chars_impl (p q : ascii -> bool) s :
  (forall c, p c = true -> q c = true) -> all_chars p s = true -> all_chars q s = true.
Proof.
  intros PQ. induction s as [|c r IH]; cbn; [auto|].
  rewrite !andb_true_iff. intros [Hc Hr]. auto.
Qed.

Lemma all_chars_remove_all class s :
  all_chars (fun c => negb (class c)) (remove_all class s) = true.
Proof.
  induction s as [|c r IH]; cbn; [reflexivity|].
  destruct (class c) eqn:E; cbn; [exact IH|]. now rewrite E, IH.
Qed.

Lemma remove_all_keeps (p class : ascii -> bool) s :
  all_chars p s = true -> all_chars p (remove_all class s) = true.
Proof.
  induction s as [|c r IH]; cbn; [auto|].
  rewrite andb_true_iff. intros [Hc Hr].
  destruct (class c); cbn; [auto|]. now rewrite Hc, IH.
Qed.

Lemma remove_all_none class s :
  all_chars (fun c => negb (class c)) s = true -> remove_all class s = s.
Proof.
  induction s as [|c r IH]; cbn; [reflexivity|].
  rewrite andb_true_iff, negb_true_iff. intros [-> Hr]. now rewrite IH.
Qed.

(** After [squeeze], what was of the class is the one character [c]. *)
Lemma squeeze_from_chars (p class : ascii -> bool) c b s :
  all_chars p s = true ->
  all_chars (fun a => (p a && negb (class a)) || Ascii.eqb a c)
    (squeeze_from b class c s) = true.
Proof.
  revert b. induction s as [|a r IH]; intros b; cbn; [reflexivity|].
  rewrite andb_true_iff. intros [Ha Hr].
  destruct (class a) eqn:E.
  - destruct b; cbn; [apply IH, Hr|].
    rewrite Ascii.eqb_refl, orb_true_r. apply IH, Hr.
  - cbn. rewrite Ha, E. cbn. apply IH, Hr.
Qed.

Lemma squeeze_from_none class c b s :
  all_chars (fun a => negb (class a)) s = true -> squeeze_from b class c s = s.
Proof.
  revert b. induction s as [|a r IH]; intros b; cbn; [reflexivity|].
  rewrite andb_true_iff, negb_true_iff. intros [-> Hr]. now rewrite IH.
Qed.

(** When [c] is of the class itself, no two neighbours are left in it. *)
Lemma squeeze_from_no_run class c s :
  class c = true ->
  forall b, no_run class (squeeze_from b class c s) = true /\
            (b = true -> starts_with class (squeeze_from b class c s) = false).
Proof.
  intros Hc. induction s as [|a r IH]; intros b; cbn; [auto|].
  destruct (class a) eqn:E.
  - destruct (IH true) as [N S]. destruct b; [auto|]. cbn.
    rewrite Hc, (S eq_refl), N. split; [reflexivity | discriminate].
  - destruct (IH false) as [N _]. cbn. rewrite E, N. auto.
Qed.

Lemma squeeze_from_fixed class c s :
  (forall a, class a = true -> a = c) ->
  no_run class s = true ->
  forall b, (b = true -> starts_with class s = false) -> squeeze_from b class c s = s.
Proof.
  intros Only. induction s as [|a r IH]; cbn; [reflexivity|].
  rewrite andb_true_iff, negb_true_iff. intros [Ha Hr] b Hb.
  destruct (class a) eqn:E.
  - destruct b; [discriminate (Hb eq_refl)|].
    rewrite (Only a E) in *. f_equal. apply IH; [exact Hr|]. intros _. exact Ha.
  - f_equal. apply IH; [exact Hr|]. discriminate.
Qed.

Lemma toLowerCase_fixed s :
  all_chars (fun c => negb (is_upper c)) s = true -> toLowerCase s = s.
Proof.
  induction s as [|c r IH]; cbn; [reflexivity|].
  rewrite andb_true_iff, negb_true_iff. intros [Hc Hr]. rewrite (IH Hr).
  f_equal. unfold lower_char. unfold is_upper in Hc. now rewrite Hc.
Qed.

Lemma trimStart_fixed s :
  all_chars (fun c => negb (is_space c)) s = true -> trimStart s = s.
Proof.
  destruct s as [|c r]; cbn; [reflexivity|].
  rewrite andb_true_iff, negb_true_iff. now intros [-> _].
Qed.

Lemma trimEnd_fixed s :
  all_chars (fun c => negb (is_space c)) s = true -> trimEnd s = s.
Proof.
  induction s as [|c r IH]; cbn; [reflexivity|].
  rewrite andb_true_iff, negb_true_iff. intros [Hc Hr]. rewrite (IH Hr), Hc.
  now destruct r.
Qed.

Lemma trim_fixed s :
  all_chars (fun c => negb (is_space c)) s = true -> trim s = s.
Proof.
  intros H. unfold trim. rewrite (trimStart_fixed _ H). apply trimEnd_fixed, H.
Qed.

Lemma toLowerCase_chars (p q : ascii -> bool) s :
  (forall c, p c = true -> q (lower_char c) = true) ->
  all_chars p s = true -> all_chars q (toLowerCase s) = true.
Proof.
  intros PQ. induction s as [|c r IH]; cbn; [auto|].
  rewrite !andb_true_iff. intros [Hc Hr]. auto.
Qed.

(** Facts about single characters, by running through them. *)
Ltac each_char c :=
  destruct c as [[] [] [] [] [] [] [] []]; try reflexivity; try discriminate.

Lemma kept_no_space_slug c :
  (path_kept c && negb (is_space c)) || Ascii.eqb c "-" = true -> slug_char c = true.
Proof. each_char c. Qed.

Lemma slug_or_dash c :
  (slug_char c && negb (is_dash c)) || Ascii.eqb c "-" = true -> slug_char c = true.
Proof. each_char c. Qed.

Lemma slug_no_space c : slug_char c = true -> negb (is_space c) = true.
Proof. each_char c. Qed.

Lemma slug_no_upper c : slug_char c = true -> negb (is_upper c) = true.
Proof. each_char c. Qed.

Lemma slug_kept c : slug_char c = true -> negb (negb (path_kept c)) = true.
Proof. each_char c. Qed.

Lemma is_dash_only a : is_dash a = true -> a = "-"%char.
Proof. apply Ascii.eqb_eq. Qed.

Lemma dashed_chars name : all_chars slug_char (dashed name) = true.
Proof.
  unfold dashed, squeeze.
  eapply all_chars_impl; [exact slug_or_dash|]. apply squeeze_from_chars.
  eapply all_chars_impl; [exact kept_no_space_slug|]. apply squeeze_from_chars.
  eapply all_chars_impl; [|apply all_chars_remove_all].
  intros c. cbv beta. now rewrite negb_involutive.
Qed.

Lemma dashed_no_run name : no_run is_dash (dashed name) = true.
Proof. unfold dashed, squeeze. now apply squeeze_from_no_run. Qed.

Lemma trim_dashed name : trim (dashed name) = dashed name.
Proof.
  apply trim_fixed. eapply all_chars_impl; [exact slug_no_space|].
  apply dashed_chars.
Qed.

(** A string of the shape of a path is its own path. *)
Lemma dashed_fixed s :
  all_chars slug_char s = true -> no_run is_dash s = true -> dashed s = s.
Proof.
  intros C N. unfold dashed, squeeze.
  rewrite toLowerCase_fixed by (eapply all_chars_impl; [exact slug_no_upper | exact C]).
  rewrite remove_all_none by (eapply all_chars_impl; [exact slug_kept | exact C]).
  rewrite (squeeze_from_none is_space)
    by (eapply all_chars_impl; [exact slug_no_space | exact C]).
  apply squeeze_from_fixed; [exact is_dash_only | exact N | discriminate].
Qed.

(** X22.  A path that [Folder.generatePath] returns is made of the
    letters [a] to [z], the digits and ['-'], and has no two ['-'] in a
    row. *)
Theorem generatePath_shape (name : string) :
  all_chars slug_char (generatePath name) = true /\
  no_run is_dash (generatePath name) = true.
Proof.
  unfold generatePath. rewrite trim_dashed.
  split; [apply dashed_chars | apply dashed_no_run].
Qed.

(** X23.  [Folder.generatePath] leaves its own results as they are. *)
Theorem generatePath_idempotent (name : string) :
  generatePath (generatePath name) = generatePath name.
Proof.
  unfold generatePath. rewrite !trim_dashed.
  apply dashed_fixed; [apply dashed_chars | apply dashed_no_run].
Qed.

Lemma squeeze_from_false_head class c a r :
  class a = true ->
  squeeze_from false class c (String a r) = String c (squeeze_from true class c r).
Proof. intros E. cbn. now rewrite E. Qed.

Lemma squeeze_from_none_head class c b a r :
  class a = false ->
  squeeze_from b class c (String a r) = String a (squeeze_from false class c r).
Proof. intros E. cbn. now rewrite E. Qed.

(** X24.  The last step of [Folder.generatePath], [.trim('-')], strips
    white space and there is none left to strip, so a name that starts with
    a dash or a blank gets a path that starts with ['-']. *)
Theorem generatePath_keeps_outer_dash (c : ascii) (name : string) :
  is_dash c || is_space c = true ->
  exists rest, generatePath (String c name) = String "-" rest.
Proof.
  intros H. unfold generatePath. rewrite trim_dashed. unfold dashed, squeeze.
  cbn [toLowerCase remove_all].
  assert (K : negb (path_kept (lower_char c)) = false /\
              (is_space (lower_char c) = true
               \/ (is_space (lower_char c) = false /\ lower_char c = "-"%char))).
  { revert H. each_char c; intros _; cbn; auto. }
  cbv beta. destruct K as [K [S|[S E]]]; rewrite K; [|rewrite E in *].
  - rewrite (squeeze_from_false_head is_space _ _ _ S).
    rewrite (squeeze_from_false_head is_dash) by reflexivity. eauto.
  - rewrite (squeeze_from_none_head is_space _ _ _ _ S).
    rewrite (squeeze_from_false_head is_dash) by reflexivity. eauto.
Qed.

Lemma folder_kept_char c :
  (negb (negb (folder_kept c)) && negb (is_space c)) || Ascii.eqb c "_" = true ->
  folder_char (lower_char c) = true.
Proof. each_char c. Qed.

Lemma folder_no_upper c : folder_char c = true -> negb (is_upper c) = true.
Proof. each_char c. Qed.

Lemma folder_no_space c : folder_char c = true -> negb (is_space c) = true.
Proof. each_char c. Qed.

Lemma folder_char_kept c : folder_char c = true -> negb (negb (folder_kept c)) = true.
Proof. each_char c. Qed.

(** X25.  A name that [sanitizeFolderName] returns is made of the
    letters [a] to [z], the digits, ['-'] and ['_']. *)
Theorem sanitizeFolderName_chars (folderName : string) :
  all_chars folder_char (sanitizeFolderName folderName) = true.
Proof.
  unfold sanitizeFolderName, squeeze.
  eapply toLowerCase_chars; [exact folder_kept_char|].
  apply squeeze_from_chars, all_chars_remove_all.
Qed.

(** X26.  [sanitizeFolderName] leaves its own results as they are. *)
Theorem sanitizeFolderName_idempotent (folderName : string) :
  sanitizeFolderName (sanitizeFolderName folderName) = sanitizeFolderName folderName.
Proof.
  assert (C : all_chars folder_char (sanitizeFolderName folderName) = true).
  { unfold sanitizeFolderName, squeeze.
    eapply toLowerCase_chars; [exact folder_kept_char|].
    apply squeeze_from_chars, all_chars_remove_all. }
  set (s := sanitizeFolderName folderName) in *.
  unfold sanitizeFolderName, squeeze.
  rewrite remove_all_none by (eapply all_chars_impl; [exact folder_char_kept | exact C]).
  rewrite squeeze_from_none by (eapply all_chars_impl; [exact folder_no_space | exact C]).
  apply toLowerCase_fixed. eapply all_chars_impl; [exact folder_no_upper | exact C].
Qed.

End Names.

(** A name with blanks around it. *)
Lemma generatePath_keeps_outer_dash_witness :
  exists rest, generatePath " My  Photos - 2024 " = String "-" rest.
Proof.
  apply (generatePath_keeps_outer_dash " " "My  Photos - 2024 "). reflexivity.
Defined.

(** The two functions on a name with blanks, brackets and a dash. *)
Example generatePath_sample : generatePath " My  Photos - 2024 " = "-my-photos-2024-".
Proof. reflexivity. Qed.

Example sanitizeFolderName_sample :
  sanitizeFolderName "My  Photos (2024) - b_w" = "my_photos_2024_-_b_w".
Proof. reflexivity. Qed.


(** ** The files that are sent *)

Section Sent.
Context `{host : Host}.

Lemma serve_or_generate_sends file t pl w p body :
  fst (fst (serve_or_generate file t pl w)) = Next (SendFile p body) ->
  p = cachePath_of file t /\
  body = read (snd (fst (serve_or_generate file t pl w))) p.
Proof.
  rewrite serve_or_generate_run. cbv zeta.
  destruct (bool_decide _); [cbn; intros [= <- <-]; auto|].
  destruct (read _ (row_path file)) as [b|]; [|discriminate].
  destruct (sharp pl b) as [e|out]; [discriminate|].
  cbn. intros [= <- <-]. split; [reflexivity|].
  unfold read. cbn. now rewrite lookup_insert_eq.
Qed.

Lemma answer_sends_from op t pl file w p body :
  fst (fst (answer op t pl file w)) = Next (SendFile p body) ->
  body = read (snd (fst (answer op t pl file w))) p /\
  (p = cachePath_of file t \/
   exists s q, op = Thumbnail /\ t = TThumbnail s q /\ strict_eq s 300 = true /\
               row_thumbnail_path file = Some p).
Proof.
  rewrite answer_run.
  assert (G : fst (fst (serve_or_generate file t pl w)) = Next (SendFile p body) ->
              body = read (snd (fst (serve_or_generate file t pl w))) p /\
              (p = cachePath_of file t \/
               exists s q, op = Thumbnail /\ t = TThumbnail s q /\
                           strict_eq s 300 = true /\ row_thumbnail_path file = Some p)).
  { intros S. apply serve_or_generate_sends in S as [-> ->]. auto. }
  destruct op, t; try exact G.
  destruct (present (row_thumbnail_path file)) as [tp|] eqn:P; [|exact G].
  apply present_Some in P.
  destruct (bool_decide (is_Some (fs w !! tp)) && strict_eq s 300) eqn:B.
  - cbn. intros [= <- <-]. split; [reflexivity|]. right.
    apply andb_true_iff in B as [_ B]. eauto 10.
  - destruct (serve_or_generate _ _ _ w) as [[o w1] t1]. exact G.
Qed.

(** X27.  Whenever a route of [/process] sends a file, the query was
    accepted, the lookup found a record for the caller, typed as an image,
    and the body is what the disk holds after the request at the path that
    is sent.  That path is the one [path.join] makes of the cache directory
    of the record and of the cache file name of exactly the transform that
    was asked for or, for a thumbnail of size 300 only, the thumbnail path
    stored in the record.  Where [path.join] puts the path is up to the
    name: [resizeImage] puts its [format] into the name as it comes, and the
    path need not lie in the cache directory. *)
Theorem derive_sends_only
  (op : Operation) (req : Req) (w : World) (p : string) (body : option Bytes) :
  fst (fst (derive op req w)) = SendFile p body ->
  exists file tr pl,
    List.find (row_matches (req_id req) (req_user req)) (db w) = Some file /\
    (req_user req <> 0 -> row_user_id file = req_user req) /\
    row_file_type file = "image" /\
    plan op (req_query req) = inr (tr, pl) /\
    body = read (snd (fst (derive op req w))) p /\
    (p = cachePath_of file tr \/
     (op = Thumbnail /\ row_thumbnail_path file = Some p /\
      parseInt_default (q_size (req_query req)) 300 = Num 300)).
Proof.
  destruct (caching op) eqn:C.
  - rewrite derive_run by exact C.
    destruct (plan op (req_query req)) as [r|[tr pl]] eqn:P.
    { destruct (plan_rejection _ _ _ P) as (e & m & -> & _). discriminate. }
    rewrite resolved_run. cbv zeta.
    destruct (List.find _ (db w)) as [file|] eqn:F; [|discriminate].
    destruct (String.eqb (row_file_type file) "image") eqn:T; [|discriminate].
    cbn [negb]. destruct (bool_decide _); [|discriminate].
    pose proof (answer_sends_from op tr pl file w p body) as A.
    pose proof (answer_outcome op tr pl file w) as O.
    destruct (answer op tr pl file w) as [[o w1] t1]. cbn [fst snd finish] in *.
    destruct O as [(p' & body' & ->)|(e & ->)]; [|discriminate].
    intros [= -> ->]. destruct (A eq_refl) as [B Where].
    exists file, tr, pl. split; [reflexivity|].
    split; [apply (find_row_matches _ _ _ _ F)|].
    split; [apply String.eqb_eq, T|]. split; [reflexivity|]. split; [exact B|].
    destruct Where as [->|(s & q & -> & -> & S & Tp)]; [left; reflexivity | right].
    split; [reflexivity|]. split; [exact Tp|].
    cbn [plan] in P. unfold thumbnail_plan in P.
    destruct (lt _ 50 || gt _ 1000); [discriminate|].
    destruct (lt _ 1 || gt _ 100); [discriminate|].
    injection P as <- _ _.
    destruct (parseInt_default (q_size (req_query req)) 300) as [|z];
      [discriminate|].
    cbn in S. apply Z.eqb_eq in S. now subst.
  - destruct op; try discriminate C. cbn [derive].
    rewrite getImageInfo_run, resolved_run. cbv zeta.
    destruct (List.find _ (db w)) as [file|]; [|discriminate].
    destruct (negb _); [discriminate|].
    destruct (bool_decide _); [|discriminate].
    destruct (info_run file w) as (o & -> & [(i & m & ->)|(e & ->)]); discriminate.
Qed.

End Sent.

(** The sample picture at a width of 100. *)
Lemma derive_sends_only_witness :
  let req := Sample.get 1 (Sample.width_height (Some "100") None) in
  let p := "uploads/1/cache/pic_100xauto_q80.jpeg" in
  exists file tr pl,
    List.find (row_matches (req_id req) (req_user req)) (db Sample.uploaded) = Some file /\
    (req_user req <> 0 -> row_user_id file = req_user req) /\
    row_file_type file = "image" /\
    plan (host := Ref.host) Resize (req_query req) = inr (tr, pl) /\
    read Sample.resized p = read (snd (fst (derive Resize req Sample.uploaded))) p /\
    (p = cachePath_of (host := Ref.host) file tr \/
     (Resize = Thumbnail /\ row_thumbnail_path file = Some p /\
      parseInt_default (q_size (req_query req)) 300 = Num 300)).
Proof.
  cbv zeta.
  apply (derive_sends_only (host := Ref.host) Resize
           (Sample.get 1 (Sample.width_height (Some "100") None)) Sample.uploaded
           "uploads/1/cache/pic_100xauto_q80.jpeg"
           (read Sample.resized "uploads/1/cache/pic_100xauto_q80.jpeg")).
  reflexivity.
Defined.


(** ** [uploadVideo] *)

Section Video.
Context `{host : Host}.

Lemma uploadVideo_run file folder user id w :
  folder_fails folder = false ->
  uploadVideo (Some file) folder user id w
  = (Some (Message 201 "Video uploaded successfully"),
     {| db := db w ++ [recorded file user id None]; fs := fs w |},
     [EInsert (up_filename file)]).
Proof.
  intros Fo. destruct folder as [|fid|e]; [| |discriminate Fo]; reflexivity.
Qed.

(** X28.  When the folder step does not throw, [uploadVideo] answers 201,
    stores the record with the type the file came with and no thumbnail,
    and leaves the disk alone.  For a file that is not typed as an image and
    an id larger than every id the table held, every request of the uploader
    to [/process] for the new record whose query the handler accepts is then
    answered 'Invalid file type' (400) right after the lookup. *)
Theorem uploadVideo_then_derive
  (file : Upload) (folder : FolderStep) (user id : Z) (w : World)
  (op : Operation) (req : Req) :
  fresh_id id (db w) = true -> folder_fails folder = false ->
  up_fileType file <> "image" ->
  req_id req = id -> req_user req = user ->
  accepts op (req_query req) = true ->
  let run := uploadVideo (Some file) folder user id w in
  let w1 := snd (fst run) in
  fst (fst run) = Some (Message 201 "Video uploaded successfully") /\
  db w1 = db w ++ [recorded file user id None] /\
  fs w1 = fs w /\
  derive op req w1
  = (Json 400 "Invalid file type" (Some (only op)), w1,
     [EFindById (req_id req) (req_user req)]).
Proof.
  intros Fr Fo T Ei Eu A. cbv zeta.
  rewrite (uploadVideo_run _ _ _ _ _ Fo). cbn [fst snd db fs].
  split; [reflexivity|]. split; [reflexivity|]. split; [reflexivity|].
  apply (derive_not_image op req _ (recorded file user id None) A).
  - rewrite Ei, Eu. cbn [db]. apply find_recorded, Fr.
  - exact T.
Qed.

End Video.

(** A clip is uploaded next to the sample picture; its thumbnail is asked for. *)
Lemma uploadVideo_then_derive_witness :
  let clip := {| up_path := "uploads/1/clip.mp4"; up_filename := "clip.mp4";
                 up_originalname := "clip.mp4"; up_size := 905113;
                 up_mimetype := "video/mp4"; up_fileType := "video" |} in
  let run := uploadVideo (Some clip) NoFolder 1 2 Sample.uploaded in
  let w1 := snd (fst run) in
  fst (fst run) = Some (Message 201 "Video uploaded successfully") /\
  db w1 = db Sample.uploaded ++ [recorded clip 1 2 None] /\
  fs w1 = fs Sample.uploaded /\
  derive Thumbnail (Sample.get 2 Sample.no_query) w1
  = (Json 400 "Invalid file type"
       (Some "Only image files can have thumbnails generated"), w1,
     [EFindById 2 1]).
Proof.
  cbv zeta.
  apply (uploadVideo_then_derive (host := Ref.host)
           {| up_path := "uploads/1/clip.mp4"; up_filename := "clip.mp4";
              up_originalname := "clip.mp4"; up_size := 905113;
              up_mimetype := "video/mp4"; up_fileType := "video" |}
           NoFolder 1 2 Sample.uploaded Thumbnail (Sample.get 2 Sample.no_query)).
  - reflexivity.
  - reflexivity.
  - cbn. discriminate.
  - reflexivity.
  - reflexivity.
  - reflexivity.
Defined.

(** ** [uploadMultiple] *)

Section Multiple.
Context `{host : Host}.

Lemma unlink_if_exists_quiet q w :
  db (snd (fst (unlink_if_exists q w))) = db w /\
  (forall p n, fs (snd (fst (unlink_if_exists q w))) !! p = Some n ->
               fs w !! p = Some n) /\
  forall e, In e (snd (unlink_if_exists q w)) ->
            exists p, q = Some p /\ (e = EExists p \/ e = EUnlink p).
Proof.
  rewrite unlink_if_exists_run.
  destruct (present q) as [p|] eqn:P;
    [|cbn; split; [reflexivity|]; split; [auto | intros e []]].
  apply present_Some in P. subst q.
  destruct (fs w !! p) as [[b|]|] eqn:L; cbn; (split; [reflexivity|]);
    (split; [|intros e I; repeat destruct I as [<-|I]; try destruct I; eauto]);
    auto.
  intros p' n H. apply lookup_delete_Some in H. tauto.
Qed.

Lemma upload_each_quiet this files :
  forall results w,
    db (snd (fst (upload_each this files results w))) = db w /\
    (forall p n, fs (snd (fst (upload_each this files results w))) !! p = Some n ->
                 fs w !! p = Some n) /\
    forall e, In e (snd (upload_each this files results w)) ->
              exists f, In f files /\
                        (e = EExists (up_path f) \/ e = EUnlink (up_path f)).
Proof.
  induction files as [|file rest IH]; intros results w; cbn [upload_each].
  - cbn. split; [reflexivity|]. split; [auto | intros e []].
  - unfold bind at 1, try_catch, process_file.
    destruct this; cbn.
    + destruct (IH (S results) w) as (D & Sh & E).
      destruct (upload_each true rest (S results) w) as [[o w1] t1]. cbn in *.
      split; [exact D|]. split; [exact Sh|].
      intros e I. destruct (E e I) as (f & If & Ef). eauto.
    + unfold bind.
      destruct (unlink_if_exists_quiet (Some (up_path file)) w) as (D1 & S1 & E1).
      destruct (unlink_if_exists (Some (up_path file)) w) as [[o1 wa] ta].
      cbn [fst snd] in *.
      assert (E1' : forall e, In e ta ->
                      exists f, (file = f \/ In f rest) /\
                                (e = EExists (up_path f) \/ e = EUnlink (up_path f))).
      { intros e I. destruct (E1 e I) as (p & [= <-] & Ep). eauto. }
      destruct o1 as [[]|r|e]; cbn; [|auto | auto].
      destruct (IH results wa) as (D2 & S2 & E2).
      destruct (upload_each false rest results wa) as [[o2 wb] tb]. cbn in *.
      split; [congruence|]. split; [auto|].
      intros e I. apply in_app_or in I as [I|I]; [auto|].
      destruct (E2 e I) as (f & If & Ef). eauto.
Qed.

(** X29.  [uploadMultiple] inserts no row and makes no thumbnail, however
    it is called: [processImage] and [processVideo] are empty.  It puts
    nothing on the disk, and all it does there is check for and unlink files
    of the request. *)
Theorem uploadMultiple_records_nothing
  (this : bool) (files : list Upload) (w : World) :
  let run := uploadMultiple this (Some files) w in
  db (snd (fst run)) = db w /\
  (forall p n, fs (snd (fst run)) !! p = Some n -> fs w !! p = Some n) /\
  forall e, In e (snd run) ->
            exists f, In f files /\
                      (e = EExists (up_path f) \/ e = EUnlink (up_path f)).
Proof.
  cbv zeta. unfold uploadMultiple, handle.
  destruct files as [|file rest];
    [cbn; split; [reflexivity|]; split; [auto | intros e []]|].
  unfold bind.
  destruct (upload_each_quiet this (file :: rest) 0%nat w) as (D & Sh & E).
  destruct (upload_each this (file :: rest) 0 w) as [[[n|r|e] w1] t1];
    cbn [fst snd] in *; (split; [exact D|]); (split; [exact Sh|]);
    intros ev I; cbn in I; rewrite ?app_nil_r in I; auto.
Qed.

(** One clean-up of the loop, for a path that is no directory. *)
Lemma unlink_upload file w :
  fs w !! up_path file <> Some Dir ->
  exists w1 t1,
    unlink_if_exists (Some (up_path file)) w = (Next tt, w1, t1) /\
    db w1 = db w /\
    (up_path file <> "" -> fs w1 !! up_path file = None) /\
    (forall p, p <> up_path file -> fs w1 !! p = fs w !! p) /\
    (forall p n, fs w1 !! p = Some n -> fs w !! p = Some n).
Proof.
  intros Nd. rewrite unlink_if_exists_run.
  destruct (up_path file) as [|c r] eqn:P.
  { cbn. do 2 eexists. split; [reflexivity|]. split; [reflexivity|].
    split; [intros []; reflexivity | auto]. }
  rewrite present_nonempty by discriminate.
  destruct (fs w !! String c r) as [[b|]|] eqn:L; [| contradiction |].
  - do 2 eexists. split; [reflexivity|]. cbn. split; [reflexivity|].
    split; [intros _; apply lookup_delete_eq|].
    split; [intros p N; apply lookup_delete_ne; congruence|].
    intros p n H. apply lookup_delete_Some in H. tauto.
  - do 2 eexists. split; [reflexivity|]. cbn. auto.
Qed.

Lemma upload_each_routed files :
  forall results w,
    (forall f, In f files -> fs w !! up_path f <> Some Dir) ->
    exists w1 t1,
      upload_each false files results w = (Next results, w1, t1) /\
      db w1 = db w /\
      (forall f, In f files -> up_path f <> "" -> fs w1 !! up_path f = None) /\
      (forall p, (forall f, In f files -> p <> up_path f) -> fs w1 !! p = fs w !! p) /\
      (forall p n, fs w1 !! p = Some n -> fs w !! p = Some n).
Proof.
  induction files as [|file rest IH]; intros results w Nd.
  - exists w, []. cbn. split; [reflexivity|]. split; [reflexivity|].
    split; [intros f []|]. auto.
  - destruct (unlink_upload file w) as (wa & ta & U & Da & Ga & Fa & Sa).
    { apply Nd. left. reflexivity. }
    destruct (IH results wa) as (wb & tb & E & Db & Gb & Fb & Sb).
    { intros f I H. apply Sa in H. exact (Nd f (or_intror I) H). }
    exists wb, (ta ++ tb). split.
    + cbn [upload_each]. unfold bind at 1, try_catch, process_file. cbn.
      unfold bind. rewrite U, E. reflexivity.
    + split; [congruence|]. split; [|split].
      * intros f [<-|I] Ne; [|apply Gb; assumption].
        destruct (fs wb !! up_path file) as [n|] eqn:L; [|reflexivity].
        apply Sb in L. rewrite (Ga Ne) in L. discriminate L.
      * intros p N. rewrite Fb by (intros f I; apply N; now right).
        apply Fa, N. now left.
      * intros p n H. apply Sa, Sb, H.
Qed.

(** X30.  As the router calls it, [uploadMultiple] fails every file:
    for files that are not directories the answer is 400 with the message
    '0 files uploaded successfully', the table is unchanged, every file of
    the request that multer had stored is removed again and nothing else on
    the disk is touched. *)
Theorem uploadMultiple_as_routed (files : list Upload) (w : World) :
  files <> [] ->
  (forall f, In f files -> fs w !! up_path f <> Some Dir) ->
  let run := uploadMultiple false (Some files) w in
  fst (fst run) = Message 400 "0 files uploaded successfully" /\
  db (snd (fst run)) = db w /\
  (forall f, In f files -> up_path f <> "" ->
             fs (snd (fst run)) !! up_path f = None) /\
  (forall p, (forall f, In f files -> p <> up_path f) ->
             fs (snd (fst run)) !! p = fs w !! p).
Proof.
  intros Ne Nd. cbv zeta.
  destruct (upload_each_routed files 0%nat w Nd) as (w1 & t1 & E & D & G & F & _).
  unfold uploadMultiple, handle. destruct files as [|file rest]; [contradiction|].
  unfold bind. rewrite E. cbn. auto.
Qed.

End Multiple.

(** The sample picture, sent to [/upload/multiple] once multer has stored it. *)
Lemma uploadMultiple_as_routed_witness :
  let run := uploadMultiple false (Some [Sample.photo_upload]) Sample.stored in
  fst (fst run) = Message 400 "0 files uploaded successfully" /\
  db (snd (fst run)) = db Sample.stored /\
  (forall f, In f [Sample.photo_upload] -> up_path f <> "" ->
             fs (snd (fst run)) !! up_path f = None) /\
  (forall p, (forall f, In f [Sample.photo_upload] -> p <> up_path f) ->
             fs (snd (fst run)) !! p = fs Sample.stored !! p).
Proof.
  cbv zeta.
  apply (uploadMultiple_as_routed (host := Ref.host) [Sample.photo_upload] Sample.stored).
  - discriminate.
  - intros f [<-|[]]. discriminate.
Defined.
